(** * Costar keyboard firmware: debounce, dispatch, report queue, macros

    A shallow embedding of the firmware's scan interrupt and of the
    functions it calls: first the full-featured variant, with macro
    recording and replay, then the dispatcher of the reduced variant.
    The vocabulary of the properties follows, then the proofs. *)

From Stdlib Require Import ZArith Lia Bool List.
From stdpp Require Import base numbers list.
Import ListNotations.

(** ** Build-time configuration

    The keyboard model header is not part of the sources: the layout
    table, the number of keys, the magic key [KC_RGUI], the macro
    [IS_MODIFIER] and the usage codes [KEY_X], [KEY_R], [KEY_B], [KEY_Q]
    are taken as parameters. *)

Record layout_t := LayoutEntry { type : Z; value : Z }.

Record config := Config {
  NKEY : nat;
  layout : list layout_t;
  MAGIC_KEY : layout_t;
  IS_MODIFIER : layout_t -> bool;
  KEY_X : Z;
  KEY_R : Z;
  KEY_B : Z;
  KEY_Q : Z
}.

(** ** Global state

    [uint8_t] cells that only ever hold 0 or 1 and are only tested for
    truth ([pressed], [magic_mode], [recording_mode]) are booleans; the
    other [uint8_t] cells are integers in [0, 256). Key indices and
    [replay_buf_len] are array indices and are natural numbers. *)

Record key_t := Key { pressed : bool; bounce : Z }.

Record state := State {
  key : list key_t;            (* key[NKEY] *)
  replay_buf : list nat;       (* replay_buf[255] *)
  replay_buf_len : nat;
  queue : list Z;              (* queue[7] *)
  mod_keys : Z;
  magic_mode : bool;
  recording_mode : bool
}.

Definition set_key (f : list key_t -> list key_t) (s : state) : state :=
  State (f (key s)) (replay_buf s) (replay_buf_len s) (queue s)
        (mod_keys s) (magic_mode s) (recording_mode s).

Definition set_replay_buf (f : list nat -> list nat) (s : state) : state :=
  State (key s) (f (replay_buf s)) (replay_buf_len s) (queue s)
        (mod_keys s) (magic_mode s) (recording_mode s).

Definition set_replay_buf_len (n : nat) (s : state) : state :=
  State (key s) (replay_buf s) n (queue s)
        (mod_keys s) (magic_mode s) (recording_mode s).

Definition set_queue (f : list Z -> list Z) (s : state) : state :=
  State (key s) (replay_buf s) (replay_buf_len s) (f (queue s))
        (mod_keys s) (magic_mode s) (recording_mode s).

Definition set_mod_keys (f : Z -> Z) (s : state) : state :=
  State (key s) (replay_buf s) (replay_buf_len s) (queue s)
        (f (mod_keys s)) (magic_mode s) (recording_mode s).

Definition set_magic_mode (b : bool) (s : state) : state :=
  State (key s) (replay_buf s) (replay_buf_len s) (queue s)
        (mod_keys s) b (recording_mode s).

Definition set_recording_mode (b : bool) (s : state) : state :=
  State (key s) (replay_buf s) (replay_buf_len s) (queue s)
        (mod_keys s) (magic_mode s) b.

Definition set_pressed (b : bool) (e : key_t) : key_t := Key b (bounce e).
Definition set_bounce (f : Z -> Z) (e : key_t) : key_t := Key (pressed e) (f (bounce e)).

Definition key_pressed (k : nat) (s : state) : bool :=
  match key s !! k with Some e => pressed e | None => false end.

Definition key_bounce (k : nat) (s : state) : Z :=
  match key s !! k with Some e => bounce e | None => 0%Z end.

(** ** Observable events

    [EvReport] is one call of [usb_keyboard_send] with the six key slots
    and the modifier byte it transmits. The other events log calls:
    [key_press(k)], [key_release(k)], [clear_pressed()] and
    [jump_bootloader()]. *)

Inductive event :=
| EvKeyPress (k : nat)
| EvKeyRelease (k : nat)
| EvClearPressed
| EvReport (keys : list Z) (mods : Z)
| EvBootloader.

(** ** Commands

    Every firmware function returns [void] and works on the globals: a
    command maps a state to an outcome. [Halt] is [jump_bootloader],
    which never returns; [Fault] is an access outside [key] or [layout]
    (undefined in C); [OutOfFuel] cuts the recursion of [key_press]
    through [replay_keypresses]. *)

Inductive outcome :=
| Ret (s : state) (t : list event)
| Halt (s : state) (t : list event)
| Fault
| OutOfFuel.

Definition cmd := state -> outcome.

Definition skip : cmd := fun s => Ret s [].

Definition seq_cmd (c1 c2 : cmd) : cmd := fun s =>
  match c1 s with
  | Ret s1 t1 =>
      match c2 s1 with
      | Ret s2 t2 => Ret s2 (t1 ++ t2)
      | Halt s2 t2 => Halt s2 (t1 ++ t2)
      | o => o
      end
  | o => o
  end.

Notation "c1 >> c2" := (seq_cmd c1 c2) (at level 60, right associativity).

Definition upd (f : state -> state) : cmd := fun s => Ret (f s) [].
Definition emit (e : state -> event) : cmd := fun s => Ret s [e s].
Definition ifte (b : state -> bool) (c1 c2 : cmd) : cmd :=
  fun s => if b s then c1 s else c2 s.
Definition when (b : state -> bool) (c : cmd) : cmd := ifte b c skip.

Section Firmware.

Variable cfg : config.

Definition layout_at (k : nat) : layout_t :=
  match layout cfg !! k with Some e => e | None => LayoutEntry 0 0 end.

(** [send]: copies [queue[0..5]] and [mod_keys] into the report and
    transmits it. *)
Definition send : cmd :=
  emit (fun s => EvReport (take 6 (queue s)) (mod_keys s)).

(** [for(i = 5; i > 0; i--) queue[i] = queue[i-1]; queue[0] = k;] *)
Definition push_front (k : Z) (q : list Z) : list Z :=
  <[0 := k]> (foldl (fun q i => <[i := q !!! (i - 1)]> q) q [5; 4; 3; 2; 1]).

Definition ll_key_press (k : Z) : cmd :=
  upd (set_queue (push_front k)) >> send.

Definition ll_modifier_press (m : Z) : cmd :=
  upd (set_mod_keys (fun mk => Z.lor mk m)) >> send.

(** [for(i = 0; i < 6; i++) if(queue[i]==k) break;] started at [i] with
    [n] iterations left. *)
Fixpoint find_slot (q : list Z) (k : Z) (i n : nat) : nat :=
  match n with
  | O => i
  | S n' => if (q !!! i =? k)%Z then i else find_slot q k (S i) n'
  end.

(** [for(; i < 6; i++) queue[i] = queue[i+1];] *)
Definition close_gap (i : nat) (q : list Z) : list Z :=
  foldl (fun q j => <[j := q !!! (j + 1)]> q) q (seq i (6 - i)).

Definition remove_code (k : Z) (q : list Z) : list Z :=
  close_gap (find_slot q k 0 6) q.

Definition ll_key_release (k : Z) : cmd :=
  upd (set_queue (remove_code k)) >> send.

(** [mod_keys &= ~mod]: the complement is taken on [int] and the result
    stored back into eight bits. *)
Definition ll_modifier_release (m : Z) : cmd :=
  upd (set_mod_keys (fun mk => (Z.land mk (Z.lnot m)) mod 256)%Z) >> send.

Definition is_magic_key (k : nat) : bool :=
  (type (layout_at k) =? type (MAGIC_KEY cfg))%Z
  && (value (layout_at k) =? value (MAGIC_KEY cfg))%Z.

(** [clear_pressed]: both loops as written, then [mod_keys = 0]. *)
Definition clear_keys (ks : list key_t) : list key_t :=
  foldl (fun ks i => alter (set_pressed false) i ks) ks (seq 0 (NKEY cfg)).

Definition clear_queue (q : list Z) : list Z :=
  foldl (fun q i => <[i := 0%Z]> q) q (seq 0 7).

Definition clear_pressed : cmd :=
  emit (fun _ => EvClearPressed) >>
  upd (set_key clear_keys) >>
  upd (set_queue clear_queue) >>
  upd (set_mod_keys (fun _ => 0%Z)) >>
  send.

(** The loop of [replay_keypresses], at index [i] with at most [n]
    iterations left; [replay_buf_len], [replay_buf] and the key table are
    read again at each iteration, as the C loop does. *)
Fixpoint replay_loop (kp kr : nat -> cmd) (n i : nat) : cmd :=
  match n with
  | O => skip
  | S n' => fun s =>
      if i <? replay_buf_len s then
        let k := replay_buf s !!! i in
        ((if key_pressed k s then kr k else kp k) >> replay_loop kp kr n' (S i)) s
      else Ret s []
  end.

(** [i] is a [uint8_t] below [replay_buf_len <= 255]: 255 iterations
    bound the loop. *)
Definition replay_keypresses (kp kr : nat -> cmd) : cmd :=
  clear_pressed >> replay_loop kp kr 255 0.

Definition jump_bootloader : cmd := fun s => Halt s [EvBootloader].

Definition value_is (k : nat) (c : Z) : state -> bool :=
  fun _ => (value (layout_at k) =? c)%Z.

Definition magic_key_press (replay : cmd) (k : nat) : cmd :=
  when (fun _ => is_magic_key k) (upd (set_magic_mode false)) >>
  when (value_is k (KEY_X cfg))
       (ll_key_press (KEY_X cfg) >> ll_key_release (KEY_X cfg) >>
        ll_key_press (KEY_X cfg) >> ll_key_release (KEY_X cfg)) >>
  when (value_is k (KEY_R cfg)) (upd (set_magic_mode false) >> replay) >>
  when (value_is k (KEY_B cfg)) jump_bootloader.

Definition magic_key_release (k : nat) : cmd :=
  when (value_is k (KEY_Q cfg))
       (upd (set_recording_mode true) >>
        upd (set_replay_buf_len 0) >>
        upd (set_magic_mode false) >>
        clear_pressed).

(** [replay_buf_len + 1] is computed on [int]; the increment is stored
    back into eight bits. *)
Definition add_to_replay_buf (k : nat) : cmd :=
  ifte (fun s => replay_buf_len s + 1 <? 255)
       (upd (fun s => set_replay_buf_len ((replay_buf_len s + 1) mod 256)
                        (set_replay_buf (<[replay_buf_len s := k]>) s)))
       (upd (set_recording_mode false)).

(** Normal dispatch of an edge to the report queue. *)
Definition dispatch_press (k : nat) : cmd :=
  ifte (fun _ => IS_MODIFIER cfg (layout_at k))
       (ll_modifier_press (value (layout_at k)))
       (ll_key_press (value (layout_at k))).

Definition dispatch_release (k : nat) : cmd :=
  ifte (fun _ => IS_MODIFIER cfg (layout_at k))
       (ll_modifier_release (value (layout_at k)))
       (ll_key_release (value (layout_at k))).

(** [key[k]] and [layout[k]] exist. *)
Definition in_range (k : nat) (s : state) : bool :=
  (k <? length (key s)) && (k <? length (layout cfg)).

Definition guard (b : state -> bool) (c : cmd) : cmd :=
  fun s => if b s then c s else Fault.

Definition key_release (k : nat) : cmd :=
  guard (in_range k)
    (emit (fun _ => EvKeyRelease k) >>
     upd (set_key (alter (set_pressed false) k)) >>
     ifte magic_mode
          (magic_key_release k)
          (when recording_mode (add_to_replay_buf k) >> dispatch_release k)).

Fixpoint key_press (fuel : nat) (k : nat) : cmd :=
  match fuel with
  | O => fun _ => OutOfFuel
  | S fuel' =>
      guard (in_range k)
        (emit (fun _ => EvKeyPress k) >>
         upd (set_key (alter (set_pressed true) k)) >>
         ifte magic_mode
              (magic_key_press (replay_keypresses (key_press fuel') key_release) k)
              (ifte (fun _ => is_magic_key k)
                    (ifte recording_mode
                          (upd (set_recording_mode false))
                          (upd (set_magic_mode true)))
                    (when recording_mode (add_to_replay_buf k) >> dispatch_press k)))
  end.

(** ** The scan interrupt

    One iteration of the inner loop for key [k] with raw sample [b]; the
    row and column drive routines, the timer and the LEDs do not touch
    the state above. *)

(** Modelled from the spec: [probe_column] belongs to the hardware
    interface, which is not part of the sources; it returns a one-bit
    contact reading, 1 when the key is shorted. [key[k].bounce |= ...]. *)
Definition or_sample (b : bool) (r : Z) : Z := Z.lor r (if b then 1 else 0).

(** [key[k].bounce <<= 1] on eight bits. *)
Definition shl1 (r : Z) : Z := (Z.shiftl r 1 mod 256)%Z.

Definition press_cond (k : nat) (s : state) : bool :=
  (key_bounce k s =? 127)%Z && negb (key_pressed k s).
Definition release_cond (k : nat) (s : state) : bool :=
  (key_bounce k s =? 128)%Z && key_pressed k s.

Definition scan_key (fuel : nat) (b : bool) (k : nat) : cmd :=
  upd (set_key (alter (set_bounce (or_sample b)) k)) >>
  when (press_cond k) (key_press fuel k) >>
  when (release_cond k) (key_release k) >>
  upd (set_key (alter (set_bounce shl1) k)).

(** One interrupt: keys are visited in row-major order, [k] counting up;
    [sample k] is what [probe_column] reads for key [k] in this cycle. *)
Definition scan_cycle (fuel : nat) (sample : nat -> bool) : cmd :=
  foldr (fun k c => scan_key fuel (sample k) k >> c) skip (seq 0 (NKEY cfg)).

(** State after [init]: statics are zero, [init] zeroes the key table. *)
Definition init_state : state :=
  State (replicate (NKEY cfg) (Key false 0)) (replicate 255 0) 0
        (replicate 7 0%Z) 0 false false.

End Firmware.

(** ** The reduced variant

    The variant without macros has the same scan loop and the same queue
    primitives as above; its dispatcher has no recording mode, no replay
    and no [clear_pressed]. The fields [replay_buf], [replay_buf_len] and
    [recording_mode] of the state are never read nor written. *)

Module Reduced.

Definition magic_key_press (cfg : config) (k : nat) : cmd :=
  when (fun _ => is_magic_key cfg k) (upd (set_magic_mode false)) >>
  when (value_is cfg k (KEY_X cfg))
       (ll_key_press (KEY_X cfg) >> ll_key_release (KEY_X cfg) >>
        ll_key_press (KEY_X cfg) >> ll_key_release (KEY_X cfg)).

Definition key_press (cfg : config) (k : nat) : cmd :=
  guard (in_range cfg k)
    (emit (fun _ => EvKeyPress k) >>
     upd (set_key (alter (set_pressed true) k)) >>
     ifte magic_mode
          (magic_key_press cfg k)
          (ifte (fun _ => is_magic_key cfg k)
                (upd (set_magic_mode true))
                (dispatch_press cfg k))).

Definition key_release (cfg : config) (k : nat) : cmd :=
  guard (in_range cfg k)
    (emit (fun _ => EvKeyRelease k) >>
     upd (set_key (alter (set_pressed false) k)) >>
     ifte magic_mode skip (dispatch_release cfg k)).

Definition scan_key (cfg : config) (b : bool) (k : nat) : cmd :=
  upd (set_key (alter (set_bounce (or_sample b)) k)) >>
  when (press_cond k) (key_press cfg k) >>
  when (release_cond k) (key_release cfg k) >>
  upd (set_key (alter (set_bounce shl1) k)).

Definition scan_cycle (cfg : config) (sample : nat -> bool) : cmd :=
  foldr (fun k c => scan_key cfg (sample k) k >> c) skip (seq 0 (NKEY cfg)).

Fixpoint run_cycles (cfg : config) (samples : list (nat -> bool)) : cmd :=
  match samples with
  | [] => skip
  | sample :: rest => scan_cycle cfg sample >> run_cycles cfg rest
  end.

End Reduced.

(** ** Start-up, the loops of the scan interrupt, LEDs and debug output

    [init], the loop nest and the tail of the scan interrupt, and
    [debug_print], as the variant with macros has them. *)

(** [init]: [mod_keys = 0], then [key[k].bounce = key[k].pressed = 0x00]
    for every [k < NKEY]. The USB set-up that comes first (it waits for
    the host) and [sei] do not touch the state. *)
Definition init (cfg : config) : cmd :=
  upd (set_mod_keys (fun _ => 0%Z)) >>
  upd (set_key (fun ks =>
         foldl (fun ks k =>
                  alter (fun e => set_bounce (fun _ => 0%Z) (set_pressed false e)) k ks)
               ks (seq 0 (NKEY cfg)))).

(** The inner loop [for(c = 0; c < NCOL; c++, k++)], with [n] iterations
    left; [probe c] is what [probe_column(c)] reads. The counters are
    [uint8_t]; a matrix has fewer than 256 keys and they do not wrap. *)
Fixpoint scan_columns (cfg : config) (fuel : nat) (probe : nat -> bool)
    (n c k : nat) : cmd :=
  match n with
  | O => skip
  | S n' =>
      scan_key cfg fuel (probe c) k >> scan_columns cfg fuel probe n' (S c) (S k)
  end.

(** The outer loop [for(r = 0, k = 0; r < NROW; r++)], with [n]
    iterations left; the inner loop leaves [k] advanced by [NCOL].
    [probe r c] is what [probe_column(c)] reads once [pull_row(r)] has
    selected row [r]. *)
Fixpoint scan_rows (cfg : config) (fuel : nat) (probe : nat -> nat -> bool)
    (NCOL : nat) (n r k : nat) : cmd :=
  match n with
  | O => skip
  | S n' =>
      scan_columns cfg fuel (probe r) NCOL 0 k >>
      scan_rows cfg fuel probe NCOL n' (S r) (k + NCOL)
  end.

Definition scan_matrix (cfg : config) (fuel : nat) (NROW NCOL : nat)
    (probe : nat -> nat -> bool) : cmd :=
  scan_rows cfg fuel probe NCOL NROW 0 0.

(** The argument of [update_leds] at the end of the interrupt;
    [keyboard_leds] is the LED byte set by the host. *)
Definition led_pattern (keyboard_leds : Z) (s : state) : Z :=
  if magic_mode s then 6%Z
  else if recording_mode s then 4%Z
  else keyboard_leds.

(** Calls of [phex] and of [print] with a newline. *)
Inductive debug_out :=
| Phex (v : Z)
| PrintNewline.

(** The two loops of [debug_print] and their newlines. *)
Definition debug_dump (cfg : config) (s : state) : list debug_out :=
  map (fun i => Phex (queue s !!! i)) (seq 0 7) ++ [PrintNewline] ++
  map (fun k => Phex (key_bounce k s)) (seq 0 (NKEY cfg)) ++ [PrintNewline].

(** [debug_print]: the new value of [debug_counter] (a [uint8_t]) and
    the output. *)
Definition debug_print (cfg : config) (debug_counter : Z) (s : state)
    : Z * list debug_out :=
  let c := ((debug_counter + 1) mod 256)%Z in
  if (100 <? c)%Z then (0%Z, debug_dump cfg s) else (c, []).

(** Successive calls, one per interrupt, in the states [ss]. *)
Fixpoint debug_prints (cfg : config) (c : Z) (ss : list state)
    : Z * list (list debug_out) :=
  match ss with
  | [] => (c, [])
  | s :: rest =>
      let r := debug_print cfg c s in
      let rs := debug_prints cfg r.1 rest in
      (rs.1, r.2 :: rs.2)
  end.

(** ** Runs and reachable states *)

(** Successive scan interrupts, one sample function per interrupt. *)
Fixpoint run_cycles (cfg : config) (fuel : nat) (samples : list (nat -> bool))
    : cmd :=
  match samples with
  | [] => skip
  | sample :: rest => scan_cycle cfg fuel sample >> run_cycles cfg fuel rest
  end.

(** States at the boundaries of the inner loop of the scan interrupt,
    starting from the state left by [init]. *)
Inductive reachable (cfg : config) : state -> Prop :=
| reach_init : reachable cfg (init_state cfg)
| reach_scan_key s fuel b k s' t :
    reachable cfg s -> k < NKEY cfg ->
    scan_key cfg fuel b k s = Ret s' t -> reachable cfg s'.

(** The layout table covers the key matrix. *)
Definition cfg_ok (cfg : config) : Prop := NKEY cfg <= length (layout cfg).

(** Keys physically held during one interrupt. *)
Definition held_keys (ks : list nat) : nat -> bool :=
  fun k => existsb (Nat.eqb k) ks.

(** Successive presses of normal keys, first code first. *)
Definition press_all (codes : list Z) : cmd :=
  foldr (fun c rest => ll_key_press c >> rest) skip codes.

(** Successive calls of [add_to_replay_buf], first index first. *)
Definition record_all (ks : list nat) : cmd :=
  foldr (fun k rest => add_to_replay_buf k >> rest) skip ks.

Definition is_report (e : event) : bool :=
  match e with EvReport _ _ => true | _ => false end.

(** ** Vocabulary of the properties *)

(** [sat strict R c s]: when [c] run from [s] returns or jumps to the
    bootloader with trace [t] in state [s'], then [R s t s']; with
    [strict] the run moreover neither faults nor exhausts its fuel. *)
Definition sat (strict : bool) (R : state -> list event -> state -> Prop)
    (c : cmd) (s : state) : Prop :=
  match c s with
  | Ret s' t | Halt s' t => R s t s'
  | _ => strict = false
  end.

(** More fuel never changes an outcome other than [OutOfFuel]. *)
Definition refines (o1 o2 : outcome) : Prop := o1 = OutOfFuel \/ o1 = o2.

(** Blocks of the dispatcher: a logged write of a pressed flag, the body
    of the record command, the body of the self-test command. *)
Definition mark (e : event) (f : state -> state) : cmd :=
  emit (fun _ => e) >> upd f.

Definition record_start (cfg : config) : cmd :=
  upd (set_recording_mode true) >> upd (set_replay_buf_len 0) >>
  upd (set_magic_mode false) >> clear_pressed cfg.

Definition self_test (cfg : config) : cmd :=
  ll_key_press (KEY_X cfg) >> ll_key_release (KEY_X cfg) >>
  ll_key_press (KEY_X cfg) >> ll_key_release (KEY_X cfg).

(** State left by [clear_pressed]. *)
Definition cleared (s : state) : state :=
  State (map (set_pressed false) (key s)) (replay_buf s) (replay_buf_len s)
        (replicate 7 0%Z) 0 (magic_mode s) (recording_mode s).

(** First occurrence of [k] among the six report slots. *)
Definition first_at (q : list Z) (k : Z) (i : nat) : Prop :=
  i < 6 /\ q !! i = Some k /\ forall j, j < i -> q !! j <> Some k.

(** The codes held in the six report slots, empty slots left out. *)
Definition held_codes (q : list Z) : list Z :=
  filter (fun c => c <> 0%Z) (take 6 q).

(** At most six codes are held and none is held twice. *)
Definition queue_inv (q : list Z) : Prop :=
  length (held_codes q) <= 6 /\ NoDup (held_codes q).

(** The arrays have their declared sizes, the spare slot [queue[6]] is
    zero, the two mode flags are not both set and the macro buffer holds
    at most 254 entries. *)
Record safe (cfg : config) (s : state) : Prop := Safe {
  safe_key : length (key s) = NKEY cfg;
  safe_buf : length (replay_buf s) = 255;
  safe_queue : length (queue s) = 7;
  safe_spare : queue s !! 6 = Some 0%Z;
  safe_modes : magic_mode s = true -> recording_mode s = false;
  safe_len : replay_buf_len s <= 254
}.

Definition safe_rel (cfg : config) (s : state) (t : list event) (s' : state)
    : Prop :=
  safe cfg s -> safe cfg s'.

(** Every index stored in the macro buffer is a key of the matrix other
    than the magic key. *)
Definition buf_ok (cfg : config) (s : state) : Prop :=
  replay_buf_len s <= length (replay_buf s)
  /\ Forall (fun k => k < NKEY cfg /\ is_magic_key cfg k = false)
            (take (replay_buf_len s) (replay_buf s)).

(** While recording, no magic key is pressed. *)
Definition magic_unpressed (cfg : config) (s : state) : Prop :=
  recording_mode s = true ->
  forall k, is_magic_key cfg k = true -> key_pressed k s = false.

Record inv (cfg : config) (s : state) : Prop := Inv {
  inv_safe : safe cfg s;
  inv_buf : buf_ok cfg s;
  inv_magic : magic_unpressed cfg s
}.

(** State in which the replay loop runs. *)
Record replaying (cfg : config) (s : state) : Prop := Replaying {
  rp_key : length (key s) = NKEY cfg;
  rp_buf : buf_ok cfg s;
  rp_magic : magic_mode s = false;
  rp_rec : recording_mode s = false
}.

(** What the steps of [magic_key_press] keep: the key table has its
    size, the buffer is well formed, recording is off. *)
Definition overlay_rel (cfg : config) (s : state) (t : list event)
    (s' : state) : Prop :=
  length (key s) = NKEY cfg /\ buf_ok cfg s /\ recording_mode s = false ->
  length (key s') = NKEY cfg /\ buf_ok cfg s' /\ recording_mode s' = false.

(** What a normal edge does to the macro buffer: nothing when recording
    is off, one more entry when it is on and there is room, the end of
    the recording otherwise. *)
Definition buffer_step (k : nat) (s s' : state) : Prop :=
  (recording_mode s = false /\ recording_mode s' = false
   /\ replay_buf s' = replay_buf s /\ replay_buf_len s' = replay_buf_len s)
  \/ (recording_mode s = true /\ recording_mode s' = true
      /\ replay_buf_len s < 254
      /\ replay_buf s' = <[replay_buf_len s := k]> (replay_buf s)
      /\ replay_buf_len s' = S (replay_buf_len s))
  \/ (recording_mode s = true /\ recording_mode s' = false
      /\ replay_buf s' = replay_buf s /\ replay_buf_len s' = replay_buf_len s).

(** The history registers of all keys, and what one scan does to one of
    them. *)
Definition bounces (s : state) : list Z := map bounce (key s).

Definition bounce_rel (s : state) (t : list event) (s' : state) : Prop :=
  bounces s' = bounces s.

Definition bounce_step (b : bool) (r : Z) : Z := shl1 (or_sample b r).

(** [edges resets k held t] reads the calls of [key_press(k)] and
    [key_release(k)] in [t]: it is [None] when [key_press(k)] is called
    while the last call for [k] was already a press, and otherwise tells
    whether the last call was a press. With [resets], a call of
    [clear_pressed] counts as a release of every key. *)
Fixpoint edges (resets : bool) (k : nat) (held : bool) (t : list event)
    : option bool :=
  match t with
  | [] => Some held
  | EvKeyPress k' :: t' =>
      if k' =? k then (if held then None else edges resets k true t')
      else edges resets k held t'
  | EvKeyRelease k' :: t' =>
      if k' =? k then edges resets k false t' else edges resets k held t'
  | EvClearPressed :: t' =>
      edges resets k (if resets then false else held) t'
  | _ :: t' => edges resets k held t'
  end.

(** The pressed flag of [k] follows its edges, [clear_pressed] counted
    as a release. *)
Definition edges_rel (k : nat) (s : state) (t : list event) (s' : state)
    : Prop :=
  edges true k (key_pressed k s) t = Some (key_pressed k s').

(** The pressed flag of [k] follows its edges alone: every call of
    [key_press(k)] is followed by a call of [key_release(k)] before the
    next one. *)
Definition strict_edges_rel (k : nat) (s : state) (t : list event) (s' : state)
    : Prop :=
  edges false k (key_pressed k s) t = Some (key_pressed k s').

(** ** Vocabulary of further properties: reports, edges, codes *)

(** A value that fits [uint8_t]. *)
Definition byte (z : Z) : Prop := (0 <= z < 256)%Z.

(** The report that [send] would transmit in a state, and the last
    report of a trace ([d] when the trace has none). *)
Definition report_of (s : state) : list Z * Z := (take 6 (queue s), mod_keys s).

Fixpoint last_report (d : list Z * Z) (t : list event) : list Z * Z :=
  match t with
  | [] => d
  | EvReport keys mods :: t' => last_report (keys, mods) t'
  | _ :: t' => last_report d t'
  end.

(** The host has been sent the current queue and modifier byte. *)
Definition sync_rel (s : state) (t : list event) (s' : state) : Prop :=
  last_report (report_of s) t = report_of s'.

(** An edge handed to the dispatcher: the press ([true]) or the release
    of a key. *)
Definition deliver (cfg : config) (fuel : nat) (e : bool * nat) : cmd :=
  if e.1 then key_press cfg fuel e.2 else key_release cfg e.2.

(** Successive edges, first edge first. *)
Definition play (cfg : config) (fuel : nat) (es : list (bool * nat)) : cmd :=
  foldr (fun e rest => deliver cfg fuel e >> rest) skip es.

Definition edge_event (e : bool * nat) : event :=
  if e.1 then EvKeyPress e.2 else EvKeyRelease e.2.

Definition is_edge (e : event) : bool :=
  match e with EvKeyPress _ | EvKeyRelease _ => true | _ => false end.

(** The pressed flags after an edge of key [k]. *)
Definition toggle (held : nat -> bool) (k : nat) : nat -> bool :=
  fun j => if j =? k then negb (held k) else held j.

(** What the replay loop makes of the stored indices, [held] being the
    pressed flags: a press for a key that is up, a release for a key that
    is down. *)
Fixpoint decode (held : nat -> bool) (ks : list nat) : list (bool * nat) :=
  match ks with
  | [] => []
  | k :: ks' => (negb (held k), k) :: decode (toggle held k) ks'
  end.

(** Edges as the scan loop raises them: a press of a key that is up, a
    release of a key that is down. *)
Fixpoint alternates (held : nat -> bool) (es : list (bool * nat)) : bool :=
  match es with
  | [] => true
  | e :: es' => Bool.eqb e.1 (negb (held e.2)) && alternates (toggle held e.2) es'
  end.

(** Two states that the host and the dispatch of normal edges cannot
    tell apart: same pressed flags, same queue, same modifiers, both
    outside magic mode. *)
Definition same_keys (s a : state) : Prop :=
  map pressed (key s) = map pressed (key a)
  /\ queue s = queue a /\ mod_keys s = mod_keys a
  /\ magic_mode s = false /\ magic_mode a = false.

(** No key of the matrix carries the code of the replay, bootloader or
    record command. *)
Definition no_macro_keys (cfg : config) : Prop :=
  forall k, k < NKEY cfg ->
    value (layout_at cfg k) <> KEY_R cfg
    /\ value (layout_at cfg k) <> KEY_B cfg
    /\ value (layout_at cfg k) <> KEY_Q cfg.

(** The macro part of the state. *)
Definition macro_state (s : state) : list nat * nat * bool :=
  (replay_buf s, replay_buf_len s, recording_mode s).

Definition macro_rel (s : state) (t : list event) (s' : state) : Prop :=
  macro_state s' = macro_state s.

(** The history register [r] after the samples [bs], oldest first. *)
Definition history (r : Z) (bs : list bool) : Z :=
  foldl (fun r b => bounce_step b r) r bs.

(** Every key is up and every history register is at most [m], or at
    most [2 * m + 2] for the keys below [i], which the current scan has
    already visited. *)
Definition quiet_upto (i : nat) (m : Z) (s : state) : Prop :=
  (forall k, key_pressed k s = false)
  /\ forall k, (0 <= key_bounce k s
                 <= if (k <? i)%nat then 2 * m + 2 else m)%Z.

(** Only the key table may differ. *)
Definition same_but_keys (s s' : state) : Prop :=
  s' = set_key (fun _ => key s') s.

(** The codes of the layout and of the self-test fit a byte. *)
Definition cfg_bytes (cfg : config) : Prop :=
  Forall (fun e => byte (value e)) (layout cfg) /\ byte (KEY_X cfg).

(** The codes of the normal keys and of the self-test are not zero (a
    zero marks a free slot of the report). *)
Definition cfg_codes (cfg : config) : Prop :=
  Forall (fun e => IS_MODIFIER cfg e = false -> value e <> 0%Z) (layout cfg)
  /\ KEY_X cfg <> 0%Z.

(** The queue and the modifier byte hold bytes. *)
Definition bytes_ok (s : state) : Prop :=
  length (queue s) = 7 /\ Forall byte (queue s) /\ byte (mod_keys s).

Definition bytes_rel (s : state) (t : list event) (s' : state) : Prop :=
  bytes_ok s -> bytes_ok s'.

(** A free slot of the report is never followed by a held code. *)
Definition packed (q : list Z) : Prop :=
  forall i, i < 5 -> q !! i = Some 0%Z -> q !! S i = Some 0%Z.

Definition packed_ok (s : state) : Prop :=
  length (queue s) = 7 /\ queue s !! 6 = Some 0%Z /\ packed (queue s).

Definition packed_rel (s : state) (t : list event) (s' : state) : Prop :=
  packed_ok s -> packed_ok s'.

(** A whole macro session at the dispatcher: the record key [q] is
    released in magic mode, the edges [es] follow, the magic key [m] is
    tapped to end the recording and tapped again to enter magic mode, and
    the replay key [r] is pressed. *)
Definition macro_session (cfg : config) (fuel : nat) (q m r : nat)
    (es : list (bool * nat)) : cmd :=
  key_release cfg q >>
  play cfg (S fuel) es >>
  key_press cfg (S fuel) m >> key_release cfg m >>
  key_press cfg (S fuel) m >> key_release cfg m >>
  key_press cfg (S (S fuel)) r.

(** The calls of [key_press] for a magic key in a trace. *)
Definition is_magic_press (cfg : config) (e : event) : bool :=
  match e with EvKeyPress k => is_magic_key cfg k | _ => false end.

Definition magic_presses (cfg : config) (t : list event) : nat :=
  length (List.filter (is_magic_press cfg) t).

(** Magic mode has changed once for every press of a magic key. *)
Definition toggle_rel (cfg : config) (s : state) (t : list event) (s' : state)
    : Prop :=
  magic_mode s' = xorb (magic_mode s) (Nat.odd (magic_presses cfg t)).

(** ** A configuration and scenarios to run the model *)

(** A keyboard of eleven keys: the magic key (a modifier), A, B, Q, R,
    X, left shift, and C to F. *)
Definition demo : config :=
  Config 11
         [LayoutEntry 1 128; LayoutEntry 0 4; LayoutEntry 0 5;
          LayoutEntry 0 20; LayoutEntry 0 21; LayoutEntry 0 27;
          LayoutEntry 1 2; LayoutEntry 0 6; LayoutEntry 0 7;
          LayoutEntry 0 8; LayoutEntry 0 9]
         (LayoutEntry 1 128) (fun e => (type e =? 1)%Z) 27 21 5 20.

(** A tap of the magic key, then the replay key pressed, released and
    pressed again; every phase lasts eight interrupts. *)
Definition replay_key_twice : list (nat -> bool) :=
  replicate 8 (held_keys [0]) ++ replicate 8 (held_keys []) ++
  replicate 8 (held_keys [4]) ++ replicate 8 (held_keys []) ++
  replicate 8 (held_keys [4]).

(** A is held, the magic key is tapped, A is released while magic mode
    swallows the edge, the magic key is tapped again, A is pressed. *)
Definition press_after_swallowed_release : list (nat -> bool) :=
  replicate 8 (held_keys [1]) ++ replicate 8 (held_keys [0; 1]) ++
  replicate 8 (held_keys [1]) ++ replicate 8 (held_keys []) ++
  replicate 8 (held_keys [0]) ++ replicate 8 (held_keys []) ++
  replicate 8 (held_keys [1]).

(** Six normal keys are pressed (they fill the queue), then the magic
    key. *)
Definition six_keys_then_magic : list (nat -> bool) :=
  replicate 8 (held_keys [1; 2; 7; 8; 9; 10]) ++
  replicate 8 (held_keys [0; 1; 2; 7; 8; 9; 10]).

(** A keyboard of four keys, none of them a macro key: the magic key,
    A, C and left shift. *)
Definition plain : config :=
  Config 4
         [LayoutEntry 1 128; LayoutEntry 0 4; LayoutEntry 0 6; LayoutEntry 1 2]
         (LayoutEntry 1 128) (fun e => (type e =? 1)%Z) 27 21 5 20.

(** The state in which a sequence of interrupts leaves the keyboard
    ([init_state] again if they do not return). *)
Definition state_after (cfg : config) (fuel : nat)
    (samples : list (nat -> bool)) : state :=
  match run_cycles cfg fuel samples (init_state cfg) with
  | Ret s _ => s
  | _ => init_state cfg
  end.

(** A tap of the magic key, then the bootloader key held for six
    interrupts. *)
Definition magic_then_bootloader_key : list (nat -> bool) :=
  replicate 8 (held_keys [0]) ++ replicate 8 (held_keys []) ++
  replicate 6 (held_keys [2]).

(** Left shift and A and B are pressed, then A is released. *)
Definition shifted_chord : list (nat -> bool) :=
  replicate 8 (held_keys [6; 1; 2]) ++ replicate 8 (held_keys [6; 2]).

(** Press A, release A, press B. *)
Definition demo_edges : list (bool * nat) := [(true, 1); (false, 1); (true, 2)].

(** A tap of the magic key, a tap of the record key, a tap of A. *)
Definition record_a_tap : list (nat -> bool) :=
  replicate 8 (held_keys [0]) ++ replicate 8 (held_keys []) ++
  replicate 8 (held_keys [3]) ++ replicate 8 (held_keys []) ++
  replicate 8 (held_keys [1]) ++ replicate 8 (held_keys []).

(** ** Tactics: unfolding of straight-line commands and of the state
    accessors *)

Ltac cmd_red :=
  cbv beta iota delta
    [seq_cmd emit upd ifte when guard skip send ll_key_press ll_key_release
     ll_modifier_press ll_modifier_release dispatch_press dispatch_release
     add_to_replay_buf clear_pressed magic_key_release magic_key_press
     jump_bootloader value_is].

Ltac st_red :=
  cbn [key replay_buf replay_buf_len queue mod_keys magic_mode recording_mode
       set_key set_replay_buf set_replay_buf_len set_queue set_mod_keys
       set_magic_mode set_recording_mode app].

Ltac st_norm :=
  unfold set_key, set_replay_buf, set_replay_buf_len, set_queue, set_mod_keys,
    set_magic_mode, set_recording_mode;
  cbn [key replay_buf replay_buf_len queue mod_keys magic_mode recording_mode].

Ltac st_red_in H :=
  cbn [key replay_buf replay_buf_len queue mod_keys magic_mode recording_mode
       set_key set_replay_buf set_replay_buf_len set_queue set_mod_keys
       set_magic_mode set_recording_mode app] in H.

(** ** Arrays of fixed size *)

Lemma list_len7 {A} (l : list A) :
  length l = 7 -> exists a b c d e f g, l = [a; b; c; d; e; f; g].
Proof.
  intros H.
  do 7 (destruct l as [|? l]; [discriminate H|]).
  destruct l; [|discriminate H]. eauto 10.
Qed.

Lemma push_front_7 k a b c d e f g :
  push_front k [a; b; c; d; e; f; g] = [k; a; b; c; d; e; g].
Proof. reflexivity. Qed.

Lemma clear_queue_7 a b c d e f g :
  clear_queue [a; b; c; d; e; f; g] = replicate 7 0%Z.
Proof. reflexivity. Qed.

Lemma lookup_foldl_alter_seq {A} (f : A -> A) (l : list A) n i :
  foldl (fun ks i => alter f i ks) l (seq 0 n) !! i =
  if decide (i < n) then f <$> l !! i else l !! i.
Proof.
  induction n as [|n IH].
  - destruct (decide (i < 0)); [lia|done].
  - rewrite seq_S. rewrite foldl_app. simpl.
    destruct (decide (i = n)) as [->|Hne].
    + rewrite list_lookup_alter_eq, IH.
      destruct (decide (n < n)); [lia|]. destruct (decide (n < S n)); [done|lia].
    + rewrite list_lookup_alter_ne by done. rewrite IH.
      destruct (decide (i < n)), (decide (i < S n)); try lia; done.
Qed.
Lemma foldl_alter_seq {A} (f : A -> A) (l : list A) :
  foldl (fun ks i => alter f i ks) l (seq 0 (length l)) = map f l.
Proof.
  apply list_eq. intros i.
  rewrite lookup_foldl_alter_seq, list_lookup_fmap.
  destruct (decide (i < length l)) as [Hi|Hi]; [done|].
  rewrite lookup_ge_None_2 by lia. done.
Qed.

(** ** Reasoning about commands *)

Section Sat.

Variable strict : bool.
Variable R : state -> list event -> state -> Prop.
Hypothesis R_refl : forall s, R s [] s.
Hypothesis R_trans : forall s1 t1 s2 t2 s3,
  R s1 t1 s2 -> R s2 t2 s3 -> R s1 (t1 ++ t2) s3.

Lemma sat_skip s : sat strict R skip s.
Proof. apply R_refl. Qed.

Lemma sat_upd f s : R s [] (f s) -> sat strict R (upd f) s.
Proof. done. Qed.

Lemma sat_emit e s : R s [e s] s -> sat strict R (emit e) s.
Proof. done. Qed.

Lemma sat_seq c1 c2 s :
  sat strict R c1 s ->
  (forall s1 t1, c1 s = Ret s1 t1 -> R s t1 s1 -> sat strict R c2 s1) ->
  sat strict R (c1 >> c2) s.
Proof.
  unfold sat, seq_cmd. intros H1 H2.
  destruct (c1 s) as [s1 t1|s1 t1| |]; try done.
  specialize (H2 s1 t1 eq_refl H1).
  destruct (c2 s1) as [s2 t2|s2 t2| |]; try done; by eapply R_trans.
Qed.

Lemma sat_ifte b c1 c2 s :
  (b s = true -> sat strict R c1 s) ->
  (b s = false -> sat strict R c2 s) ->
  sat strict R (ifte b c1 c2) s.
Proof.
  intros H1 H2. unfold sat, ifte in *.
  destruct (b s); [apply H1|apply H2]; reflexivity.
Qed.

Lemma sat_guard b c s :
  (b s = true -> sat strict R c s) ->
  (b s = false -> strict = false) ->
  sat strict R (guard b c) s.
Proof.
  intros H1 H2. unfold sat, guard in *.
  destruct (b s); [apply H1|apply H2]; reflexivity.
Qed.

Lemma sat_when b c s :
  (b s = true -> sat strict R c s) -> sat strict R (when b c) s.
Proof. intros H. apply sat_ifte; [done|]. intros _. apply sat_skip. Qed.

End Sat.

Lemma sat_Ret strict R c s s' t : sat strict R c s -> c s = Ret s' t -> R s t s'.
Proof. unfold sat. intros H E. by rewrite E in H. Qed.

Lemma sat_Halt strict R c s s' t : sat strict R c s -> c s = Halt s' t -> R s t s'.
Proof. unfold sat. intros H E. by rewrite E in H. Qed.

Lemma sat_weaken strict (R R' : state -> list event -> state -> Prop) c s :
  (forall t s', R s t s' -> R' s t s') -> sat strict R c s -> sat strict R' c s.
Proof. unfold sat. intros H. destruct (c s); try done; apply H. Qed.

(** ** The report queue: [ll_key_press] and [ll_key_release] *)

Section Queue.

Lemma ll_key_press_eq code s :
  ll_key_press code s =
  Ret (set_queue (push_front code) s)
      [EvReport (take 6 (push_front code (queue s))) (mod_keys s)].
Proof. reflexivity. Qed.

Lemma ll_key_release_eq code s :
  ll_key_release code s =
  Ret (set_queue (remove_code code) s)
      [EvReport (take 6 (remove_code code (queue s))) (mod_keys s)].
Proof. reflexivity. Qed.

Lemma push_front_take_drop k q :
  length q = 7 -> push_front k q = k :: take 5 q ++ drop 6 q.
Proof.
  intros H. destruct (list_len7 q H) as (a & b & c & d & e & f & g & ->).
  reflexivity.
Qed.

Lemma push_front_lookup_6 k (q : list Z) : push_front k q !! 6 = q !! 6.
Proof.
  unfold push_front. simpl.
  by rewrite !list_lookup_insert_ne by lia.
Qed.

Lemma close_gap_lookup_6 i (q : list Z) : close_gap i q !! 6 = q !! 6.
Proof.
  unfold close_gap.
  assert (H : forall l (q : list Z), Forall (fun j => j < 6) l ->
            foldl (fun q j => <[j := q !!! (j + 1)]> q) q l !! 6 = q !! 6).
  { induction l as [|j l IH]; intros q' Hl; [done|].
    inversion Hl; subst. simpl. rewrite IH by done.
    apply list_lookup_insert_ne. lia. }
  apply H. apply Forall_forall. intros j Hj. apply elem_of_seq in Hj. lia.
Qed.

Lemma clear_queue_lookup_6 (q : list Z) x :
  q !! 6 = Some x -> clear_queue q !! 6 = Some 0%Z.
Proof.
  intros H. unfold clear_queue. simpl.
  apply list_lookup_insert_eq. rewrite !length_insert.
  by eapply lookup_lt_Some.
Qed.

Lemma find_slot_found q k i :
  length q = 7 -> first_at q k i -> find_slot q k 0 6 = i.
Proof.
  intros H (Hi & Hk & Hlt).
  destruct (list_len7 q H) as (a & b & c & d & e & f & g & ->).
  assert (H0 : 0 < i -> a <> k) by (intros; specialize (Hlt 0); naive_solver).
  assert (H1 : 1 < i -> b <> k) by (intros; specialize (Hlt 1); naive_solver).
  assert (H2 : 2 < i -> c <> k) by (intros; specialize (Hlt 2); naive_solver).
  assert (H3 : 3 < i -> d <> k) by (intros; specialize (Hlt 3); naive_solver).
  assert (H4 : 4 < i -> e <> k) by (intros; specialize (Hlt 4); naive_solver).
  clear Hlt.
  do 6 (destruct i as [|i]; [simpl in Hk; injection Hk as ->; simpl;
    repeat (rewrite (proj2 (Z.eqb_neq _ _)) by (first [apply H0|apply H1|apply H2|apply H3|apply H4]; lia));
    by rewrite ?Z.eqb_refl|]).
  lia.
Qed.

Lemma find_slot_absent q k :
  length q = 7 -> k ∉ take 6 q -> find_slot q k 0 6 = 6.
Proof.
  intros H Hk.
  destruct (list_len7 q H) as (a & b & c & d & e & f & g & ->).
  simpl in Hk. rewrite !not_elem_of_cons in Hk.
  destruct Hk as (? & ? & ? & ? & ? & ? & _). simpl.
  by rewrite !(proj2 (Z.eqb_neq _ _)) by congruence.
Qed.

Lemma remove_code_found q k i :
  length q = 7 -> first_at q k i ->
  remove_code k q = delete i q ++ drop 6 q.
Proof.
  intros H Hf. unfold remove_code. rewrite (find_slot_found q k i H Hf).
  destruct Hf as (Hi & _ & _).
  destruct (list_len7 q H) as (a & b & c & d & e & f & g & ->).
  do 6 (destruct i as [|i]; [reflexivity|]). lia.
Qed.

Lemma remove_code_absent q k :
  length q = 7 -> k ∉ take 6 q -> remove_code k q = q.
Proof.
  intros H Hk. unfold remove_code. rewrite (find_slot_absent q k H Hk).
  reflexivity.
Qed.

Lemma set_queue_same s f : f (queue s) = queue s -> set_queue f s = s.
Proof. destruct s. unfold set_queue. simpl. by intros ->. Qed.

End Queue.

Lemma take_app_take {A} n m (l1 l2 : list A) :
  n <= length l1 + m -> take n (l1 ++ take m l2) = take n (l1 ++ l2).
Proof.
  intros H. rewrite !take_app, take_take.
  f_equal. f_equal. lia.
Qed.

Lemma press_all_queue codes : forall s,
  length (queue s) = 7 ->
  exists s' t,
    press_all codes s = Ret s' t
    /\ queue s' = take 6 (rev codes ++ take 6 (queue s)) ++ drop 6 (queue s)
    /\ mod_keys s' = mod_keys s
    /\ forallb is_report t = true.
Proof.
  induction codes as [|c codes IH]; intros s Hlen.
  - exists s, []. repeat split; try done. simpl.
    rewrite take_take. simpl. by rewrite take_drop.
  - simpl. unfold seq_cmd. rewrite ll_key_press_eq.
    set (s1 := set_queue (push_front c) s).
    assert (Hq1 : queue s1 = c :: take 5 (queue s) ++ drop 6 (queue s))
      by (apply push_front_take_drop, Hlen).
    assert (Hlen1 : length (queue s1) = 7).
    { rewrite Hq1. simpl. rewrite length_app, length_take, length_drop. lia. }
    destruct (IH s1 Hlen1) as (s' & t & -> & Hq & Hm & Ht).
    eexists _, _. split; [reflexivity|]. repeat split; try done.
    rewrite Hq, Hq1.
    assert (Ht6 : take 6 (c :: take 5 (queue s) ++ drop 6 (queue s))
                  = c :: take 5 (queue s)).
    { destruct (list_len7 _ Hlen) as (a & b & d & e & f & g & h & ->). done. }
    assert (Hd6 : drop 6 (c :: take 5 (queue s) ++ drop 6 (queue s))
                  = drop 6 (queue s)).
    { destruct (list_len7 _ Hlen) as (a & b & d & e & f & g & h & ->). done. }
    rewrite Ht6, Hd6. f_equal.
    rewrite <- app_assoc. simpl.
    change (c :: take 5 (queue s)) with ([c] ++ take 5 (queue s)).
    change (c :: take 6 (queue s)) with ([c] ++ take 6 (queue s)).
    rewrite !app_assoc.
    rewrite !take_app_take; [done| |]; rewrite length_app; simpl; lia.
Qed.

(** C2. [ll_key_press] shifts the six report slots right by one, drops
    the last of them and puts the code in front; up to six presses from
    the empty queue leave exactly those codes, most recent first; a
    seventh press evicts the oldest code, and the only event of that
    press is the transmitted report (no release of the evicted code). *)
Theorem press_shifts_and_evicts_oldest :
  (forall s code, length (queue s) = 7 ->
     ll_key_press code s =
     Ret (set_queue (fun q => code :: take 5 q ++ drop 6 q) s)
         [EvReport (code :: take 5 (queue s)) (mod_keys s)])
  /\ (forall s codes, queue s = replicate 7 0%Z -> length codes <= 6 ->
        exists s' t,
          press_all codes s = Ret s' t
          /\ take 6 (queue s') = rev codes ++ replicate (6 - length codes) 0%Z
          /\ forallb is_report t = true)
  /\ (forall s c1 c2 c3 c4 c5 c6 c7 q6,
        queue s = [c6; c5; c4; c3; c2; c1; q6] ->
        ll_key_press c7 s =
        Ret (set_queue (fun _ => [c7; c6; c5; c4; c3; c2; q6]) s)
            [EvReport [c7; c6; c5; c4; c3; c2] (mod_keys s)])
  /\ (forall cfg fuel k s,
        in_range cfg k s = true -> length (queue s) = 7 ->
        magic_mode s = false -> recording_mode s = false ->
        is_magic_key cfg k = false ->
        IS_MODIFIER cfg (layout_at cfg k) = false ->
        key_press cfg (S fuel) k s =
        Ret (set_queue (fun q => value (layout_at cfg k) :: take 5 q ++ drop 6 q)
               (set_key (alter (set_pressed true) k) s))
            [EvKeyPress k;
             EvReport (value (layout_at cfg k) :: take 5 (queue s)) (mod_keys s)]).
Proof.
  split; [|split; [|split]].
  - intros s code Hlen. rewrite ll_key_press_eq.
    unfold set_queue. rewrite (push_front_take_drop _ _ Hlen).
    destruct (list_len7 _ Hlen) as (a & b & c & d & e & f & g & ->). done.
  - intros s codes Hq Hlen.
    destruct (press_all_queue codes s) as (s' & t & Hrun & Hq' & _ & Ht).
    { by rewrite Hq. }
    exists s', t. repeat split; try done.
    rewrite Hq', Hq. clear -Hlen.
    do 7 (destruct codes as [|? codes]; [reflexivity|]).
    simpl in Hlen. lia.
  - intros s c1 c2 c3 c4 c5 c6 c7 q6 Hq. rewrite ll_key_press_eq.
    unfold set_queue. by rewrite Hq.
  - intros cfg fuel k s Hr Hlen Hm Hrec Hmk Hmod.
    cbn [key_press]. cmd_red. st_red. rewrite Hr, Hm, Hmk, Hrec, Hmod.
    unfold set_queue, set_key. st_red.
    rewrite (push_front_take_drop _ _ Hlen).
    destruct (list_len7 _ Hlen) as (a & b & c & d & e & f & g & ->). done.
Qed.

Lemma press_shifts_and_evicts_oldest_witness :
  (exists s' t,
     press_all [4; 5; 6]%Z (init_state demo) = Ret s' t
     /\ take 6 (queue s') = [6; 5; 4; 0; 0; 0]%Z
     /\ forallb is_report t = true)
  /\ key_press demo 1 1 (init_state demo) =
     Ret (set_queue (fun _ => [4; 0; 0; 0; 0; 0; 0]%Z)
            (set_key (alter (set_pressed true) 1) (init_state demo)))
         [EvKeyPress 1; EvReport [4; 0; 0; 0; 0; 0]%Z 0].
Proof.
  split.
  - apply (proj1 (proj2 press_shifts_and_evicts_oldest)
             (init_state demo) [4; 5; 6]%Z).
    + reflexivity.
    + cbn. lia.
  - apply (proj2 (proj2 (proj2 press_shifts_and_evicts_oldest))
             demo 0 1 (init_state demo)); reflexivity.
Defined.

(** ** A proof rule for the whole dispatcher

    A relation that every elementary step of the firmware satisfies is
    satisfied by [key_press], [key_release], the replay loop and the scan
    interrupt, whatever the fuel. [key_press(k)] is only ever called on an
    unpressed key and [key_release(k)] on a pressed one: by the scan
    interrupt (its two tests) and by the replay loop (its test). *)

Section Dispatcher.

Variable cfg : config.
Variable R : state -> list event -> state -> Prop.
Hypothesis R_refl : forall s, R s [] s.
Hypothesis R_trans : forall s1 t1 s2 t2 s3,
  R s1 t1 s2 -> R s2 t2 s3 -> R s1 (t1 ++ t2) s3.

Local Abbreviation ok := (sat false R).

Hypothesis H_press_flag : forall k s,
  in_range cfg k s = true -> key_pressed k s = false ->
  ok (mark (EvKeyPress k) (set_key (alter (set_pressed true) k))) s.
Hypothesis H_release_flag : forall k s,
  in_range cfg k s = true -> key_pressed k s = true ->
  ok (mark (EvKeyRelease k) (set_key (alter (set_pressed false) k))) s.
Hypothesis H_bounce : forall f k s,
  ok (upd (set_key (alter (set_bounce f) k))) s.
Hypothesis H_magic_off : forall s, ok (upd (set_magic_mode false)) s.
Hypothesis H_magic_on : forall s,
  magic_mode s = false -> recording_mode s = false ->
  ok (upd (set_magic_mode true)) s.
Hypothesis H_recording_off : forall s, ok (upd (set_recording_mode false)) s.
Hypothesis H_record_start : forall s,
  magic_mode s = true -> ok (record_start cfg) s.
Hypothesis H_add : forall k s,
  magic_mode s = false -> recording_mode s = true ->
  ok (add_to_replay_buf k) s.
Hypothesis H_ll_key_press : forall c s, ok (ll_key_press c) s.
Hypothesis H_ll_key_release : forall c s, ok (ll_key_release c) s.
Hypothesis H_ll_modifier_press : forall m s, ok (ll_modifier_press m) s.
Hypothesis H_ll_modifier_release : forall m s, ok (ll_modifier_release m) s.
Hypothesis H_clear_pressed : forall s, ok (clear_pressed cfg) s.
Hypothesis H_bootloader : forall s, ok jump_bootloader s.

Lemma sat_mark_seq e f c s :
  ok (mark e f) s -> ok c (f s) -> ok (mark e f >> c) s.
Proof.
  intros H1 H2. apply sat_seq; [done..|].
  intros s1 t1 E _. unfold mark, seq_cmd, emit, upd in E.
  by injection E as <- <-.
Qed.

Lemma mark_assoc e f c s :
  (emit (fun _ => e) >> upd f >> c) s = (mark e f >> c) s.
Proof.
  unfold mark, seq_cmd, emit, upd. simpl.
  by destruct (c (f s)).
Qed.

Lemma sat_upd_seq f c s :
  ok (upd f) s -> ok c (f s) -> ok (upd f >> c) s.
Proof.
  intros H1 H2. apply sat_seq; [done..|].
  intros s1 t1 E _. unfold upd in E. by injection E as <- <-.
Qed.

Lemma dispatch_press_ok k s : ok (dispatch_press cfg k) s.
Proof. apply sat_ifte; intros _; auto. Qed.

Lemma dispatch_release_ok k s : ok (dispatch_release cfg k) s.
Proof. apply sat_ifte; intros _; auto. Qed.

Lemma self_test_ok s : ok (self_test cfg) s.
Proof. unfold self_test. repeat (apply sat_seq; [done..|intros ? ? _ _]); auto. Qed.

Lemma magic_key_release_ok k s :
  magic_mode s = true -> ok (magic_key_release cfg k) s.
Proof.
  intros Hm. apply sat_when; [done|]. intros _. by apply H_record_start.
Qed.

Lemma key_release_ok k s :
  key_pressed k s = true -> ok (key_release cfg k) s.
Proof.
  intros Hp. unfold key_release.
  apply sat_guard; [intros Hr|done].
  unfold sat. rewrite mark_assoc. apply sat_mark_seq; [auto|].
  apply sat_ifte; intros Hm.
  - by apply magic_key_release_ok.
  - apply sat_seq; [done..| |].
    + apply sat_when; [done|]. intros Hrec. by apply H_add.
    + intros. apply dispatch_release_ok.
Qed.

Lemma replay_loop_ok (kp kr : nat -> cmd) :
  (forall k s, key_pressed k s = false -> ok (kp k) s) ->
  (forall k s, key_pressed k s = true -> ok (kr k) s) ->
  forall n i s, ok (replay_loop kp kr n i) s.
Proof.
  intros Hkp Hkr. induction n as [|n IH]; intros i s.
  - by apply sat_skip.
  - unfold sat. cbn [replay_loop].
    destruct (i <? replay_buf_len s); [|apply R_refl].
    apply sat_seq; [done..| |intros; apply IH].
    destruct (key_pressed _ s) eqn:Hp; auto.
Qed.

Lemma magic_key_press_ok (replay : cmd) k s :
  (forall s, ok replay s) -> ok (magic_key_press cfg replay k) s.
Proof.
  intros Hreplay. unfold magic_key_press.
  apply sat_seq; [done..| |intros ? ? _ _].
  { apply sat_when; [done|]. auto. }
  apply sat_seq; [done..| |intros ? ? _ _].
  { apply sat_when; [done|]. intros _. apply self_test_ok. }
  apply sat_seq; [done..| |intros ? ? _ _].
  { apply sat_when; [done|]. intros _. apply sat_upd_seq; auto. }
  apply sat_when; [done|]. auto.
Qed.

Lemma key_press_ok fuel : forall k s,
  key_pressed k s = false -> ok (key_press cfg fuel k) s.
Proof.
  induction fuel as [|fuel IH]; intros k s Hp; [done|].
  cbn [key_press].
  apply sat_guard; [intros Hr|done].
  unfold sat. rewrite mark_assoc. apply sat_mark_seq; [auto|].
  apply sat_ifte; intros Hm.
  - apply magic_key_press_ok. intros s1.
    unfold replay_keypresses. apply sat_seq; [done..|auto|].
    intros. apply replay_loop_ok; [apply IH|apply key_release_ok].
  - st_red_in Hm. apply sat_ifte; intros Hmk.
    + apply sat_ifte; intros Hrec; [auto|]. by apply H_magic_on.
    + apply sat_seq; [done..| |intros; apply dispatch_press_ok].
      apply sat_when; [done|]. intros Hrec. by apply H_add.
Qed.

Lemma scan_key_ok fuel b k s : ok (scan_key cfg fuel b k) s.
Proof.
  unfold scan_key.
  apply sat_upd_seq; [auto|].
  apply sat_seq; [done..| |intros ? ? _ _].
  { apply sat_when; [done|]. unfold press_cond. intros Hc.
    apply andb_true_iff in Hc as [_ Hc]. apply negb_true_iff in Hc.
    by apply key_press_ok. }
  apply sat_seq; [done..| |intros ? ? _ _; auto].
  apply sat_when; [done|]. unfold release_cond. intros Hc.
  apply andb_true_iff in Hc as [_ Hc]. by apply key_release_ok.
Qed.

End Dispatcher.

(** ** Shape of the state and reachable states *)

Lemma foldl_insert_length {A} (g : list A -> nat -> A) (l : list nat) :
  forall q : list A,
  length (foldl (fun q j => <[j := g q j]> q) q l) = length q.
Proof.
  induction l as [|j l IH]; intros q; [done|].
  simpl. by rewrite IH, length_insert.
Qed.

Lemma push_front_length k (q : list Z) : length (push_front k q) = length q.
Proof.
  unfold push_front. rewrite length_insert.
  apply (foldl_insert_length (fun q i => q !!! (i - 1))).
Qed.

Lemma remove_code_length k (q : list Z) : length (remove_code k q) = length q.
Proof.
  unfold remove_code, close_gap.
  apply (foldl_insert_length (fun q j => q !!! (j + 1))).
Qed.

Lemma remove_code_lookup_6 k (q : list Z) : remove_code k q !! 6 = q !! 6.
Proof. apply close_gap_lookup_6. Qed.

Lemma clear_queue_length (q : list Z) : length (clear_queue q) = length q.
Proof. apply (foldl_insert_length (fun _ _ => 0%Z)). Qed.

Lemma clear_keys_length cfg (ks : list key_t) :
  length (clear_keys cfg ks) = length ks.
Proof.
  unfold clear_keys. generalize (seq 0 (NKEY cfg)) as l. intros l. revert ks.
  induction l as [|j l IH]; intros ks; [done|].
  simpl. by rewrite IH, length_alter.
Qed.

Lemma clear_keys_lookup cfg (ks : list key_t) i :
  clear_keys cfg ks !! i =
  if decide (i < NKEY cfg) then set_pressed false <$> ks !! i else ks !! i.
Proof. apply lookup_foldl_alter_seq. Qed.

Lemma reachable_scan_keys cfg fuel sample ks : forall s s' t,
  Forall (fun k => k < NKEY cfg) ks ->
  reachable cfg s ->
  foldr (fun k c => scan_key cfg fuel (sample k) k >> c) skip ks s = Ret s' t ->
  reachable cfg s'.
Proof.
  induction ks as [|k ks IH]; intros s s' t Hks Hs E.
  - injection E as <- _. done.
  - simpl in E. unfold seq_cmd in E.
    destruct (scan_key cfg fuel (sample k) k s) as [s1 t1| | |] eqn:E1; try done.
    inversion Hks; subst.
    destruct (foldr _ skip ks s1) as [s2 t2| | |] eqn:E2; try done.
    injection E as <- _.
    eapply IH; [done| |exact E2]. by eapply reach_scan_key.
Qed.

Lemma reachable_scan_cycle cfg fuel sample s s' t :
  reachable cfg s -> scan_cycle cfg fuel sample s = Ret s' t -> reachable cfg s'.
Proof.
  intros Hs E. eapply reachable_scan_keys; [|exact Hs|exact E].
  apply Forall_forall. intros k Hk. apply elem_of_seq in Hk. lia.
Qed.

Section SafeInvariant.

Variable cfg : config.

Lemma safe_rel_refl s : safe_rel cfg s [] s.
Proof. unfold safe_rel. auto. Qed.

Lemma safe_rel_trans s1 t1 s2 t2 s3 :
  safe_rel cfg s1 t1 s2 -> safe_rel cfg s2 t2 s3 ->
  safe_rel cfg s1 (t1 ++ t2) s3.
Proof. unfold safe_rel. auto. Qed.

Local Ltac safe_step :=
  intros; unfold sat, mark, record_start, safe_rel; cmd_red;
  intros [Hk Hb Hq Hs Hm Hl]; st_red_in Hm; split; st_red;
  rewrite ?length_alter, ?length_insert, ?push_front_length,
    ?remove_code_length, ?clear_queue_length, ?clear_keys_length,
    ?push_front_lookup_6, ?remove_code_lookup_6;
  try done; try lia; try congruence.

Lemma safe_init : safe cfg (init_state cfg).
Proof.
  split; simpl; rewrite ?length_replicate; try done. lia.
Qed.

Local Ltac safe_cases :=
  [> apply safe_rel_refl | apply safe_rel_trans | ..];
  try (safe_step; fail);
  try (safe_step; by eapply clear_queue_lookup_6);
  (intros k0 s0 Hm0 Hr0; unfold sat, add_to_replay_buf, ifte, upd;
   destruct (replay_buf_len s0 + 1 <? 255) eqn:E;
   [apply Nat.ltb_lt in E; intros [Hk Hb Hq Hs Hm Hl]; split; st_red;
    rewrite ?length_insert; try done; rewrite Nat.mod_small; lia
   |safe_step]).

Lemma key_release_safe k s :
  key_pressed k s = true -> sat false (safe_rel cfg) (key_release cfg k) s.
Proof. apply key_release_ok; safe_cases. Qed.

Lemma key_press_safe fuel k s :
  key_pressed k s = false -> sat false (safe_rel cfg) (key_press cfg fuel k) s.
Proof. apply key_press_ok; safe_cases. Qed.

Lemma scan_key_safe fuel b k s :
  sat false (safe_rel cfg) (scan_key cfg fuel b k) s.
Proof. apply scan_key_ok; safe_cases. Qed.

Lemma reachable_safe s : reachable cfg s -> safe cfg s.
Proof.
  induction 1 as [|s fuel b k s' t _ IH Hk E].
  - apply safe_init.
  - by apply (sat_Ret _ _ _ _ _ _ (scan_key_safe fuel b k s) E).
Qed.

End SafeInvariant.

(** ** Key table lookups *)

Lemma key_pressed_set_pressed j k b s :
  key_pressed j (set_key (alter (set_pressed b) k) s) =
  if decide (j = k /\ k < length (key s)) then b else key_pressed j s.
Proof.
  unfold key_pressed. st_red.
  destruct (decide (j = k)) as [->|Hne].
  - rewrite list_lookup_alter_eq.
    destruct (decide (k = k /\ k < length (key s))) as [[_ Hlt]|Hn].
    + destruct (lookup_lt_is_Some_2 _ _ Hlt) as [e ->]. done.
    + rewrite lookup_ge_None_2 by lia. done.
  - rewrite list_lookup_alter_ne by done.
    destruct (decide (j = k /\ k < length (key s))) as [[? _]|_]; done.
Qed.

Lemma key_pressed_set_bounce j k f s :
  key_pressed j (set_key (alter (set_bounce f) k) s) = key_pressed j s.
Proof.
  unfold key_pressed. st_red.
  destruct (decide (j = k)) as [->|Hne].
  - rewrite list_lookup_alter_eq. by destruct (key s !! k).
  - by rewrite list_lookup_alter_ne.
Qed.

Lemma key_bounce_set_pressed j k b s :
  key_bounce j (set_key (alter (set_pressed b) k) s) = key_bounce j s.
Proof.
  unfold key_bounce. st_red.
  destruct (decide (j = k)) as [->|Hne].
  - rewrite list_lookup_alter_eq. by destruct (key s !! k).
  - by rewrite list_lookup_alter_ne.
Qed.

Lemma key_bounce_set_bounce j k f s :
  key_bounce j (set_key (alter (set_bounce f) k) s) =
  if decide (j = k /\ k < length (key s)) then f (key_bounce k s)
  else key_bounce j s.
Proof.
  unfold key_bounce. st_red.
  destruct (decide (j = k)) as [->|Hne].
  - rewrite list_lookup_alter_eq.
    destruct (decide (k = k /\ k < length (key s))) as [[_ Hlt]|Hn].
    + destruct (lookup_lt_is_Some_2 _ _ Hlt) as [e ->]. done.
    + rewrite lookup_ge_None_2 by lia. done.
  - rewrite list_lookup_alter_ne by done.
    destruct (decide (j = k /\ k < length (key s))) as [[? _]|_]; done.
Qed.

Lemma key_pressed_ext j s1 s2 : key s1 = key s2 -> key_pressed j s1 = key_pressed j s2.
Proof. unfold key_pressed. by intros ->. Qed.

Lemma key_bounce_ext j s1 s2 : key s1 = key s2 -> key_bounce j s1 = key_bounce j s2.
Proof. unfold key_bounce. by intros ->. Qed.

Lemma key_pressed_clear_keys cfg j s :
  key_pressed j (set_key (clear_keys cfg) s) =
  if decide (j < NKEY cfg) then false else key_pressed j s.
Proof.
  unfold key_pressed. st_red. rewrite clear_keys_lookup.
  destruct (decide (j < NKEY cfg)); [|done]. by destruct (key s !! j).
Qed.

Lemma key_bounce_clear_keys cfg j s :
  key_bounce j (set_key (clear_keys cfg) s) = key_bounce j s.
Proof.
  unfold key_bounce. st_red. rewrite clear_keys_lookup.
  destruct (decide (j < NKEY cfg)); [|done]. by destruct (key s !! j).
Qed.

(** ** The edges of one key in a trace *)

Lemma edges_app resets k t1 : forall held t2 h1,
  edges resets k held t1 = Some h1 ->
  edges resets k held (t1 ++ t2) = edges resets k h1 t2.
Proof.
  induction t1 as [|e t1 IH]; intros held t2 h1 H.
  - simpl in *. by injection H as ->.
  - destruct e as [k'|k'| | |]; simpl in *;
      repeat match goal with
             | |- context [?a =? ?b] => destruct (a =? b)
             | H : context [if ?h then _ else _] |- _ => destruct h
             end; try done; by apply IH.
Qed.

Section Tracking.

Variable cfg : config.
Variable k : nat.
Hypothesis k_lt : k < NKEY cfg.

Lemma edges_rel_refl s : edges_rel k s [] s.
Proof. done. Qed.

Lemma edges_rel_trans s1 t1 s2 t2 s3 :
  edges_rel k s1 t1 s2 -> edges_rel k s2 t2 s3 -> edges_rel k s1 (t1 ++ t2) s3.
Proof.
  unfold edges_rel. intros H1 H2. by rewrite (edges_app _ _ _ _ _ _ H1).
Qed.

Local Ltac edges_step :=
  intros; unfold sat, mark, record_start, edges_rel; cmd_red; simpl edges;
  rewrite ?key_pressed_set_bounce; try done.

Lemma scan_key_edges fuel b k' s :
  sat false (edges_rel k) (scan_key cfg fuel b k') s.
Proof.
  apply scan_key_ok; [apply edges_rel_refl|apply edges_rel_trans|..].
  all: try (edges_step; fail).
  - intros k0 s0 Hr Hp. edges_step. rewrite key_pressed_set_pressed.
    apply andb_true_iff in Hr as [Hr _]. apply Nat.ltb_lt in Hr.
    destruct (Nat.eqb_spec k0 k) as [->|Hne].
    + rewrite Hp. by destruct (decide _) as [_|[]].
    + by destruct (decide _) as [[? _]|_].
  - intros k0 s0 Hr Hp. edges_step. rewrite key_pressed_set_pressed.
    apply andb_true_iff in Hr as [Hr _]. apply Nat.ltb_lt in Hr.
    destruct (Nat.eqb_spec k0 k) as [->|Hne].
    + by destruct (decide _) as [_|[]].
    + by destruct (decide _) as [[? _]|_].
  - intros s0 _. edges_step.
    rewrite (key_pressed_ext k _ (set_key (clear_keys cfg) s0)) by done.
    rewrite key_pressed_clear_keys. by destruct (decide _).
  - intros k0 s0 _ _. unfold sat, add_to_replay_buf, ifte, upd.
    by destruct (_ <? _).
  - intros s0. edges_step.
    rewrite (key_pressed_ext k _ (set_key (clear_keys cfg) s0)) by done.
    rewrite key_pressed_clear_keys. by destruct (decide _).
Qed.

End Tracking.

(** ** The history registers are written by the scan loop only *)

Lemma key_bounce_bounces j s :
  key_bounce j s = default 0%Z (bounces s !! j).
Proof.
  unfold key_bounce, bounces. rewrite list_lookup_fmap.
  by destruct (key s !! j).
Qed.

Lemma bounces_length s : length (bounces s) = length (key s).
Proof. unfold bounces. apply length_map. Qed.

Lemma bounces_alter_pressed b k s :
  bounces (set_key (alter (set_pressed b) k) s) = bounces s.
Proof.
  unfold bounces. st_red. apply list_eq. intros i.
  rewrite !list_lookup_fmap.
  destruct (decide (i = k)) as [->|Hne].
  - rewrite list_lookup_alter_eq. by destruct (key s !! k).
  - by rewrite list_lookup_alter_ne.
Qed.

Lemma bounces_clear_keys cfg s1 s :
  key s1 = clear_keys cfg (key s) -> bounces s1 = bounces s.
Proof.
  unfold bounces. intros ->. apply list_eq. intros i.
  rewrite !list_lookup_fmap, clear_keys_lookup.
  destruct (decide (i < NKEY cfg)); [|done]. by destruct (key s !! i).
Qed.

Section Bounce.

Variable cfg : config.

Lemma bounce_rel_refl s : bounce_rel s [] s.
Proof. done. Qed.

Lemma bounce_rel_trans s1 t1 s2 t2 s3 :
  bounce_rel s1 t1 s2 -> bounce_rel s2 t2 s3 -> bounce_rel s1 (t1 ++ t2) s3.
Proof. unfold bounce_rel. congruence. Qed.

Local Ltac bounce_step :=
  intros; unfold sat, mark, record_start, bounce_rel; cmd_red;
  rewrite ?bounces_alter_pressed; try done;
  try (by eapply bounces_clear_keys).

Lemma key_release_bounce k s :
  key_pressed k s = true -> sat false bounce_rel (key_release cfg k) s.
Proof.
  apply key_release_ok; [apply bounce_rel_refl|apply bounce_rel_trans|..].
  all: try (bounce_step; fail).
  intros k0 s0 _ _. unfold sat, add_to_replay_buf, ifte, upd.
  by destruct (_ <? _).
Qed.

Lemma key_press_bounce fuel k s :
  key_pressed k s = false -> sat false bounce_rel (key_press cfg fuel k) s.
Proof.
  apply key_press_ok; [apply bounce_rel_refl|apply bounce_rel_trans|..].
  all: try (bounce_step; fail).
  intros k0 s0 _ _. unfold sat, add_to_replay_buf, ifte, upd.
  by destruct (_ <? _).
Qed.

End Bounce.

Lemma reachable_run_cycles cfg fuel samples : forall s s' t,
  reachable cfg s -> run_cycles cfg fuel samples s = Ret s' t ->
  reachable cfg s'.
Proof.
  induction samples as [|f rest IH]; intros s s' t Hs E.
  - injection E as <- _. done.
  - simpl in E. unfold seq_cmd in E.
    destruct (scan_cycle cfg fuel f s) as [s1 t1| | |] eqn:E1; try done.
    destruct (run_cycles cfg fuel rest s1) as [s2 t2| | |] eqn:E2; try done.
    injection E as <- _.
    eapply IH; [|exact E2]. by eapply reachable_scan_cycle.
Qed.

Section Runs.

Variable strict : bool.
Variable R : state -> list event -> state -> Prop.
Hypothesis R_refl : forall s, R s [] s.
Hypothesis R_trans : forall s1 t1 s2 t2 s3,
  R s1 t1 s2 -> R s2 t2 s3 -> R s1 (t1 ++ t2) s3.
Variable cfg : config.
Variable fuel : nat.
Hypothesis H_scan_key : forall b k s, sat strict R (scan_key cfg fuel b k) s.

Lemma scan_cycle_sat sample s : sat strict R (scan_cycle cfg fuel sample) s.
Proof.
  unfold scan_cycle. generalize (seq 0 (NKEY cfg)) as ks.
  intros ks. revert s. induction ks as [|k ks IH]; intros s.
  - by apply sat_skip.
  - simpl. apply sat_seq; [done| |]; auto.
Qed.

Lemma run_cycles_sat samples : forall s,
  sat strict R (run_cycles cfg fuel samples) s.
Proof.
  induction samples as [|f rest IH]; intros s.
  - by apply sat_skip.
  - simpl. apply sat_seq; [done|apply scan_cycle_sat|]. auto.
Qed.

End Runs.

(** ** The debounce engine *)

Lemma scan_key_eq cfg fuel b k s :
  let s1 := set_key (alter (set_bounce (or_sample b)) k) s in
  let shift := upd (set_key (alter (set_bounce shl1) k)) in
  scan_key cfg fuel b k s =
  (if press_cond k s1 then key_press cfg fuel k >> shift
   else if release_cond k s1 then key_release cfg k >> shift
   else shift) s1.
Proof.
  intros s1 shift.
  cbv beta iota delta [scan_key seq_cmd upd when ifte skip]. fold s1.
  destruct (press_cond k s1) eqn:Hpc.
  - apply andb_true_iff in Hpc as [Hb Hp].
    apply negb_true_iff in Hp. apply Z.eqb_eq in Hb.
    pose proof (key_press_bounce cfg fuel k s1 Hp) as Hsat.
    destruct (key_press cfg fuel k s1) as [s2 t2|s2 t2| |] eqn:E; try done.
    unfold sat in Hsat. rewrite E in Hsat.
    unfold release_cond. rewrite (key_bounce_bounces k s2), Hsat.
    rewrite <- key_bounce_bounces, Hb. simpl.
    unfold shift, upd. done.
  - destruct (release_cond k s1); [|done].
    by destruct (key_release cfg k s1).
Qed.

Lemma bounce_step_held n :
  7 <= n -> Nat.iter n (bounce_step true) 0%Z = 254%Z.
Proof.
  induction 1 as [|n Hn IH]; [reflexivity|].
  simpl. by rewrite IH.
Qed.

Lemma bounce_step_after r n m :
  n < m -> or_sample true (Nat.iter n (bounce_step true) r) = 127%Z ->
  Nat.iter m (bounce_step true) r = 254%Z.
Proof.
  intros Hlt H. induction Hlt as [|m Hm IH].
  - simpl. unfold bounce_step at 1. by rewrite H.
  - simpl. by rewrite IH.
Qed.

Lemma scan_key_bounce cfg fuel b k s s' t :
  k < length (key s) ->
  scan_key cfg fuel b k s = Ret s' t ->
  key_bounce k s' = bounce_step b (key_bounce k s).
Proof.
  intros Hk. rewrite scan_key_eq.
  set (s1 := set_key (alter (set_bounce (or_sample b)) k) s).
  assert (Hlen : length (key s1) = length (key s))
    by (unfold s1; st_red; apply length_alter).
  assert (H1 : key_bounce k s1 = or_sample b (key_bounce k s)).
  { unfold s1. rewrite key_bounce_set_bounce.
    by destruct (decide _) as [_|[]]. }
  assert (Hfin : forall s2, bounces s2 = bounces s1 ->
            key_bounce k (set_key (alter (set_bounce shl1) k) s2)
            = bounce_step b (key_bounce k s)).
  { intros s2 Hb2. rewrite key_bounce_set_bounce.
    assert (length (key s2) = length (key s1))
      by (by rewrite <- !bounces_length, Hb2).
    destruct (decide _) as [_|[]]; [|split; [done|lia]].
    by rewrite (key_bounce_bounces k s2), Hb2, <- key_bounce_bounces, H1. }
  unfold seq_cmd, upd.
  destruct (press_cond k s1) eqn:Hpc; [|destruct (release_cond k s1) eqn:Hrc].
  - apply andb_true_iff in Hpc as [_ Hp]. apply negb_true_iff in Hp.
    pose proof (key_press_bounce cfg fuel k s1 Hp) as Hb.
    destruct (key_press cfg fuel k s1) as [s2 t2| | |] eqn:E; try done.
    intros [= <- _]. apply Hfin, (sat_Ret _ _ _ _ _ _ Hb E).
  - apply andb_true_iff in Hrc as [_ Hp].
    pose proof (key_release_bounce cfg k s1 Hp) as Hb.
    destruct (key_release cfg k s1) as [s2 t2| | |] eqn:E; try done.
    intros [= <- _]. apply Hfin, (sat_Ret _ _ _ _ _ _ Hb E).
  - intros [= <- _]. by apply Hfin.
Qed.

(** ** Release of a code and the spare slot *)

Lemma first_at_exists q k :
  length q = 7 -> k ∈ take 6 q -> exists i, first_at q k i.
Proof.
  intros H Hk.
  destruct (list_len7 q H) as (a & b & c & d & e & f & g & ->).
  simpl in Hk. unfold first_at.
  destruct (decide (a = k)) as [->|Ha].
  { exists 0. repeat split; [lia|]. intros j Hj. lia. }
  destruct (decide (b = k)) as [->|Hb].
  { exists 1. repeat split; [lia|]. intros [|j] Hj; simpl; [congruence|lia]. }
  destruct (decide (c = k)) as [->|Hc].
  { exists 2. repeat split; [lia|].
    intros [|[|j]] Hj; simpl; [congruence..|lia]. }
  destruct (decide (d = k)) as [->|Hd].
  { exists 3. repeat split; [lia|].
    intros [|[|[|j]]] Hj; simpl; [congruence..|lia]. }
  destruct (decide (e = k)) as [->|He].
  { exists 4. repeat split; [lia|].
    intros [|[|[|[|j]]]] Hj; simpl; [congruence..|lia]. }
  destruct (decide (f = k)) as [->|Hf].
  { exists 5. repeat split; [lia|].
    intros [|[|[|[|[|j]]]]] Hj; simpl; [congruence..|lia]. }
  rewrite !elem_of_cons in Hk. rewrite elem_of_nil in Hk.
  intuition congruence.
Qed.

Lemma remove_code_found_take q k i q6 :
  length q = 7 -> q !! 6 = Some q6 -> first_at q k i ->
  remove_code k q = delete i (take 6 q) ++ [q6; q6].
Proof.
  intros H H6 Hf. rewrite (remove_code_found q k i H Hf).
  destruct Hf as (Hi & _ & _).
  destruct (list_len7 q H) as (a & b & c & d & e & f & g & ->).
  injection H6 as ->.
  do 6 (destruct i as [|i]; [reflexivity|]). lia.
Qed.

Lemma delete_take6_length (q : list Z) i :
  length q = 7 -> i < 6 -> length (delete i (take 6 q)) = 5.
Proof.
  intros H Hi.
  destruct (list_len7 q H) as (a & b & c & d & e & f & g & ->).
  do 6 (destruct i as [|i]; [reflexivity|]). lia.
Qed.

Lemma take6_app5 {A} (l : list A) a b :
  length l = 5 -> take 6 (l ++ [a; b]) = l ++ [a].
Proof.
  intros H. do 5 (destruct l as [|? l]; [discriminate H|]).
  destruct l; [reflexivity|discriminate H].
Qed.

(** C5. [ll_key_release] removes the code from the first slot that
    holds it, moves the later slots up by one and leaves zero in the
    freed last slot of the report (the spare slot being zero, as it is in
    every reachable state); for a code that is in none of the six slots
    it returns with the state unchanged, queue and modifiers included. *)
Theorem release_removes_or_ignores :
  (forall s code i,
     length (queue s) = 7 -> queue s !! 6 = Some 0%Z ->
     first_at (queue s) code i ->
     ll_key_release code s =
     Ret (set_queue (fun q => delete i (take 6 q) ++ [0; 0]%Z) s)
         [EvReport (delete i (take 6 (queue s)) ++ [0%Z]) (mod_keys s)])
  /\ (forall s code,
        length (queue s) = 7 -> code ∉ take 6 (queue s) ->
        ll_key_release code s =
        Ret s [EvReport (take 6 (queue s)) (mod_keys s)])
  /\ (forall cfg s, reachable cfg s ->
        length (queue s) = 7 /\ queue s !! 6 = Some 0%Z).
Proof.
  split; [|split].
  - intros s code i Hlen H6 Hf. rewrite ll_key_release_eq.
    unfold set_queue.
    rewrite (remove_code_found_take _ _ _ _ Hlen H6 Hf).
    rewrite take6_app5; [done|].
    apply (delete_take6_length _ _ Hlen). by destruct Hf.
  - intros s code Hlen Hk. rewrite ll_key_release_eq.
    rewrite (remove_code_absent _ _ Hlen Hk).
    by rewrite set_queue_same by (by apply remove_code_absent).
  - intros cfg s Hs. by destruct (reachable_safe cfg s Hs).
Qed.

Lemma release_removes_or_ignores_witness :
  ll_key_release 5 (set_queue (fun _ => [4; 5; 6; 0; 0; 0; 0]%Z) (init_state demo)) =
  Ret (set_queue (fun _ => [4; 6; 0; 0; 0; 0; 0]%Z) (init_state demo))
      [EvReport [4; 6; 0; 0; 0; 0]%Z 0]
  /\ ll_key_release 9 (set_queue (fun _ => [4; 5; 6; 0; 0; 0; 0]%Z) (init_state demo)) =
     Ret (set_queue (fun _ => [4; 5; 6; 0; 0; 0; 0]%Z) (init_state demo))
         [EvReport [4; 5; 6; 0; 0; 0]%Z 0].
Proof.
  split.
  - apply (proj1 release_removes_or_ignores
             (set_queue (fun _ => [4; 5; 6; 0; 0; 0; 0]%Z) (init_state demo)) 5%Z 1).
    + reflexivity.
    + reflexivity.
    + split; [lia|]. split; [reflexivity|].
      intros [|j] Hj; [discriminate|lia].
  - apply (proj1 (proj2 release_removes_or_ignores)
             (set_queue (fun _ => [4; 5; 6; 0; 0; 0; 0]%Z) (init_state demo)) 9%Z).
    + reflexivity.
    + cbn. rewrite !not_elem_of_cons. rewrite elem_of_nil.
      repeat split; try discriminate. tauto.
Defined.

(** C10. The seventh slot [queue[6]] is zero after [init] and stays
    zero through [ll_key_press], [ll_key_release] and [clear_pressed],
    hence in every reachable state; removing a code therefore leaves zero
    in the last slot of the six-slot report. *)
Theorem spare_slot_stays_zero :
  (forall cfg, queue (init_state cfg) !! 6 = Some 0%Z)
  /\ (forall s code, queue s !! 6 = Some 0%Z ->
        exists s' t, ll_key_press code s = Ret s' t /\ queue s' !! 6 = Some 0%Z)
  /\ (forall s code, queue s !! 6 = Some 0%Z ->
        exists s' t, ll_key_release code s = Ret s' t /\ queue s' !! 6 = Some 0%Z)
  /\ (forall cfg s, queue s !! 6 = Some 0%Z ->
        exists s' t, clear_pressed cfg s = Ret s' t /\ queue s' !! 6 = Some 0%Z)
  /\ (forall cfg s, reachable cfg s -> queue s !! 6 = Some 0%Z)
  /\ (forall s code, length (queue s) = 7 -> queue s !! 6 = Some 0%Z ->
        code ∈ take 6 (queue s) ->
        exists s' t, ll_key_release code s = Ret s' t /\ queue s' !! 5 = Some 0%Z).
Proof.
  repeat apply conj.
  - intros cfg. reflexivity.
  - intros s code H. eexists _, _. split; [apply ll_key_press_eq|].
    st_red. by rewrite push_front_lookup_6.
  - intros s code H. eexists _, _. split; [apply ll_key_release_eq|].
    st_red. by rewrite remove_code_lookup_6.
  - intros cfg s H. eexists _, _. split; [reflexivity|].
    st_red. by eapply clear_queue_lookup_6.
  - intros cfg s Hs. by destruct (reachable_safe cfg s Hs).
  - intros s code Hlen H6 Hin.
    destruct (first_at_exists _ _ Hlen Hin) as [i Hf].
    eexists _, _. split; [apply ll_key_release_eq|]. st_red.
    rewrite (remove_code_found_take _ _ _ _ Hlen H6 Hf).
    rewrite lookup_app_r; rewrite (delete_take6_length _ _ Hlen);
      [done|by destruct Hf|lia|by destruct Hf].
Qed.

Lemma spare_slot_stays_zero_witness :
  exists s' t,
    ll_key_release 5 (set_queue (fun _ => [4; 5; 6; 7; 8; 9; 0]%Z) (init_state demo))
    = Ret s' t /\ queue s' !! 5 = Some 0%Z.
Proof.
  apply (proj2 (proj2 (proj2 (proj2 (proj2 spare_slot_stays_zero))))).
  - reflexivity.
  - reflexivity.
  - cbn. rewrite !elem_of_cons. auto.
Defined.

(** ** The queue invariant *)

Lemma sublist_filter_mono {A} (P : A -> Prop) `{!forall x, Decision (P x)}
    (l1 l2 : list A) :
  l1 `sublist_of` l2 -> filter P l1 `sublist_of` filter P l2.
Proof.
  induction 1 as [|x l1 l2 _ IH|x l1 l2 _ IH].
  - constructor.
  - rewrite !filter_cons. destruct (decide (P x)); [by constructor|done].
  - rewrite filter_cons. destruct (decide (P x)); [by constructor|done].
Qed.

Lemma held_codes_length q : length (held_codes q) <= 6.
Proof.
  unfold held_codes. etrans; [apply length_filter|].
  rewrite length_take. lia.
Qed.

Lemma held_codes_press code q :
  length q = 7 ->
  held_codes (push_front code q) =
  filter (fun c => c <> 0%Z) [code] ++ filter (fun c => c <> 0%Z) (take 5 q).
Proof.
  intros H. unfold held_codes. rewrite (push_front_take_drop _ _ H).
  rewrite <- filter_app. f_equal.
  destruct (list_len7 q H) as (a & b & c & d & e & f & g & ->). done.
Qed.

Lemma held_codes_take5 q :
  filter (fun c => c <> 0%Z) (take 5 q) `sublist_of` held_codes q.
Proof.
  unfold held_codes. apply sublist_filter_mono.
  replace (take 5 q) with (take 5 (take 6 q)) by (rewrite take_take; f_equal).
  apply sublist_take.
Qed.

Lemma held_codes_release code q i :
  length q = 7 -> q !! 6 = Some 0%Z -> first_at q code i ->
  held_codes (remove_code code q) =
  filter (fun c => c <> 0%Z) (delete i (take 6 q)).
Proof.
  intros H H6 Hf. unfold held_codes.
  rewrite (remove_code_found_take _ _ _ _ H H6 Hf).
  rewrite take6_app5 by (apply (delete_take6_length _ _ H); by destruct Hf).
  rewrite filter_app. simpl. rewrite filter_cons_False by tauto.
  by rewrite filter_nil, app_nil_r.
Qed.

Lemma NoDup_filter_delete (P : Z -> Prop) `{!forall x, Decision (P x)}
    (l : list Z) i x :
  NoDup (filter P l) -> l !! i = Some x -> P x -> x ∉ filter P (delete i l).
Proof.
  intros Hnd Hi HP.
  rewrite <- (take_drop_middle l i x Hi) in Hnd.
  rewrite filter_app, filter_cons_True in Hnd by done.
  apply NoDup_app in Hnd as (_ & H1 & H2).
  apply NoDup_cons in H2 as [H2 _].
  rewrite delete_take_drop, filter_app, elem_of_app.
  intros [Hx|Hx]; [|done]. apply (H1 x Hx). by left.
Qed.

(** C7, as stated, fails: pressing a code that the queue already holds
    puts it there twice. Such a press is reachable: A is held, the magic
    key is tapped, A is released while magic mode swallows the edge, the
    magic key is tapped again, A is pressed. *)
Lemma press_of_held_code_duplicates :
  (let s := set_queue (fun _ => [4; 0; 0; 0; 0; 0; 0]%Z) (init_state demo) in
   queue_inv (queue s)
   /\ exists s' t, ll_key_press 4 s = Ret s' t /\ ~ queue_inv (queue s'))
  /\ match run_cycles demo 2 press_after_swallowed_release (init_state demo) with
     | Ret s _ => queue s = [4; 4; 0; 0; 0; 0; 0]%Z /\ ~ queue_inv (queue s)
     | _ => False
     end.
Proof.
  assert (Hdup : ~ queue_inv [4; 4; 0; 0; 0; 0; 0]%Z).
  { intros [_ Hnd]. vm_compute in Hnd. apply NoDup_cons in Hnd as [Hin _].
    apply Hin. by left. }
  split.
  - split.
    + split; [apply held_codes_length|]. vm_compute. apply NoDup_singleton.
    + eexists _, _. split; [apply ll_key_press_eq|]. exact Hdup.
  - vm_compute run_cycles. split; [reflexivity|exact Hdup].
Qed.

(** C7 (amended). From a state whose six report slots hold no code
    twice (and whose spare slot is zero), [ll_key_release] keeps that
    invariant and leaves the released code in no slot, and
    [ll_key_press] keeps it whenever the pressed code is not already
    held; the pressed code goes to the front. At most six codes are held
    in any case. [ll_key_press] itself never looks for the code. *)
Theorem queue_invariant_preserved (s : state) (code : Z) :
  length (queue s) = 7 -> queue s !! 6 = Some 0%Z -> queue_inv (queue s) ->
  (code ∉ held_codes (queue s) ->
   exists s' t, ll_key_press code s = Ret s' t
                /\ queue_inv (queue s') /\ queue s' !! 0 = Some code)
  /\ (exists s' t, ll_key_release code s = Ret s' t
                   /\ queue_inv (queue s') /\ code ∉ held_codes (queue s')).
Proof.
  intros Hlen H6 [_ Hnd]. split.
  - intros Hnew. eexists _, _. split; [apply ll_key_press_eq|]. st_red.
    split; [split; [apply held_codes_length|]|].
    + rewrite (held_codes_press _ _ Hlen).
      pose proof (held_codes_take5 (queue s)) as Hsub.
      pose proof (sublist_NoDup _ _ Hnd Hsub) as Hnd5.
      rewrite filter_cons. destruct (decide (code <> 0%Z)); [|done].
      rewrite filter_nil. simpl. apply NoDup_cons. split; [|done].
      intros Hin. apply Hnew. by eapply elem_of_sublist.
    + rewrite (push_front_take_drop _ _ Hlen). done.
  - eexists _, _. split; [apply ll_key_release_eq|]. st_red.
    destruct (decide (code ∈ take 6 (queue s))) as [Hin|Hout].
    + destruct (first_at_exists _ _ Hlen Hin) as [i Hf].
      unfold queue_inv. rewrite (held_codes_release _ _ _ Hlen H6 Hf).
      split; [split|].
      * pose proof (length_filter (fun c => c <> 0%Z)
                      (delete i (take 6 (queue s)))) as Hle.
        rewrite (delete_take6_length _ _ Hlen) in Hle; [lia|by destruct Hf].
      * eapply sublist_NoDup; [exact Hnd|].
        apply sublist_filter_mono, sublist_delete.
      * destruct (decide (code = 0%Z)) as [->|Hnz].
        { intros H. by apply list_elem_of_filter in H as [H _]. }
        apply NoDup_filter_delete; [done| |done].
        destruct Hf as (Hi & Hk & _). by rewrite lookup_take_lt.
    + rewrite (remove_code_absent _ _ Hlen Hout).
      split; [split; [apply held_codes_length|done]|].
      intros H. apply list_elem_of_filter in H as [_ H]. done.
Qed.

Lemma queue_invariant_preserved_witness :
  (exists s' t,
     ll_key_press 5 (set_queue (fun _ => [4; 0; 0; 0; 0; 0; 0]%Z) (init_state demo))
     = Ret s' t /\ queue_inv (queue s') /\ queue s' !! 0 = Some 5%Z)
  /\ (exists s' t,
        ll_key_release 5 (set_queue (fun _ => [4; 0; 0; 0; 0; 0; 0]%Z) (init_state demo))
        = Ret s' t /\ queue_inv (queue s') /\ 5%Z ∉ held_codes (queue s')).
Proof.
  assert (H : queue_inv [4; 0; 0; 0; 0; 0; 0]%Z).
  { split; [apply held_codes_length|]. vm_compute. apply NoDup_singleton. }
  destruct (queue_invariant_preserved
              (set_queue (fun _ => [4; 0; 0; 0; 0; 0; 0]%Z) (init_state demo))
              5%Z eq_refl eq_refl H) as [H1 H2].
  split; [|exact H2].
  apply H1. intros Hin. apply list_elem_of_filter in Hin as [_ Hin].
  cbn in Hin. rewrite !elem_of_cons, elem_of_nil in Hin.
  intuition discriminate.
Defined.

(** ** The macro buffer *)

Lemma add_to_replay_buf_room s k :
  replay_buf_len s < 254 ->
  add_to_replay_buf k s =
  Ret (set_replay_buf_len (S (replay_buf_len s))
         (set_replay_buf (<[replay_buf_len s := k]>) s)) [].
Proof.
  intros H. unfold add_to_replay_buf, ifte, upd.
  rewrite (proj2 (Nat.ltb_lt _ _)) by lia.
  rewrite Nat.mod_small by lia. by rewrite Nat.add_1_r.
Qed.

Lemma add_to_replay_buf_full s k :
  254 <= replay_buf_len s ->
  add_to_replay_buf k s = Ret (set_recording_mode false s) [].
Proof.
  intros H. unfold add_to_replay_buf, ifte, upd.
  by rewrite (proj2 (Nat.ltb_ge _ _)) by lia.
Qed.

Lemma record_all_spec ks : forall s,
  replay_buf_len s + length ks <= 254 -> length (replay_buf s) = 255 ->
  exists s1,
    record_all ks s = Ret s1 []
    /\ replay_buf_len s1 = replay_buf_len s + length ks
    /\ take (replay_buf_len s1) (replay_buf s1)
       = take (replay_buf_len s) (replay_buf s) ++ ks
    /\ length (replay_buf s1) = 255
    /\ recording_mode s1 = recording_mode s.
Proof.
  induction ks as [|k ks IH]; intros s Hlen Hbuf.
  - exists s. simpl. rewrite Nat.add_0_r, app_nil_r. done.
  - simpl in Hlen. simpl. unfold seq_cmd.
    rewrite add_to_replay_buf_room by lia.
    set (s' := set_replay_buf_len _ _).
    destruct (IH s') as (s1 & -> & Hl & Ht & Hb & Hr).
    { unfold s'. st_red. lia. }
    { unfold s'. st_red. by rewrite length_insert. }
    exists s1. split; [done|]. unfold s' in *. st_red_in Hl. st_red_in Ht.
    st_red_in Hr. repeat split; [lia| |done..].
    rewrite Ht.
    rewrite (take_S_r _ _ k) by (apply list_lookup_insert_eq; lia).
    rewrite take_insert_ge by lia. by rewrite <- app_assoc.
Qed.

(** C3, as stated, fails: with 254 entries the buffer holds fewer than
    255, yet the index is not appended and recording mode is left. *)
Lemma record_stops_at_254 :
  let s := set_recording_mode true (set_replay_buf_len 254 (init_state demo)) in
  replay_buf_len s < 255
  /\ add_to_replay_buf 1 s = Ret (set_recording_mode false s) [].
Proof. split; [cbn; lia|reflexivity]. Qed.

(** C3 (amended). [add_to_replay_buf] appends the index whenever the
    buffer holds fewer than 254 entries (its test is
    [replay_buf_len + 1 < 255]); with 254 entries it leaves recording mode
    and does not touch the buffer. The length never exceeds 254, and it is
    the 255th recorded key that forces the exit, the 254 entries staying as
    recorded. *)
Theorem record_appends_below_254 :
  (forall s k, replay_buf_len s < 254 ->
     add_to_replay_buf k s =
     Ret (set_replay_buf_len (S (replay_buf_len s))
            (set_replay_buf (<[replay_buf_len s := k]>) s)) [])
  /\ (forall s k, 254 <= replay_buf_len s ->
        add_to_replay_buf k s = Ret (set_recording_mode false s) [])
  /\ (forall cfg s, reachable cfg s -> replay_buf_len s <= 254)
  /\ (forall s ks k,
        replay_buf_len s = 0 -> length (replay_buf s) = 255 ->
        length ks = 254 ->
        exists s1,
          record_all ks s = Ret s1 []
          /\ replay_buf_len s1 = 254
          /\ take 254 (replay_buf s1) = ks
          /\ recording_mode s1 = recording_mode s
          /\ add_to_replay_buf k s1 = Ret (set_recording_mode false s1) []).
Proof.
  repeat apply conj.
  - apply add_to_replay_buf_room.
  - apply add_to_replay_buf_full.
  - intros cfg s Hs. by destruct (reachable_safe cfg s Hs).
  - intros s ks k H0 Hbuf Hks.
    destruct (record_all_spec ks s) as (s1 & Hrun & Hl & Ht & _ & Hr);
      [lia|done|].
    rewrite H0, Hks in Hl. simpl in Hl. rewrite Hl, H0 in Ht. simpl in Ht.
    exists s1. repeat split; try done.
    apply add_to_replay_buf_full. lia.
Qed.

Lemma record_appends_below_254_witness :
  add_to_replay_buf 3 (set_replay_buf_len 253 (init_state demo)) =
  Ret (set_replay_buf_len 254
         (set_replay_buf (<[253 := 3]>) (set_replay_buf_len 253 (init_state demo)))) []
  /\ add_to_replay_buf 3 (set_replay_buf_len 254 (init_state demo)) =
     Ret (set_recording_mode false (set_replay_buf_len 254 (init_state demo))) [].
Proof.
  split.
  - apply (proj1 record_appends_below_254
             (set_replay_buf_len 253 (init_state demo)) 3). cbn. lia.
  - apply (proj1 (proj2 record_appends_below_254)
             (set_replay_buf_len 254 (init_state demo)) 3). cbn. lia.
Defined.

(** ** Magic mode and recording mode *)

Lemma clear_keys_map cfg (ks : list key_t) :
  length ks = NKEY cfg -> clear_keys cfg ks = map (set_pressed false) ks.
Proof. unfold clear_keys. intros <-. apply foldl_alter_seq. Qed.

Lemma map_unpress_alter b k (ks : list key_t) :
  map (set_pressed false) (alter (set_pressed b) k ks)
  = map (set_pressed false) ks.
Proof.
  apply list_eq. intros i. rewrite !list_lookup_fmap.
  destruct (decide (i = k)) as [->|Hne].
  - rewrite list_lookup_alter_eq. by destruct (ks !! k).
  - by rewrite list_lookup_alter_ne.
Qed.

Lemma clear_queue_replicate (q : list Z) :
  length q = 7 -> clear_queue q = replicate 7 0%Z.
Proof.
  intros H. destruct (list_len7 q H) as (a & b & c & d & e & f & g & ->).
  reflexivity.
Qed.

Lemma clear_pressed_eq cfg s :
  length (key s) = NKEY cfg -> length (queue s) = 7 ->
  clear_pressed cfg s =
  Ret (cleared s) [EvClearPressed; EvReport (replicate 6 0%Z) 0].
Proof.
  intros Hk Hq. cmd_red. st_norm. unfold cleared.
  by rewrite (clear_keys_map _ _ Hk), (clear_queue_replicate _ Hq).
Qed.

(** C9, as stated, fails: the transition does more than the four
    listed effects. [clear_pressed] also resets the pressed flag of every
    key, here of key A, which is held when the record key is released. *)
Lemma record_start_also_clears_pressed_flags :
  let s := set_magic_mode true
             (set_key (alter (set_pressed true) 1) (init_state demo)) in
  key_pressed 1 s = true
  /\ exists s' t,
       key_release demo 3 s = Ret s' t
       /\ key_pressed 1 s' = false
       /\ s' <> State (alter (set_pressed false) 3 (key s)) (replay_buf s) 0
                      (replicate 7 0%Z) 0 false true.
Proof.
  split; [reflexivity|].
  eexists _, _. split; [vm_compute; reflexivity|].
  split; [reflexivity|]. vm_compute. discriminate.
Qed.

(** C9 (amended). In magic mode the release of the record key (the key
    whose code is [KEY_Q]) starts a recording: the buffer length is reset
    to 0, recording mode is set, magic mode is left, and [clear_pressed]
    resets the pressed flag of every key, zeroes the queue and the
    modifier byte and transmits the empty report. The press of that key
    in magic mode only sets its pressed flag, and the buffer is empty
    once recording has started: the triggering keystroke is not
    recorded. *)
Theorem record_starts_on_release (cfg : config) (k : nat) (s : state) :
  in_range cfg k s = true ->
  length (key s) = NKEY cfg -> length (queue s) = 7 ->
  magic_mode s = true ->
  value (layout_at cfg k) = KEY_Q cfg ->
  key_release cfg k s =
    Ret (State (map (set_pressed false) (key s)) (replay_buf s) 0
               (replicate 7 0%Z) 0 false true)
        [EvKeyRelease k; EvClearPressed; EvReport (replicate 6 0%Z) 0]
  /\ (is_magic_key cfg k = false ->
      KEY_Q cfg <> KEY_X cfg -> KEY_Q cfg <> KEY_R cfg ->
      KEY_Q cfg <> KEY_B cfg ->
      forall fuel,
        key_press cfg (S fuel) k s =
        Ret (set_key (alter (set_pressed true) k) s) [EvKeyPress k]).
Proof.
  intros Hr Hk Hq Hm Hv. split.
  - unfold key_release, guard. rewrite Hr. cmd_red. st_red.
    rewrite Hm, Hv, Z.eqb_refl. st_norm.
    rewrite clear_keys_map by (by rewrite length_alter).
    by rewrite map_unpress_alter, (clear_queue_replicate _ Hq).
  - intros Hmk HX HR HB fuel. cbn [key_press]. unfold guard. rewrite Hr.
    cmd_red. st_red. rewrite Hm, Hmk, Hv.
    by rewrite !(proj2 (Z.eqb_neq _ _)) by done.
Qed.

Lemma record_starts_on_release_witness :
  let s := set_magic_mode true (set_replay_buf_len 7 (init_state demo)) in
  key_release demo 3 s =
    Ret (State (map (set_pressed false) (key s)) (replay_buf s) 0
               (replicate 7 0%Z) 0 false true)
        [EvKeyRelease 3; EvClearPressed; EvReport (replicate 6 0%Z) 0]
  /\ key_press demo 1 3 s =
     Ret (set_key (alter (set_pressed true) 3) s) [EvKeyPress 3].
Proof.
  intros s.
  destruct (record_starts_on_release demo 3 s) as [H1 H2];
    [reflexivity..|].
  split; [exact H1|]. apply H2; [reflexivity|discriminate..].
Defined.

(** C6, as stated, fails: in magic mode the press of the self-test key
    reaches the report queue. Reports carrying the code of that very key
    are transmitted, and the oldest held code is evicted for good. *)
Lemma self_test_key_reaches_queue :
  match run_cycles demo 2 six_keys_then_magic (init_state demo) with
  | Ret s _ =>
      magic_mode s = true
      /\ queue s = [9; 8; 7; 6; 5; 4; 0]%Z
      /\ match key_press demo 1 5 s with
         | Ret s' t =>
             t = [EvKeyPress 5;
                  EvReport [27; 9; 8; 7; 6; 5]%Z 0;
                  EvReport [9; 8; 7; 6; 5; 0]%Z 0;
                  EvReport [27; 9; 8; 7; 6; 5]%Z 0;
                  EvReport [9; 8; 7; 6; 5; 0]%Z 0]
             /\ queue s' = [9; 8; 7; 6; 5; 0; 0]%Z
             /\ queue s' <> queue s
         | _ => False
         end
  | _ => False
  end.
Proof. vm_compute. repeat split; discriminate. Qed.

(** C6 (amended). In magic mode [key_press] and [key_release] hand
    every edge to the overlay ([magic_key_press], [magic_key_release]) and
    never to the normal dispatch. The queue and the modifier byte are left
    as they are and nothing is transmitted, unless the edge is one of the
    overlay's own commands: the press of the self-test key (which pushes
    and removes [KEY_X] itself, twice), the press of the replay key, or the
    release of the record key (which clears the queue). *)
Theorem magic_mode_absorbs_edges (cfg : config) (k : nat) (s : state) :
  in_range cfg k s = true -> magic_mode s = true ->
  (forall fuel,
     key_press cfg (S fuel) k s =
     (emit (fun _ => EvKeyPress k) >>
      upd (set_key (alter (set_pressed true) k)) >>
      magic_key_press cfg
        (replay_keypresses cfg (key_press cfg fuel) (key_release cfg)) k) s)
  /\ key_release cfg k s =
     (emit (fun _ => EvKeyRelease k) >>
      upd (set_key (alter (set_pressed false) k)) >>
      magic_key_release cfg k) s
  /\ (value (layout_at cfg k) <> KEY_X cfg ->
      value (layout_at cfg k) <> KEY_R cfg ->
      forall fuel, exists s',
        (key_press cfg (S fuel) k s = Ret s' [EvKeyPress k]
         \/ key_press cfg (S fuel) k s = Halt s' [EvKeyPress k; EvBootloader])
        /\ queue s' = queue s /\ mod_keys s' = mod_keys s)
  /\ (value (layout_at cfg k) <> KEY_Q cfg ->
      exists s',
        key_release cfg k s = Ret s' [EvKeyRelease k]
        /\ queue s' = queue s /\ mod_keys s' = mod_keys s).
Proof.
  intros Hr Hm. repeat apply conj.
  - intros fuel. cbn [key_press]. unfold guard. rewrite Hr.
    unfold seq_cmd at 1 3, emit at 1 2.
    unfold seq_cmd at 1 3, upd at 1 2, ifte at 1. st_red. by rewrite Hm.
  - unfold key_release, guard. rewrite Hr.
    unfold seq_cmd at 1 3, emit at 1 2.
    unfold seq_cmd at 1 3, upd at 1 2, ifte at 1. st_red. by rewrite Hm.
  - intros HX HR fuel. cbn [key_press]. unfold guard. rewrite Hr.
    cmd_red. st_red. rewrite Hm.
    rewrite !(proj2 (Z.eqb_neq _ _)) by done.
    destruct (is_magic_key cfg k);
      destruct (value (layout_at cfg k) =? KEY_B cfg)%Z;
      eexists; (split; [by (left + right)|done]).
  - intros HQ. unfold key_release, guard. rewrite Hr.
    cmd_red. st_red. rewrite Hm.
    rewrite !(proj2 (Z.eqb_neq _ _)) by done.
    eexists. split; [done|done].
Qed.

Lemma magic_mode_absorbs_edges_witness :
  let s := set_queue (fun _ => [4; 0; 0; 0; 0; 0; 0]%Z)
             (set_magic_mode true (init_state demo)) in
  (exists s',
     (key_press demo 1 7 s = Ret s' [EvKeyPress 7]
      \/ key_press demo 1 7 s = Halt s' [EvKeyPress 7; EvBootloader])
     /\ queue s' = queue s /\ mod_keys s' = mod_keys s)
  /\ (exists s',
        key_release demo 1 s = Ret s' [EvKeyRelease 1]
        /\ queue s' = queue s /\ mod_keys s' = mod_keys s).
Proof.
  intros s.
  destruct (magic_mode_absorbs_edges demo 7 s eq_refl eq_refl)
    as (_ & _ & Hp & _).
  destruct (magic_mode_absorbs_edges demo 1 s eq_refl eq_refl)
    as (_ & _ & _ & Hrel).
  split.
  - apply Hp; discriminate.
  - apply Hrel; discriminate.
Defined.

(** C8. [magic_mode] and [recording_mode] are never both set in a
    reachable state. A call of [key_release] that sets [recording_mode]
    starts in magic mode and leaves it; a call of [key_press] that sets
    [magic_mode] starts and ends with [recording_mode] clear;
    [key_release] never sets [magic_mode]. *)
Theorem modes_never_both_set (cfg : config) :
  (forall s, reachable cfg s ->
     ~ (magic_mode s = true /\ recording_mode s = true))
  /\ (forall k s s' t,
        key_release cfg k s = Ret s' t ->
        recording_mode s = false -> recording_mode s' = true ->
        magic_mode s = true /\ magic_mode s' = false)
  /\ (forall fuel k s s' t,
        key_press cfg fuel k s = Ret s' t ->
        magic_mode s = false -> magic_mode s' = true ->
        recording_mode s = false /\ recording_mode s' = false)
  /\ (forall k s s' t,
        key_release cfg k s = Ret s' t ->
        magic_mode s' = true -> magic_mode s = true).
Proof.
  repeat apply conj.
  - intros s Hs [Hm Hrec].
    destruct (reachable_safe cfg s Hs) as [_ _ _ _ Hex _].
    rewrite (Hex Hm) in Hrec. discriminate.
  - intros k s s' t E Hrec Hrec'. revert E.
    unfold key_release, guard. cmd_red. st_red. rewrite Hrec.
    repeat match goal with
           | |- context [if ?b then _ else _] => destruct b eqn:?
           end; intros [= <- _]; st_red_in Hrec'; try done; congruence.
  - intros fuel k s s' t E Hm Hm'. revert E.
    destruct fuel as [|fuel]; [done|].
    cbn [key_press]. unfold guard. cmd_red. st_red. rewrite Hm.
    repeat match goal with
           | |- context [if ?b then _ else _] => destruct b eqn:?
           end; intros [= <- _]; st_red_in Hm'; st_red; try done; congruence.
  - intros k s s' t E Hm'. revert E.
    unfold key_release, guard. cmd_red. st_red.
    repeat match goal with
           | |- context [if ?b then _ else _] => destruct b eqn:?
           end; intros [= <- _]; st_red_in Hm'; try done; congruence.
Qed.

Lemma modes_never_both_set_witness :
  exists s' t,
    run_cycles demo 2 replay_key_twice (init_state demo) = Ret s' t
    /\ ~ (magic_mode s' = true /\ recording_mode s' = true).
Proof.
  eexists _, _. split; [vm_compute; reflexivity|].
  apply (proj1 (modes_never_both_set demo)).
  eapply (reachable_run_cycles demo 2 replay_key_twice (init_state demo)).
  - apply reach_init.
  - vm_compute. reflexivity.
Defined.

(** ** Recording and replay *)

Lemma in_range_ext cfg k s1 s2 :
  length (key s1) = length (key s2) -> in_range cfg k s1 = in_range cfg k s2.
Proof. unfold in_range. by intros ->. Qed.

(** An edge of a key other than the magic key, outside magic mode: the
    pressed flag is written, the index is recorded when recording is on,
    and one report is sent. *)
Lemma key_press_normal cfg fuel k s :
  in_range cfg k s = true -> magic_mode s = false ->
  is_magic_key cfg k = false ->
  exists s' r,
    key_press cfg (S fuel) k s = Ret s' [EvKeyPress k; r]
    /\ is_report r = true
    /\ key s' = alter (set_pressed true) k (key s)
    /\ magic_mode s' = false
    /\ length (queue s') = length (queue s)
    /\ (recording_mode s = false ->
        recording_mode s' = false /\ replay_buf s' = replay_buf s
        /\ replay_buf_len s' = replay_buf_len s)
    /\ (recording_mode s = true -> replay_buf_len s < 254 ->
        recording_mode s' = true
        /\ replay_buf s' = <[replay_buf_len s := k]> (replay_buf s)
        /\ replay_buf_len s' = S (replay_buf_len s)).
Proof.
  intros Hr Hm Hmk. cbn [key_press]. unfold guard. rewrite Hr.
  cmd_red. st_red. rewrite Hm, Hmk.
  destruct (recording_mode s) eqn:Hrec;
    [destruct (replay_buf_len s + 1 <? 255) eqn:Hlt|];
    destruct (IS_MODIFIER cfg (layout_at cfg k));
    eexists _, _; (split; [reflexivity|]); st_red;
    rewrite ?push_front_length;
    repeat split; try done; try (apply Nat.ltb_ge in Hlt; lia);
    intros; rewrite Nat.mod_small; lia.
Qed.

Lemma key_release_normal cfg k s :
  in_range cfg k s = true -> magic_mode s = false ->
  exists s' r,
    key_release cfg k s = Ret s' [EvKeyRelease k; r]
    /\ is_report r = true
    /\ key s' = alter (set_pressed false) k (key s)
    /\ magic_mode s' = false
    /\ length (queue s') = length (queue s)
    /\ (recording_mode s = false ->
        recording_mode s' = false /\ replay_buf s' = replay_buf s
        /\ replay_buf_len s' = replay_buf_len s)
    /\ (recording_mode s = true -> replay_buf_len s < 254 ->
        recording_mode s' = true
        /\ replay_buf s' = <[replay_buf_len s := k]> (replay_buf s)
        /\ replay_buf_len s' = S (replay_buf_len s)).
Proof.
  intros Hr Hm. unfold key_release, guard. rewrite Hr.
  cmd_red. st_red. rewrite Hm.
  destruct (recording_mode s) eqn:Hrec;
    [destruct (replay_buf_len s + 1 <? 255) eqn:Hlt|];
    destruct (IS_MODIFIER cfg (layout_at cfg k));
    eexists _, _; (split; [reflexivity|]); st_red;
    rewrite ?remove_code_length;
    repeat split; try done; try (apply Nat.ltb_ge in Hlt; lia);
    intros; rewrite Nat.mod_small; lia.
Qed.

Lemma seq_cmd_Ret c1 c2 s s1 t1 :
  c1 s = Ret s1 t1 ->
  (c1 >> c2) s =
  match c2 s1 with
  | Ret s2 t2 => Ret s2 (t1 ++ t2)
  | Halt s2 t2 => Halt s2 (t1 ++ t2)
  | o => o
  end.
Proof. unfold seq_cmd. by intros ->. Qed.

Lemma replay_loop_step kp kr n i s :
  i < replay_buf_len s ->
  replay_loop kp kr (S n) i s =
  ((if key_pressed (replay_buf s !!! i) s then kr (replay_buf s !!! i)
    else kp (replay_buf s !!! i)) >> replay_loop kp kr n (S i)) s.
Proof.
  intros H. cbn [replay_loop]. by rewrite (proj2 (Nat.ltb_lt _ _) H).
Qed.

Lemma replay_loop_done kp kr n i s :
  replay_buf_len s <= i -> replay_loop kp kr n i s = Ret s [].
Proof.
  intros H. destruct n; [done|].
  cbn [replay_loop]. by rewrite (proj2 (Nat.ltb_ge _ _) H).
Qed.

Lemma key_pressed_cleared j s : key_pressed j (cleared s) = false.
Proof.
  unfold key_pressed, cleared. st_red. rewrite list_lookup_fmap.
  by destruct (key s !! j).
Qed.

Lemma key_pressed_alter j k b (s s' : state) :
  key s' = alter (set_pressed b) k (key s) ->
  key_pressed j s' =
  if decide (j = k /\ k < length (key s)) then b else key_pressed j s.
Proof.
  intros H. rewrite <- key_pressed_set_pressed.
  apply key_pressed_ext. by rewrite H.
Qed.

(** C4. [replay_keypresses] first runs [clear_pressed] (queue,
    modifier byte and every pressed flag are zeroed), then walks the
    buffer from the front, calling [key_press] for an index whose key is
    not pressed and [key_release] otherwise. Hence the edges press A,
    release A, press B recorded in a fresh recording are replayed as
    [key_press(A)], [key_release(A)], [key_press(B)], in that order, on
    the cleared state. *)
Theorem record_then_replay (cfg : config) :
  (forall kp kr s,
     length (key s) = NKEY cfg -> length (queue s) = 7 ->
     replay_keypresses cfg kp kr s =
       (upd cleared >>
        emit (fun _ => EvClearPressed) >>
        emit (fun _ => EvReport (replicate 6 0%Z) 0) >>
        replay_loop kp kr 255 0) s
     /\ queue (cleared s) = replicate 7 0%Z
     /\ mod_keys (cleared s) = 0%Z
     /\ forall j, key_pressed j (cleared s) = false)
  /\ (forall kp kr n i s,
        replay_loop kp kr (S n) i s =
        if i <? replay_buf_len s then
          ((if key_pressed (replay_buf s !!! i) s
            then kr (replay_buf s !!! i) else kp (replay_buf s !!! i)) >>
           replay_loop kp kr n (S i)) s
        else Ret s [])
  /\ (forall a b s,
        in_range cfg a s = true -> in_range cfg b s = true ->
        is_magic_key cfg a = false -> is_magic_key cfg b = false ->
        length (key s) = NKEY cfg -> length (replay_buf s) = 255 ->
        magic_mode s = false -> recording_mode s = true ->
        replay_buf_len s = 0 ->
        exists s1 t1,
          (key_press cfg 1 a >> key_release cfg a >> key_press cfg 1 b) s
            = Ret s1 t1
          /\ replay_buf_len s1 = 3
          /\ take 3 (replay_buf s1) = [a; a; b]
          /\ forall fuel s2,
               replay_buf_len s2 = 3 ->
               take 3 (replay_buf s2) = [a; a; b] ->
               length (key s2) = NKEY cfg -> length (queue s2) = 7 ->
               magic_mode s2 = false -> recording_mode s2 = false ->
               exists s3 r1 r2 r3,
                 replay_keypresses cfg (key_press cfg (S fuel))
                   (key_release cfg) s2
                 = Ret s3 [EvClearPressed; EvReport (replicate 6 0%Z) 0;
                           EvKeyPress a; r1; EvKeyRelease a; r2;
                           EvKeyPress b; r3]
                 /\ (key_press cfg (S fuel) a >> key_release cfg a >>
                     key_press cfg (S fuel) b) (cleared s2)
                    = Ret s3 [EvKeyPress a; r1; EvKeyRelease a; r2;
                              EvKeyPress b; r3]
                 /\ is_report r1 = true /\ is_report r2 = true
                 /\ is_report r3 = true).
Proof.
  repeat apply conj.
  - intros kp kr s Hk Hq. split; [|split; [done|split; [done|]]].
    + unfold replay_keypresses, seq_cmd at 1.
      rewrite (clear_pressed_eq _ _ Hk Hq).
      cbv beta iota delta [seq_cmd upd emit].
      by destruct (replay_loop kp kr 255 0 (cleared s)).
    + intros j. apply key_pressed_cleared.
  - reflexivity.
  - intros a b s Hra Hrb Hma Hmb Hk Hb Hm Hrec Hlen.
    destruct (key_press_normal cfg 0 a s Hra Hm Hma)
      as (sa & ra & Ea & _ & Hka & Hm_a & _ & _ & Hreca).
    destruct (Hreca Hrec) as (Hrec_a & Hbuf_a & Hlen_a); [lia|].
    assert (Hla : length (key sa) = length (key s))
      by (by rewrite Hka, length_alter).
    destruct (key_release_normal cfg a sa)
      as (sb & rb & Eb & _ & Hkb & Hm_b & _ & _ & Hrecb);
      [by rewrite (in_range_ext cfg a sa s)|done|].
    destruct (Hrecb Hrec_a) as (Hrec_b & Hbuf_b & Hlen_b); [lia|].
    assert (Hlb : length (key sb) = length (key s))
      by (by rewrite Hkb, length_alter).
    destruct (key_press_normal cfg 0 b sb)
      as (sc & rc & Ec & _ & Hkc & Hm_c & _ & _ & Hrecc);
      [by rewrite (in_range_ext cfg b sb s)|done..|].
    destruct (Hrecc Hrec_b) as (Hrec_c & Hbuf_c & Hlen_c); [lia|].
    exists sc, [EvKeyPress a; ra; EvKeyRelease a; rb; EvKeyPress b; rc].
    split; [|split; [|split]].
    + by rewrite (seq_cmd_Ret _ _ _ _ _ Ea), (seq_cmd_Ret _ _ _ _ _ Eb), Ec.
    + lia.
    + rewrite Hbuf_c, Hbuf_b, Hbuf_a, Hlen_b, Hlen_a, Hlen.
      destruct (replay_buf s) as [|x [|y [|z rest]]]; try done.
    + intros fuel s2 Hl2 Ht2 Hk2 Hq2 Hm2 Hr2.
      assert (Hb0 : replay_buf s2 !!! 0 = a).
      { apply list_lookup_total_correct.
        rewrite <- (lookup_take_lt _ 3) by lia. by rewrite Ht2. }
      assert (Hb1 : replay_buf s2 !!! 1 = a).
      { apply list_lookup_total_correct.
        rewrite <- (lookup_take_lt _ 3) by lia. by rewrite Ht2. }
      assert (Hb2 : replay_buf s2 !!! 2 = b).
      { apply list_lookup_total_correct.
        rewrite <- (lookup_take_lt _ 3) by lia. by rewrite Ht2. }
      assert (Hlc : length (key (cleared s2)) = length (key s)).
      { unfold cleared. st_red. rewrite length_map. congruence. }
      destruct (key_press_normal cfg fuel a (cleared s2))
        as (s3 & r1 & E1 & Hr1 & Hk3 & Hm3 & _ & Hrec3 & _);
        [by rewrite (in_range_ext cfg a _ s)|done..|].
      destruct (Hrec3 Hr2) as (Hrec_3 & Hbuf_3 & Hlen_3).
      assert (Hl3 : length (key s3) = length (key s))
        by (by rewrite Hk3, length_alter).
      destruct (key_release_normal cfg a s3)
        as (s4 & r2 & E2 & Hr2' & Hk4 & Hm4 & _ & Hrec4 & _);
        [by rewrite (in_range_ext cfg a _ s)|done|].
      destruct (Hrec4 Hrec_3) as (Hrec_4 & Hbuf_4 & Hlen_4).
      assert (Hl4 : length (key s4) = length (key s))
        by (by rewrite Hk4, length_alter).
      destruct (key_press_normal cfg fuel b s4)
        as (s5 & r3 & E3 & Hr3 & Hk5 & Hm5 & _ & Hrec5 & _);
        [by rewrite (in_range_ext cfg b _ s)|done..|].
      destruct (Hrec5 Hrec_4) as (Hrec_5 & Hbuf_5 & Hlen_5).
      assert (Ha : a < length (key s)).
      { apply andb_true_iff in Hra as [Hra _]. by apply Nat.ltb_lt in Hra. }
      exists s5, r1, r2, r3. split; [|split; [|done]].
      * unfold replay_keypresses.
        rewrite (seq_cmd_Ret _ _ _ _ _ (clear_pressed_eq _ _ Hk2 Hq2)).
        rewrite replay_loop_step by (simpl; lia).
        change (replay_buf (cleared s2)) with (replay_buf s2).
        rewrite Hb0, key_pressed_cleared.
        rewrite (seq_cmd_Ret _ _ _ _ _ E1).
        rewrite replay_loop_step by (rewrite Hlen_3; simpl; lia).
        rewrite Hbuf_3. change (replay_buf (cleared s2)) with (replay_buf s2).
        rewrite Hb1, (key_pressed_alter a a true _ _ Hk3).
        destruct (decide _) as [_|[]]; [|split; [done|lia]].
        rewrite (seq_cmd_Ret _ _ _ _ _ E2).
        rewrite replay_loop_step by (rewrite Hlen_4, Hlen_3; simpl; lia).
        rewrite Hbuf_4, Hbuf_3.
        change (replay_buf (cleared s2)) with (replay_buf s2).
        rewrite Hb2.
        assert (Hpb : key_pressed b s4 = false).
        { rewrite (key_pressed_alter b a false _ _ Hk4).
          destruct (decide _) as [_|Hn]; [done|].
          rewrite (key_pressed_alter b a true _ _ Hk3).
          destruct (decide _) as [[-> ?]|_]; [|apply key_pressed_cleared].
          exfalso. apply Hn. split; [done|lia]. }
        rewrite Hpb, (seq_cmd_Ret _ _ _ _ _ E3).
        rewrite replay_loop_done
          by (rewrite Hlen_5, Hlen_4, Hlen_3; simpl; lia).
        reflexivity.
      * by rewrite (seq_cmd_Ret _ _ _ _ _ E1), (seq_cmd_Ret _ _ _ _ _ E2), E3.
Qed.

Lemma record_then_replay_witness :
  (exists s1 t1,
     (key_press demo 1 1 >> key_release demo 1 >> key_press demo 1 2)
       (set_recording_mode true (init_state demo)) = Ret s1 t1
     /\ replay_buf_len s1 = 3
     /\ take 3 (replay_buf s1) = [1; 1; 2])
  /\ (exists s3 r1 r2 r3,
        replay_keypresses demo (key_press demo 1) (key_release demo)
          (set_replay_buf (fun _ => [1; 1; 2] ++ replicate 252 0)
             (set_replay_buf_len 3 (init_state demo)))
        = Ret s3 [EvClearPressed; EvReport (replicate 6 0%Z) 0;
                  EvKeyPress 1; r1; EvKeyRelease 1; r2; EvKeyPress 2; r3]).
Proof.
  destruct (proj2 (proj2 (record_then_replay demo)) 1 2
              (set_recording_mode true (init_state demo))
              eq_refl eq_refl eq_refl eq_refl eq_refl eq_refl eq_refl
              eq_refl eq_refl)
    as (s1 & t1 & E & Hl & Ht & Hreplay).
  split.
  - by exists s1, t1.
  - destruct (Hreplay 0
                (set_replay_buf (fun _ => [1; 1; 2] ++ replicate 252 0)
                   (set_replay_buf_len 3 (init_state demo)))
                eq_refl eq_refl eq_refl eq_refl eq_refl eq_refl)
      as (s3 & r1 & r2 & r3 & E3 & _).
    by exists s3, r1, r2, r3.
Defined.

(** ** Fuel *)

Lemma refines_refl o : refines o o.
Proof. by right. Qed.

Lemma refines_seq (c1 c1' c2 c2' : cmd) s :
  refines (c1 s) (c1' s) -> (forall s1, refines (c2 s1) (c2' s1)) ->
  refines ((c1 >> c2) s) ((c1' >> c2') s).
Proof.
  unfold seq_cmd. intros [H1|H1] H2; rewrite H1; [by left|].
  destruct (c1' s) as [s1 t1| | |]; try by right.
  destruct (H2 s1) as [H|H]; rewrite H; [by left|by right].
Qed.

Lemma refines_ifte b (c1 c1' c2 c2' : cmd) s :
  refines (c1 s) (c1' s) -> refines (c2 s) (c2' s) ->
  refines (ifte b c1 c2 s) (ifte b c1' c2' s).
Proof. unfold ifte. by destruct (b s). Qed.

Lemma refines_replay_loop (kp kp' kr : nat -> cmd) :
  (forall k s, refines (kp k s) (kp' k s)) ->
  forall n i s,
    refines (replay_loop kp kr n i s) (replay_loop kp' kr n i s).
Proof.
  intros H. induction n as [|n IH]; intros i s; [apply refines_refl|].
  cbn [replay_loop]. destruct (i <? replay_buf_len s); [|apply refines_refl].
  apply refines_seq; [|apply IH].
  destruct (key_pressed _ s); [apply refines_refl|apply H].
Qed.

Lemma key_press_fuel_S cfg fuel : forall k s,
  refines (key_press cfg fuel k s) (key_press cfg (S fuel) k s).
Proof.
  induction fuel as [|fuel IH]; intros k s; [by left|].
  cbn [key_press]. unfold guard. destruct (in_range cfg k s); [|by right].
  apply refines_seq; [apply refines_refl|]. intros s1.
  apply refines_seq; [apply refines_refl|]. intros s2.
  apply refines_ifte; [|apply refines_refl].
  unfold magic_key_press.
  apply refines_seq; [apply refines_refl|]. intros s3.
  apply refines_seq; [apply refines_refl|]. intros s4.
  apply refines_seq; [|intros; apply refines_refl].
  unfold when. apply refines_ifte; [|apply refines_refl].
  apply refines_seq; [apply refines_refl|]. intros s5.
  unfold replay_keypresses.
  apply refines_seq; [apply refines_refl|]. intros s6.
  by apply refines_replay_loop.
Qed.

Lemma key_press_fuel_le cfg fuel fuel' k s :
  fuel <= fuel' ->
  refines (key_press cfg fuel k s) (key_press cfg fuel' k s).
Proof.
  induction 1 as [|fuel' _ IH]; [apply refines_refl|].
  destruct IH as [IH|IH]; [by left|]. rewrite IH. apply key_press_fuel_S.
Qed.

Lemma scan_key_fuel_le cfg fuel fuel' b k s :
  fuel <= fuel' ->
  refines (scan_key cfg fuel b k s) (scan_key cfg fuel' b k s).
Proof.
  intros H. unfold scan_key.
  apply refines_seq; [apply refines_refl|]. intros s1.
  apply refines_seq; [|intros; apply refines_refl].
  unfold when. apply refines_ifte; [|apply refines_refl].
  by apply key_press_fuel_le.
Qed.

(** ** The scan interrupt always comes back

    In a reachable state every index stored in the macro buffer is a key
    of the matrix other than the magic key, and while recording no magic
    key is pressed. A replay therefore never enters magic mode, its
    calls of [key_press] do not replay in turn, and fuel 2 is enough. *)

Lemma buf_ok_ext cfg s1 s2 :
  replay_buf s1 = replay_buf s2 -> replay_buf_len s1 = replay_buf_len s2 ->
  buf_ok cfg s2 -> buf_ok cfg s1.
Proof. unfold buf_ok. by intros -> ->. Qed.

Lemma buf_ok_lookup cfg s i :
  buf_ok cfg s -> i < replay_buf_len s ->
  replay_buf s !!! i < NKEY cfg
  /\ is_magic_key cfg (replay_buf s !!! i) = false.
Proof.
  intros [Hlen Hall] Hi.
  destruct (lookup_lt_is_Some_2 (replay_buf s) i) as [k Hk]; [lia|].
  rewrite (list_lookup_total_correct _ _ _ Hk).
  rewrite Forall_lookup in Hall. apply (Hall i).
  by rewrite lookup_take_lt.
Qed.

Lemma buf_ok_insert cfg s s' k :
  buf_ok cfg s -> replay_buf_len s < length (replay_buf s) ->
  k < NKEY cfg -> is_magic_key cfg k = false ->
  replay_buf s' = <[replay_buf_len s := k]> (replay_buf s) ->
  replay_buf_len s' = S (replay_buf_len s) ->
  buf_ok cfg s'.
Proof.
  intros [Hlen Hall] Hlt Hk Hmk Hb Hl. unfold buf_ok.
  rewrite Hb, Hl, length_insert. split; [lia|].
  rewrite (take_S_r _ _ k) by (by apply list_lookup_insert_eq).
  rewrite take_insert_ge by lia.
  apply Forall_app. split; [done|]. by apply Forall_singleton.
Qed.

Lemma in_range_lt cfg k s :
  cfg_ok cfg -> length (key s) = NKEY cfg -> k < NKEY cfg ->
  in_range cfg k s = true.
Proof.
  unfold cfg_ok, in_range. intros Hc Hk Hlt.
  apply andb_true_iff. split; apply Nat.ltb_lt; lia.
Qed.

Section Total.

Variable cfg : config.
Hypothesis Hcfg : cfg_ok cfg.

Lemma replay_press fuel k s :
  replaying cfg s -> k < NKEY cfg -> is_magic_key cfg k = false ->
  exists s' t, key_press cfg (S fuel) k s = Ret s' t /\ replaying cfg s'.
Proof.
  intros [Hk Hb Hm Hr] Hlt Hmk.
  destruct (key_press_normal cfg fuel k s)
    as (s' & r & E & _ & Hk' & Hm' & _ & Hrec & _);
    [by apply in_range_lt|done..|].
  destruct (Hrec Hr) as (Hr' & Hb' & Hl').
  exists s', [EvKeyPress k; r]. split; [done|]. split; try done.
  - by rewrite Hk', length_alter.
  - by eapply buf_ok_ext.
Qed.

Lemma replay_release k s :
  replaying cfg s -> k < NKEY cfg ->
  exists s' t, key_release cfg k s = Ret s' t /\ replaying cfg s'.
Proof.
  intros [Hk Hb Hm Hr] Hlt.
  destruct (key_release_normal cfg k s)
    as (s' & r & E & _ & Hk' & Hm' & _ & Hrec & _);
    [by apply in_range_lt|done|].
  destruct (Hrec Hr) as (Hr' & Hb' & Hl').
  exists s', [EvKeyRelease k; r]. split; [done|]. split; try done.
  - by rewrite Hk', length_alter.
  - by eapply buf_ok_ext.
Qed.

Lemma replay_loop_returns fuel n : forall i s,
  replaying cfg s ->
  exists s' t,
    replay_loop (key_press cfg (S fuel)) (key_release cfg) n i s = Ret s' t
    /\ replaying cfg s'.
Proof.
  induction n as [|n IH]; intros i s Hs; [by exists s, []|].
  cbn [replay_loop]. destruct (i <? replay_buf_len s) eqn:Hi;
    [|by exists s, []].
  apply Nat.ltb_lt in Hi.
  destruct (buf_ok_lookup cfg s i (rp_buf _ _ Hs) Hi) as [Hlt Hmk].
  destruct (key_pressed (replay_buf s !!! i) s).
  - destruct (replay_release _ s Hs Hlt) as (s1 & t1 & E1 & Hs1).
    destruct (IH (S i) s1 Hs1) as (s2 & t2 & E2 & Hs2).
    exists s2, (t1 ++ t2). split; [|done].
    by rewrite (seq_cmd_Ret _ _ _ _ _ E1), E2.
  - destruct (replay_press fuel _ s Hs Hlt Hmk) as (s1 & t1 & E1 & Hs1).
    destruct (IH (S i) s1 Hs1) as (s2 & t2 & E2 & Hs2).
    exists s2, (t1 ++ t2). split; [|done].
    by rewrite (seq_cmd_Ret _ _ _ _ _ E1), E2.
Qed.

Lemma overlay_rel_refl s : overlay_rel cfg s [] s.
Proof. unfold overlay_rel. auto. Qed.

Lemma overlay_rel_trans s1 t1 s2 t2 s3 :
  overlay_rel cfg s1 t1 s2 -> overlay_rel cfg s2 t2 s3 ->
  overlay_rel cfg s1 (t1 ++ t2) s3.
Proof. unfold overlay_rel. auto. Qed.

Lemma replay_keypresses_returns fuel s :
  length (key s) = NKEY cfg -> buf_ok cfg s -> recording_mode s = false ->
  sat true (overlay_rel cfg)
    (upd (set_magic_mode false) >>
     replay_keypresses cfg (key_press cfg (S fuel)) (key_release cfg)) s.
Proof.
  intros Hk Hb Hr. unfold sat.
  destruct (replay_loop_returns fuel 255 0
              (set_mod_keys (fun _ => 0%Z)
                 (set_queue clear_queue
                    (set_key (clear_keys cfg) (set_magic_mode false s)))))
    as (s' & t & E & [Hk' Hb' _ Hr']).
  { split; st_red; try done. by rewrite clear_keys_length. }
  unfold replay_keypresses.
  cbv beta iota delta [seq_cmd upd emit clear_pressed send] in *.
  st_red. rewrite E. unfold overlay_rel. auto.
Qed.

Lemma magic_key_press_returns fuel k s :
  length (key s) = NKEY cfg -> buf_ok cfg s -> recording_mode s = false ->
  sat true (overlay_rel cfg)
    (magic_key_press cfg
       (replay_keypresses cfg (key_press cfg (S fuel)) (key_release cfg)) k) s.
Proof.
  intros Hk Hb Hr. unfold magic_key_press.
  pose proof overlay_rel_refl as Hrefl. pose proof overlay_rel_trans as Htr.
  apply sat_seq; [done| |intros s1 t1 _ H1].
  { apply sat_when; [done|]. intros _. unfold sat, upd, overlay_rel. auto. }
  destruct (H1 (conj Hk (conj Hb Hr))) as (Hk1 & Hb1 & Hr1). clear H1.
  apply sat_seq; [done| |intros s2 t2 _ H2].
  { apply sat_when; [done|]. intros _. unfold sat. cmd_red.
    unfold overlay_rel. st_red. auto. }
  destruct (H2 (conj Hk1 (conj Hb1 Hr1))) as (Hk2 & Hb2 & Hr2). clear H2.
  apply sat_seq; [done| |intros s3 t3 _ H3].
  { apply sat_when; [done|]. intros _. by apply replay_keypresses_returns. }
  apply sat_when; [done|]. intros _. unfold sat, jump_bootloader, overlay_rel.
  auto.
Qed.

End Total.

Lemma key_press_normal_buffer cfg fuel k s :
  in_range cfg k s = true -> magic_mode s = false ->
  is_magic_key cfg k = false ->
  exists s' t,
    key_press cfg (S fuel) k s = Ret s' t
    /\ key s' = alter (set_pressed true) k (key s)
    /\ buffer_step k s s'.
Proof.
  intros Hr Hm Hmk. cbn [key_press]. unfold guard. rewrite Hr.
  cmd_red. st_red. rewrite Hm, Hmk. unfold buffer_step.
  destruct (recording_mode s) eqn:Hrec;
    [destruct (replay_buf_len s + 1 <? 255) eqn:Hlt|];
    destruct (IS_MODIFIER cfg (layout_at cfg k));
    eexists _, _; (split; [reflexivity|]); st_red; (split; [done|]).
  1,2: right; left; apply Nat.ltb_lt in Hlt;
       repeat split; try done; try lia; rewrite Nat.mod_small; lia.
  1,2: right; right; done.
  all: left; done.
Qed.

Lemma key_release_normal_buffer cfg k s :
  in_range cfg k s = true -> magic_mode s = false ->
  exists s' t,
    key_release cfg k s = Ret s' t
    /\ key s' = alter (set_pressed false) k (key s)
    /\ buffer_step k s s'.
Proof.
  intros Hr Hm. unfold key_release, guard. rewrite Hr.
  cmd_red. st_red. rewrite Hm. unfold buffer_step.
  destruct (recording_mode s) eqn:Hrec;
    [destruct (replay_buf_len s + 1 <? 255) eqn:Hlt|];
    destruct (IS_MODIFIER cfg (layout_at cfg k));
    eexists _, _; (split; [reflexivity|]); st_red; (split; [done|]).
  1,2: right; left; apply Nat.ltb_lt in Hlt;
       repeat split; try done; try lia; rewrite Nat.mod_small; lia.
  1,2: right; right; done.
  all: left; done.
Qed.

Lemma key_pressed_cleared_keys cfg j s s' :
  key s' = clear_keys cfg (key s) ->
  key_pressed j s' = if decide (j < NKEY cfg) then false else key_pressed j s.
Proof.
  intros H. rewrite <- key_pressed_clear_keys.
  apply key_pressed_ext. by rewrite H.
Qed.

Section Progress.

Variable cfg : config.
Hypothesis Hcfg : cfg_ok cfg.

Lemma buffer_step_buf_ok k s s' :
  safe cfg s -> buf_ok cfg s -> k < NKEY cfg ->
  (recording_mode s = true -> is_magic_key cfg k = false) ->
  buffer_step k s s' -> buf_ok cfg s'.
Proof.
  intros Hsafe Hb Hk Hmk
    [(_ & _ & Hb' & Hl')|[(Hr & _ & Hlt & Hb' & Hl')|(_ & _ & Hb' & Hl')]].
  - by eapply buf_ok_ext.
  - eapply buf_ok_insert; try done; [|by apply Hmk].
    rewrite (safe_buf _ _ Hsafe). lia.
  - by eapply buf_ok_ext.
Qed.

Lemma buffer_step_recording k s s' :
  buffer_step k s s' -> recording_mode s' = true -> recording_mode s = true.
Proof.
  intros [(_ & Hr & _)|[(Hr & _)|(_ & Hr & _)]]; congruence.
Qed.

Lemma key_release_returns k s :
  inv cfg s -> k < NKEY cfg -> key_pressed k s = true ->
  exists s' t, key_release cfg k s = Ret s' t /\ inv cfg s'.
Proof.
  intros [Hsafe Hbuf Hmu] Hk Hp.
  pose proof (in_range_lt cfg k s Hcfg (safe_key _ _ Hsafe) Hk) as Hr.
  pose proof (key_release_safe cfg k s Hp) as Hs. unfold sat in Hs.
  destruct (magic_mode s) eqn:Hm.
  - pose proof (safe_modes _ _ Hsafe Hm) as Hrec.
    destruct (key_release cfg k s) as [s' t| | |] eqn:E;
      revert E; unfold key_release, guard; rewrite Hr; cmd_red; st_red;
      rewrite Hm; destruct (value (layout_at cfg k) =? KEY_Q cfg)%Z;
      try done; intros [= <- <-]; eexists _, _; (split; [reflexivity|]);
      (split; [by apply Hs| |]).
    + split; st_red; [lia|]. by rewrite take_0.
    + intros _ m _.
      rewrite (key_pressed_cleared_keys cfg m
                 (set_key (alter (set_pressed false) k) s)) by done.
      destruct (decide (m < NKEY cfg)) as [_|Hge]; [done|].
      unfold key_pressed. st_red.
      rewrite lookup_ge_None_2; [done|].
      rewrite length_alter, (safe_key _ _ Hsafe). lia.
    + by eapply buf_ok_ext.
    + intros Hrec'. st_red_in Hrec'. congruence.
  - destruct (key_release_normal_buffer cfg k s Hr Hm)
      as (s' & t & E & Hk' & Hstep).
    rewrite E in Hs. exists s', t. split; [done|]. split; [by apply Hs| |].
    + eapply buffer_step_buf_ok; try done. intros Hr0.
      destruct (is_magic_key cfg k) eqn:Hmk; [|done].
      rewrite (Hmu Hr0 k Hmk) in Hp. discriminate.
    + intros Hrec' m Hmm. rewrite (key_pressed_alter m k false _ _ Hk').
      destruct (decide _) as [_|_]; [done|].
      apply Hmu; [|done]. by eapply buffer_step_recording.
Qed.

Lemma key_press_magic_eq fuel k s :
  in_range cfg k s = true -> magic_mode s = true ->
  key_press cfg (S fuel) k s =
  match magic_key_press cfg
          (replay_keypresses cfg (key_press cfg fuel) (key_release cfg)) k
          (set_key (alter (set_pressed true) k) s) with
  | Ret s2 t2 => Ret s2 (EvKeyPress k :: t2)
  | Halt s2 t2 => Halt s2 (EvKeyPress k :: t2)
  | o => o
  end.
Proof.
  intros Hr Hm. cbn [key_press]. unfold guard. rewrite Hr.
  cbv beta iota delta [seq_cmd emit upd ifte]. st_red. rewrite Hm.
  by destruct (magic_key_press _ _ _ _).
Qed.

Lemma key_press_returns fuel k s :
  inv cfg s -> k < NKEY cfg -> key_pressed k s = false ->
  exists s' t,
    (key_press cfg (S (S fuel)) k s = Ret s' t /\ inv cfg s')
    \/ key_press cfg (S (S fuel)) k s = Halt s' t.
Proof.
  intros [Hsafe Hbuf Hmu] Hk Hp.
  pose proof (in_range_lt cfg k s Hcfg (safe_key _ _ Hsafe) Hk) as Hr.
  pose proof (key_press_safe cfg (S (S fuel)) k s Hp) as Hs. unfold sat in Hs.
  destruct (magic_mode s) eqn:Hm.
  - pose proof (safe_modes _ _ Hsafe Hm) as Hrec.
    set (s1 := set_key (alter (set_pressed true) k) s).
    assert (Hk1 : length (key s1) = NKEY cfg)
      by (unfold s1; st_red; by rewrite length_alter, (safe_key _ _ Hsafe)).
    assert (Hb1 : buf_ok cfg s1) by (by eapply buf_ok_ext).
    assert (Hr1 : recording_mode s1 = false) by done.
    pose proof (magic_key_press_returns cfg Hcfg fuel k s1 Hk1 Hb1 Hr1) as Hov.
    unfold sat in Hov.
    rewrite (key_press_magic_eq (S fuel) k s Hr Hm) in *. fold s1 in Hs |- *.
    destruct (magic_key_press _ _ _ s1) as [s' t|s' t| |]; try done.
    + exists s', (EvKeyPress k :: t). left. split; [done|].
      destruct (Hov (conj Hk1 (conj Hb1 Hr1))) as (_ & Hb' & Hr').
      split; [by apply Hs|done|]. intros ?. congruence.
    + exists s', (EvKeyPress k :: t). by right.
  - destruct (is_magic_key cfg k) eqn:Hmk.
    + destruct (key_press cfg (S (S fuel)) k s) as [s' t| | |] eqn:E;
        revert E; cbn [key_press]; unfold guard; rewrite Hr; cmd_red; st_red;
        rewrite Hm, Hmk; destruct (recording_mode s) eqn:Hrec;
        try done; intros [= <- <-]; eexists _, _; left;
        (split; [reflexivity|]);
        (split; [by apply Hs|by eapply buf_ok_ext|]);
        intros Hrec'; st_red_in Hrec'; congruence.
    + destruct (key_press_normal_buffer cfg (S fuel) k s Hr Hm Hmk)
        as (s' & t & E & Hk' & Hstep).
      rewrite E in Hs. exists s', t. left. split; [done|].
      split; [by apply Hs|by eapply buffer_step_buf_ok|].
      intros Hrec' m Hmm. rewrite (key_pressed_alter m k true _ _ Hk').
      destruct (decide _) as [[-> _]|_]; [congruence|].
      apply Hmu; [|done]. by eapply buffer_step_recording.
Qed.

Lemma inv_set_bounce f k s :
  inv cfg s -> inv cfg (set_key (alter (set_bounce f) k) s).
Proof.
  intros [[Hk Hb Hq Hs Hm Hl] Hbuf Hmu]. split; [split| |]; st_red;
    rewrite ?length_alter; try done.
  intros Hrec m Hmm. rewrite key_pressed_set_bounce. by apply Hmu.
Qed.

Lemma inv_init : inv cfg (init_state cfg).
Proof.
  split; [apply safe_init| |done].
  split; simpl; [lia|]. apply Forall_nil_2.
Qed.

Lemma scan_key_returns fuel b k s :
  inv cfg s -> k < NKEY cfg ->
  exists s' t,
    (scan_key cfg (S (S fuel)) b k s = Ret s' t /\ inv cfg s')
    \/ scan_key cfg (S (S fuel)) b k s = Halt s' t.
Proof.
  intros Hinv Hk. rewrite scan_key_eq.
  set (s1 := set_key (alter (set_bounce (or_sample b)) k) s).
  assert (Hinv1 : inv cfg s1) by (by apply inv_set_bounce).
  destruct (press_cond k s1) eqn:Hpc; [|destruct (release_cond k s1) eqn:Hrc].
  - apply andb_true_iff in Hpc as [_ Hp]. apply negb_true_iff in Hp.
    destruct (key_press_returns fuel k s1 Hinv1 Hk Hp)
      as (s2 & t2 & [[E Hinv2]|E]).
    + eexists _, _. left. rewrite (seq_cmd_Ret _ _ _ _ _ E).
      split; [reflexivity|]. by apply inv_set_bounce.
    + exists s2, t2. right. unfold seq_cmd. by rewrite E.
  - apply andb_true_iff in Hrc as [_ Hp].
    destruct (key_release_returns k s1 Hinv1 Hk Hp) as (s2 & t2 & E & Hinv2).
    eexists _, _. left. rewrite (seq_cmd_Ret _ _ _ _ _ E).
    split; [reflexivity|]. by apply inv_set_bounce.
  - eexists _, _. left. split; [reflexivity|]. by apply inv_set_bounce.
Qed.

Lemma reachable_inv s : reachable cfg s -> inv cfg s.
Proof.
  induction 1 as [|s fuel b k s' t _ IH Hk E]; [apply inv_init|].
  destruct (scan_key_fuel_le cfg fuel (S (S fuel)) b k s) as [H|H]; [lia|..].
  { rewrite E in H. discriminate. }
  rewrite E in H.
  destruct (scan_key_returns fuel b k s IH Hk) as (s2 & t2 & [[E2 Hinv2]|E2]);
    rewrite <- H in E2; [|discriminate].
  by injection E2 as -> _.
Qed.

Lemma scan_keys_return fuel sample ks : forall s,
  Forall (fun k => k < NKEY cfg) ks -> inv cfg s ->
  exists s' t,
    (foldr (fun k c => scan_key cfg (S (S fuel)) (sample k) k >> c) skip ks s
       = Ret s' t /\ inv cfg s')
    \/ foldr (fun k c => scan_key cfg (S (S fuel)) (sample k) k >> c) skip ks s
       = Halt s' t.
Proof.
  induction ks as [|k ks IH]; intros s Hks Hinv.
  - exists s, []. by left.
  - inversion Hks as [|? ? Hk Hks']; subst. simpl.
    destruct (scan_key_returns fuel (sample k) k s Hinv Hk)
      as (s1 & t1 & [[E1 Hinv1]|E1]).
    + rewrite (seq_cmd_Ret _ _ _ _ _ E1).
      destruct (IH s1 Hks' Hinv1) as (s2 & t2 & [[E2 Hinv2]|E2]); rewrite E2.
      * eexists _, _. by left.
      * eexists _, _. by right.
    + exists s1, t1. right. unfold seq_cmd. by rewrite E1.
Qed.

Lemma scan_cycle_returns fuel sample s :
  inv cfg s ->
  exists s' t,
    (scan_cycle cfg (S (S fuel)) sample s = Ret s' t /\ inv cfg s')
    \/ scan_cycle cfg (S (S fuel)) sample s = Halt s' t.
Proof.
  intros Hinv. apply scan_keys_return; [|done].
  apply Forall_forall. intros k Hk. apply elem_of_seq in Hk. lia.
Qed.

Lemma run_cycles_return fuel samples : forall s,
  inv cfg s ->
  exists s' t,
    (run_cycles cfg (S (S fuel)) samples s = Ret s' t /\ inv cfg s')
    \/ run_cycles cfg (S (S fuel)) samples s = Halt s' t.
Proof.
  induction samples as [|f rest IH]; intros s Hinv.
  - exists s, []. by left.
  - simpl. destruct (scan_cycle_returns fuel f s Hinv)
      as (s1 & t1 & [[E1 Hinv1]|E1]).
    + rewrite (seq_cmd_Ret _ _ _ _ _ E1).
      destruct (IH s1 Hinv1) as (s2 & t2 & [[E2 Hinv2]|E2]); rewrite E2.
      * eexists _, _. by left.
      * eexists _, _. by right.
    + exists s1, t1. right. unfold seq_cmd. by rewrite E1.
Qed.

(** From a reachable state, any number of scan interrupts run to their
    end or to the bootloader: no access outside the arrays, no unbounded
    recursion. *)
Theorem scan_interrupts_return fuel samples s :
  reachable cfg s ->
  exists s' t,
    run_cycles cfg (S (S fuel)) samples s = Ret s' t
    \/ run_cycles cfg (S (S fuel)) samples s = Halt s' t.
Proof.
  intros Hs.
  destruct (run_cycles_return fuel samples s (reachable_inv s Hs))
    as (s' & t & [[E _]|E]); exists s', t; auto.
Qed.

End Progress.

(** ** The reduced variant: a press is never repeated without a release *)

Lemma strict_edges_rel_refl k s : strict_edges_rel k s [] s.
Proof. done. Qed.

Lemma strict_edges_rel_trans k s1 t1 s2 t2 s3 :
  strict_edges_rel k s1 t1 s2 -> strict_edges_rel k s2 t2 s3 ->
  strict_edges_rel k s1 (t1 ++ t2) s3.
Proof.
  unfold strict_edges_rel. intros H1 H2. by rewrite (edges_app _ _ _ _ _ _ H1).
Qed.

Section Strict.

Variable cfg : config.
Variable k : nat.

Local Abbreviation ok := (sat false (strict_edges_rel k)).

Local Ltac quiet := intros; unfold sat, strict_edges_rel; cmd_red; done.

Lemma dispatch_press_strict k' s : ok (dispatch_press cfg k') s.
Proof. apply sat_ifte; quiet. Qed.

Lemma dispatch_release_strict k' s : ok (dispatch_release cfg k') s.
Proof. apply sat_ifte; quiet. Qed.

Lemma key_press_strict k' s :
  key_pressed k' s = false -> ok (Reduced.key_press cfg k') s.
Proof.
  intros Hp. unfold Reduced.key_press. apply sat_guard; [intros Hr|done].
  unfold sat. rewrite mark_assoc.
  apply sat_mark_seq; [apply strict_edges_rel_trans|..].
  - unfold sat, mark, strict_edges_rel. cmd_red. simpl edges.
    rewrite key_pressed_set_pressed.
    apply andb_true_iff in Hr as [Hr _]. apply Nat.ltb_lt in Hr.
    destruct (Nat.eqb_spec k' k) as [->|Hne].
    + rewrite Hp. by destruct (decide _) as [_|[]].
    + by destruct (decide _) as [[? _]|_].
  - apply sat_ifte; intros _.
    + unfold Reduced.magic_key_press.
      apply sat_seq; [apply strict_edges_rel_trans|..].
      * apply sat_when; [apply strict_edges_rel_refl|quiet].
      * intros. apply sat_when; [apply strict_edges_rel_refl|quiet].
    + apply sat_ifte; intros _; [quiet|apply dispatch_press_strict].
Qed.

Lemma key_release_strict k' s : ok (Reduced.key_release cfg k') s.
Proof.
  unfold Reduced.key_release. apply sat_guard; [intros Hr|done].
  unfold sat. rewrite mark_assoc.
  apply sat_mark_seq; [apply strict_edges_rel_trans|..].
  - unfold sat, mark, strict_edges_rel. cmd_red. simpl edges.
    rewrite key_pressed_set_pressed.
    apply andb_true_iff in Hr as [Hr _]. apply Nat.ltb_lt in Hr.
    destruct (Nat.eqb_spec k' k) as [->|Hne].
    + by destruct (decide _) as [_|[]].
    + by destruct (decide _) as [[? _]|_].
  - apply sat_ifte; intros _;
      [apply sat_skip, strict_edges_rel_refl|apply dispatch_release_strict].
Qed.

Lemma scan_key_strict b k' s : ok (Reduced.scan_key cfg b k') s.
Proof.
  unfold Reduced.scan_key.
  pose proof (strict_edges_rel_refl k) as Hrefl.
  pose proof (strict_edges_rel_trans k) as Htrans.
  assert (Hb : forall f j s0, ok (upd (set_key (alter (set_bounce f) j))) s0).
  { intros. unfold sat, upd, strict_edges_rel. simpl edges.
    by rewrite key_pressed_set_bounce. }
  apply sat_seq; [done|apply Hb|intros ? ? _ _].
  apply sat_seq; [done| |intros ? ? _ _].
  { apply sat_when; [done|]. unfold press_cond. intros Hc.
    apply andb_true_iff in Hc as [_ Hc]. apply negb_true_iff in Hc.
    by apply key_press_strict. }
  apply sat_seq; [done| |intros ? ? _ _; apply Hb].
  apply sat_when; [done|]. intros _. apply key_release_strict.
Qed.

Lemma run_cycles_strict samples : forall s, ok (Reduced.run_cycles cfg samples) s.
Proof.
  pose proof (strict_edges_rel_refl k) as Hrefl.
  pose proof (strict_edges_rel_trans k) as Htrans.
  assert (Hc : forall sample s, ok (Reduced.scan_cycle cfg sample) s).
  { intros sample. unfold Reduced.scan_cycle. generalize (seq 0 (NKEY cfg)) as ks.
    induction ks as [|j ks IH]; intros s; [by apply sat_skip|].
    simpl. apply sat_seq; [done|apply scan_key_strict|]. auto. }
  induction samples as [|f rest IH]; intros s; [by apply sat_skip|].
  simpl. apply sat_seq; [done|apply Hc|]. auto.
Qed.

End Strict.

Section ReducedReturns.

Variable cfg : config.
Hypothesis Hcfg : cfg_ok cfg.

Local Ltac reduced_run :=
  cbv beta iota delta
    [seq_cmd emit upd ifte when skip send ll_key_press ll_key_release
     ll_modifier_press ll_modifier_release dispatch_press dispatch_release
     value_is];
  repeat match goal with
         | |- context [if ?c then _ else _] => destruct c
         end;
  eexists _, _; (split; [reflexivity|]); st_red;
  by rewrite ?length_alter.

Lemma reduced_key_press_returns k s :
  in_range cfg k s = true ->
  exists s' t,
    Reduced.key_press cfg k s = Ret s' t /\ length (key s') = length (key s).
Proof.
  intros Hr. unfold Reduced.key_press, Reduced.magic_key_press, guard.
  rewrite Hr. reduced_run.
Qed.

Lemma reduced_key_release_returns k s :
  in_range cfg k s = true ->
  exists s' t,
    Reduced.key_release cfg k s = Ret s' t /\ length (key s') = length (key s).
Proof.
  intros Hr. unfold Reduced.key_release, guard. rewrite Hr. reduced_run.
Qed.

Lemma reduced_when_returns (c : cmd) b s :
  (exists s' t, c s = Ret s' t /\ length (key s') = length (key s)) ->
  exists s' t, when b c s = Ret s' t /\ length (key s') = length (key s).
Proof.
  intros H. unfold when, ifte, skip. destruct (b s); [done|].
  by exists s, [].
Qed.

Lemma reduced_scan_key_returns b k s :
  length (key s) = NKEY cfg -> k < NKEY cfg ->
  exists s' t,
    Reduced.scan_key cfg b k s = Ret s' t /\ length (key s') = NKEY cfg.
Proof.
  intros Hlen Hk. unfold Reduced.scan_key.
  set (s1 := set_key (alter (set_bounce (or_sample b)) k) s).
  assert (Hlen1 : length (key s1) = NKEY cfg)
    by (unfold s1; st_red; by rewrite length_alter).
  destruct (reduced_when_returns (Reduced.key_press cfg k) (press_cond k) s1)
    as (s2 & t2 & E2 & Hlen2);
    [by apply reduced_key_press_returns, in_range_lt|].
  destruct (reduced_when_returns (Reduced.key_release cfg k) (release_cond k) s2)
    as (s3 & t3 & E3 & Hlen3);
    [apply reduced_key_release_returns, in_range_lt; congruence|].
  eexists _, _. split.
  - rewrite (seq_cmd_Ret _ _ s s1 []) by done.
    rewrite (seq_cmd_Ret _ _ _ _ _ E2), (seq_cmd_Ret _ _ _ _ _ E3).
    reflexivity.
  - st_red. rewrite length_alter. congruence.
Qed.

Lemma reduced_scan_keys_return sample ks : forall s,
  Forall (fun k => k < NKEY cfg) ks -> length (key s) = NKEY cfg ->
  exists s' t,
    foldr (fun k c => Reduced.scan_key cfg (sample k) k >> c) skip ks s
      = Ret s' t
    /\ length (key s') = NKEY cfg.
Proof.
  induction ks as [|k ks IH]; intros s Hks Hlen; [by exists s, []|].
  inversion Hks as [|? ? Hk Hks']; subst. simpl.
  destruct (reduced_scan_key_returns (sample k) k s Hlen Hk)
    as (s1 & t1 & E1 & Hlen1).
  destruct (IH s1 Hks' Hlen1) as (s2 & t2 & E2 & Hlen2).
  exists s2, (t1 ++ t2). by rewrite (seq_cmd_Ret _ _ _ _ _ E1), E2.
Qed.

Lemma reduced_run_cycles_return samples : forall s,
  length (key s) = NKEY cfg ->
  exists s' t,
    Reduced.run_cycles cfg samples s = Ret s' t
    /\ length (key s') = NKEY cfg.
Proof.
  induction samples as [|f rest IH]; intros s Hlen; [by exists s, []|].
  simpl.
  destruct (reduced_scan_keys_return f (seq 0 (NKEY cfg)) s) as (s1 & t1 & E1 & Hlen1);
    [apply Forall_forall; intros k Hk; apply elem_of_seq in Hk; lia|done|].
  destruct (IH s1 Hlen1) as (s2 & t2 & E2 & Hlen2).
  exists s2, (t1 ++ t2).
  unfold Reduced.scan_cycle. by rewrite (seq_cmd_Ret _ _ _ _ _ E1), E2.
Qed.

End ReducedReturns.

(** C1, as stated, fails: the replay key is pressed in magic mode, the
    replay clears its pressed flag, its release then goes unnoticed, and
    its next press is a second press edge with no release edge between
    the two. *)
Lemma press_edge_repeats_without_release :
  match run_cycles demo 2 replay_key_twice (init_state demo) with
  | Ret _ t =>
      t = [EvKeyPress 0; EvKeyRelease 0;
           EvKeyPress 4; EvClearPressed; EvReport [0; 0; 0; 0; 0; 0]%Z 0;
           EvKeyPress 4; EvReport [21; 0; 0; 0; 0; 0]%Z 0]
      /\ edges false 4 false t = None
  | _ => False
  end.
Proof. vm_compute. split; reflexivity. Qed.

(** C1 (amended). In the scan loop, [key_press(k)] is called exactly
    when the history register, with the new sample in, is [0b01111111]
    and the key is not pressed, and [key_release(k)] exactly when it is
    [0b10000000] and the key is pressed; otherwise no edge is emitted.
    A key held from an empty history reaches [0b01111111] at the seventh
    sample only, and from any history at most once. In any sequence of
    interrupts, [key_press(k)] is not called again before [key_release(k)]
    is called or [clear_pressed] (start of a recording or of a replay) has
    reset the pressed flags; in the reduced variant, which has no
    [clear_pressed], not before [key_release(k)] is called. Such
    sequences of interrupts do run to their end (or to the bootloader). *)
Theorem debounce_edges (cfg : config) :
  (forall fuel b k s,
     let s1 := set_key (alter (set_bounce (or_sample b)) k) s in
     let shift := upd (set_key (alter (set_bounce shl1) k)) in
     scan_key cfg fuel b k s =
     (if press_cond k s1 then key_press cfg fuel k >> shift
      else if release_cond k s1 then key_release cfg k >> shift
      else shift) s1)
  /\ (forall b k s, k < length (key s) ->
        let s1 := set_key (alter (set_bounce (or_sample b)) k) s in
        press_cond k s1 =
          (or_sample b (key_bounce k s) =? 127)%Z && negb (key_pressed k s)
        /\ release_cond k s1 =
          (or_sample b (key_bounce k s) =? 128)%Z && key_pressed k s)
  /\ (forall fuel b k s s' t, k < length (key s) ->
        scan_key cfg fuel b k s = Ret s' t ->
        key_bounce k s' = bounce_step b (key_bounce k s))
  /\ (forall n,
        or_sample true (Nat.iter n (bounce_step true) 0%Z) = 127%Z <-> n = 6)
  /\ (forall r n m, n < m ->
        or_sample true (Nat.iter n (bounce_step true) r) = 127%Z ->
        or_sample true (Nat.iter m (bounce_step true) r) <> 127%Z)
  /\ (forall fuel samples k s s' t, k < NKEY cfg ->
        run_cycles cfg fuel samples s = Ret s' t
        \/ run_cycles cfg fuel samples s = Halt s' t ->
        edges true k (key_pressed k s) t = Some (key_pressed k s'))
  /\ (forall samples k s s' t,
        Reduced.run_cycles cfg samples s = Ret s' t ->
        edges false k (key_pressed k s) t = Some (key_pressed k s'))
  /\ (cfg_ok cfg ->
      (forall fuel samples s, reachable cfg s ->
         exists s' t,
           run_cycles cfg (S (S fuel)) samples s = Ret s' t
           \/ run_cycles cfg (S (S fuel)) samples s = Halt s' t)
      /\ (forall samples s, length (key s) = NKEY cfg ->
            exists s' t, Reduced.run_cycles cfg samples s = Ret s' t)).
Proof.
  repeat apply conj.
  - apply scan_key_eq.
  - intros b k s Hk s1. unfold press_cond, release_cond, s1.
    rewrite key_bounce_set_bounce, key_pressed_set_bounce.
    by destruct (decide _) as [_|[]].
  - apply scan_key_bounce.
  - intros n. split.
    + intros H. destruct (le_lt_dec 7 n) as [Hn|Hn].
      * rewrite bounce_step_held in H by done. done.
      * do 7 (destruct n as [|n]; [try done; vm_compute in H; done|]). lia.
    + intros ->. reflexivity.
  - intros r n m Hlt H. by rewrite (bounce_step_after r n m Hlt H).
  - intros fuel samples k s s' t Hk Hrun.
    pose proof (run_cycles_sat false (edges_rel k)
                  (edges_rel_refl k) (edges_rel_trans k) cfg fuel
                  (fun b k' s => scan_key_edges cfg k Hk fuel b k' s)
                  samples s) as Hsat.
    unfold sat in Hsat. by destruct Hrun as [E|E]; rewrite E in Hsat.
  - intros samples k s s' t E.
    pose proof (run_cycles_strict cfg k samples s) as Hsat.
    unfold sat in Hsat. by rewrite E in Hsat.
  - intros Hok. split.
    + intros fuel samples s Hs. by apply scan_interrupts_return.
    + intros samples s Hlen.
      destruct (reduced_run_cycles_return cfg Hok samples s Hlen)
        as (s' & t & E & _).
      by exists s', t.
Qed.

Lemma debounce_edges_witness :
  exists s' t,
    run_cycles demo 2 replay_key_twice (init_state demo) = Ret s' t
    /\ edges true 4 (key_pressed 4 (init_state demo)) t = Some (key_pressed 4 s').
Proof.
  eexists _, _. split; [vm_compute; reflexivity|].
  apply (proj1 (proj2 (proj2 (proj2 (proj2 (proj2 (debounce_edges demo))))))
           2 replay_key_twice 4 (init_state demo)).
  - cbn. lia.
  - left. vm_compute. reflexivity.
Defined.

(** * Further properties of the firmware *)

(** ** The configurations used to run the model *)

Lemma reachable_state_after cfg fuel samples :
  reachable cfg (state_after cfg fuel samples).
Proof.
  unfold state_after.
  destruct (run_cycles cfg fuel samples (init_state cfg)) as [s t| | |] eqn:E;
    try apply reach_init.
  eapply reachable_run_cycles; [apply reach_init|exact E].
Qed.

Lemma cfg_ok_demo : cfg_ok demo.
Proof. unfold cfg_ok. simpl. lia. Qed.

Lemma demo_all_up j : key_pressed j (set_recording_mode true (init_state demo)) = false.
Proof.
  unfold key_pressed. simpl.
  do 11 (destruct j as [|j]; [reflexivity|]). reflexivity.
Qed.

Lemma demo_edges_ok :
  Forall (fun e => e.2 < NKEY demo /\ is_magic_key demo e.2 = false) demo_edges.
Proof. repeat constructor. Qed.

Lemma no_macro_keys_plain : no_macro_keys plain.
Proof.
  intros k Hk. simpl in Hk.
  do 4 (destruct k as [|k]; [vm_compute; repeat split; discriminate|]). lia.
Qed.

Lemma cfg_bytes_demo : cfg_bytes demo.
Proof. split; [|unfold byte; simpl; lia]. simpl. repeat constructor; simpl; lia. Qed.

Lemma cfg_codes_demo : cfg_codes demo.
Proof. split; [|discriminate]. simpl. repeat constructor; simpl; discriminate. Qed.

(** ** The modifier byte *)

Lemma byte_lor a b : byte a -> byte b -> byte (Z.lor a b).
Proof.
  unfold byte. intros Ha Hb. split; [apply Z.lor_nonneg; lia|].
  destruct (Z.eq_dec (Z.lor a b) 0%Z) as [->|Hnz]; [lia|].
  apply Z.log2_lt_cancel. rewrite Z.log2_lor by lia.
  change (Z.log2 256) with 8%Z.
  destruct (Z.eq_dec a 0%Z) as [->|Ha0]; destruct (Z.eq_dec b 0%Z) as [->|Hb0];
    simpl Z.log2; try lia.
  - apply Z.max_lub_lt; [lia|]. apply Z.log2_lt_pow2; lia.
  - apply Z.max_lub_lt; [|lia]. apply Z.log2_lt_pow2; lia.
  - apply Z.max_lub_lt; apply Z.log2_lt_pow2; lia.
Qed.

Lemma land_lnot_range a m : (0 <= a -> 0 <= Z.land a (Z.lnot m) <= a)%Z.
Proof.
  intros Ha. apply Z.ldiff_le; [done|].
  apply Z.bits_inj'. intros i Hi.
  rewrite Z.ldiff_spec, Z.land_spec, Z.bits_0.
  by destruct (Z.testbit a i), (Z.testbit (Z.lnot m) i).
Qed.

Lemma release_bits a m :
  byte a -> (Z.land a (Z.lnot m) mod 256 = Z.land a (Z.lnot m))%Z.
Proof.
  unfold byte. intros Ha. pose proof (land_lnot_range a m). 
  apply Z.mod_small. lia.
Qed.

(** X1. [ll_modifier_press] sets the bits of the mask in [mod_keys]
    and [ll_modifier_release] clears them, whoever else held them; each
    leaves the queue and the key table alone, keeps [mod_keys] within a
    byte and transmits one report with the new modifier byte. The press
    and then the release of a mask none of whose bits was set restores
    the state. *)
Theorem modifier_bits (s : state) (m : Z) :
  byte (mod_keys s) -> byte m ->
  (exists s1,
     ll_modifier_press m s = Ret s1 [EvReport (take 6 (queue s)) (mod_keys s1)]
     /\ queue s1 = queue s /\ key s1 = key s /\ byte (mod_keys s1)
     /\ forall i, Z.testbit (mod_keys s1) i
                  = Z.testbit (mod_keys s) i || Z.testbit m i)
  /\ (exists s2,
        ll_modifier_release m s = Ret s2 [EvReport (take 6 (queue s)) (mod_keys s2)]
        /\ queue s2 = queue s /\ key s2 = key s /\ byte (mod_keys s2)
        /\ Z.land (mod_keys s2) m = 0%Z
        /\ forall i, Z.testbit (mod_keys s2) i
                     = Z.testbit (mod_keys s) i && negb (Z.testbit m i))
  /\ (Z.land (mod_keys s) m = 0%Z ->
      (ll_modifier_press m >> ll_modifier_release m) s =
      Ret s [EvReport (take 6 (queue s)) (Z.lor (mod_keys s) m);
             EvReport (take 6 (queue s)) (mod_keys s)]).
Proof.
  intros Hb Hm.
  assert (Hrel : forall a i, byte a ->
            Z.testbit (Z.land a (Z.lnot m) mod 256) i
            = Z.testbit a i && negb (Z.testbit m i)).
  { intros a i Ha. rewrite release_bits by done.
    destruct (Z.neg_nonneg_cases i) as [Hi|Hi].
    - by rewrite !Z.testbit_neg_r.
    - by rewrite Z.land_spec, Z.lnot_spec. }
  repeat apply conj.
  - eexists. split; [reflexivity|]. st_red.
    split; [done|]. split; [done|]. split; [by apply byte_lor|].
    intros i. apply Z.lor_spec.
  - eexists. split; [reflexivity|]. st_red.
    split; [done|]. split; [done|]. split; [|split].
    + rewrite release_bits by done. pose proof (land_lnot_range (mod_keys s) m).
      unfold byte in *. lia.
    + rewrite release_bits by done. apply Z.bits_inj'. intros i Hi.
      rewrite !Z.land_spec, Z.lnot_spec, Z.bits_0 by done.
      by destruct (Z.testbit _ i), (Z.testbit m i).
    + intros i. by apply Hrel.
  - intros H0.
    assert (Hback : (Z.land (Z.lor (mod_keys s) m) (Z.lnot m) mod 256)%Z
                    = mod_keys s).
    { apply Z.bits_inj'. intros i Hi.
      rewrite Hrel by (by apply byte_lor). rewrite Z.lor_spec.
      assert (Hi0 : Z.testbit (Z.land (mod_keys s) m) i = false)
        by (by rewrite H0, Z.bits_0).
      rewrite Z.land_spec in Hi0.
      by destruct (Z.testbit (mod_keys s) i), (Z.testbit m i). }
    cmd_red. st_norm. rewrite Hback. by destruct s.
Qed.

Lemma modifier_bits_witness :
  (ll_modifier_press 2 >> ll_modifier_release 2) (init_state demo) =
  Ret (init_state demo)
      [EvReport (replicate 6 0%Z) 2; EvReport (replicate 6 0%Z) 0].
Proof.
  apply (proj2 (proj2 (modifier_bits (init_state demo) 2
           ltac:(unfold byte; simpl; lia) ltac:(unfold byte; lia)))).
  reflexivity.
Defined.

(** ** A press followed by the release of the same code *)

Lemma remove_pushed code (q : list Z) :
  length q = 7 -> q !! 6 = Some 0%Z ->
  remove_code code (push_front code q) = take 5 q ++ [0; 0]%Z.
Proof.
  intros H H6. destruct (list_len7 q H) as (a & b & c & d & e & f & g & ->).
  injection H6 as ->. rewrite push_front_7.
  unfold remove_code. cbn [find_slot lookup_total list_lookup_total].
  rewrite Z.eqb_refl. reflexivity.
Qed.

Lemma tap_eq code s :
  length (queue s) = 7 -> queue s !! 6 = Some 0%Z ->
  (ll_key_press code >> ll_key_release code) s =
  Ret (set_queue (fun q => take 5 q ++ [0; 0]%Z) s)
      [EvReport (code :: take 5 (queue s)) (mod_keys s);
       EvReport (take 5 (queue s) ++ [0%Z]) (mod_keys s)].
Proof.
  intros H H6. cmd_red. st_norm. rewrite (remove_pushed _ _ H H6).
  rewrite (push_front_take_drop _ _ H).
  destruct (list_len7 _ H) as (a & b & c & d & e & f & g & Hq).
  rewrite Hq. reflexivity.
Qed.

(** X2. [ll_key_press] followed by [ll_key_release] of the same
    code keeps the first five slots and empties the sixth: the state comes
    back unchanged when the sixth slot was free, and the oldest of six
    held codes is lost otherwise. The self-test of magic mode is two such
    pairs for [KEY_X]. *)
Theorem press_release_round_trip (cfg : config) (s : state) :
  length (queue s) = 7 -> queue s !! 6 = Some 0%Z ->
  (forall code,
     (ll_key_press code >> ll_key_release code) s =
     Ret (set_queue (fun q => take 5 q ++ [0; 0]%Z) s)
         [EvReport (code :: take 5 (queue s)) (mod_keys s);
          EvReport (take 5 (queue s) ++ [0%Z]) (mod_keys s)])
  /\ (forall code, queue s !! 5 = Some 0%Z ->
        exists t, (ll_key_press code >> ll_key_release code) s = Ret s t)
  /\ (forall k fuel,
        in_range cfg k s = true -> magic_mode s = true ->
        is_magic_key cfg k = false ->
        value (layout_at cfg k) = KEY_X cfg ->
        KEY_X cfg <> KEY_R cfg -> KEY_X cfg <> KEY_B cfg ->
        key_press cfg (S fuel) k s =
        Ret (set_queue (fun q => take 5 q ++ [0; 0]%Z)
               (set_key (alter (set_pressed true) k) s))
            [EvKeyPress k;
             EvReport (KEY_X cfg :: take 5 (queue s)) (mod_keys s);
             EvReport (take 5 (queue s) ++ [0%Z]) (mod_keys s);
             EvReport (KEY_X cfg :: take 5 (queue s)) (mod_keys s);
             EvReport (take 5 (queue s) ++ [0%Z]) (mod_keys s)]).
Proof.
  intros H H6. repeat apply conj.
  - intros code. by apply tap_eq.
  - intros code H5. eexists. rewrite tap_eq by done. f_equal.
    destruct (list_len7 _ H) as (a & b & c & d & e & f & g & Hq).
    destruct s as [ks rb rl q mk mm rm]. cbn in *. subst q.
    injection H5 as ->. injection H6 as ->. reflexivity.
  - intros k fuel Hr Hm Hmk Hv HR HB.
    cbn [key_press]. unfold guard. rewrite Hr.
    cmd_red. st_red. rewrite Hm, Hmk, Hv, Z.eqb_refl.
    rewrite !(proj2 (Z.eqb_neq _ _)) by done.
    st_norm.
    destruct (list_len7 _ H) as (a & b & c & d & e & f & g & Hq).
    rewrite Hq in *. injection H6 as ->.
    rewrite push_front_7.
    unfold remove_code. cbn [find_slot lookup_total list_lookup_total].
    rewrite Z.eqb_refl. cbn [close_gap]. cbn. rewrite ?Z.eqb_refl. reflexivity.
Qed.

Lemma press_release_round_trip_witness :
  (ll_key_press 27 >> ll_key_release 27)
    (set_queue (fun _ => [4; 5; 6; 7; 8; 9; 0]%Z) (init_state demo)) =
  Ret (set_queue (fun _ => [4; 5; 6; 7; 8; 0; 0]%Z) (init_state demo))
      [EvReport [27; 4; 5; 6; 7; 8]%Z 0; EvReport [4; 5; 6; 7; 8; 0]%Z 0].
Proof.
  apply (proj1 (press_release_round_trip demo
           (set_queue (fun _ => [4; 5; 6; 7; 8; 9; 0]%Z) (init_state demo))
           eq_refl eq_refl) 27%Z).
Defined.

(** ** The host is sent every change of the queue and of the modifiers *)

Lemma last_report_app t1 : forall d t2,
  last_report d (t1 ++ t2) = last_report (last_report d t1) t2.
Proof.
  induction t1 as [|e t1 IH]; intros d t2; [done|].
  destruct e; simpl; apply IH.
Qed.

Section Sync.

Variable cfg : config.

Lemma sync_rel_refl s : sync_rel s [] s.
Proof. done. Qed.

Lemma sync_rel_trans s1 t1 s2 t2 s3 :
  sync_rel s1 t1 s2 -> sync_rel s2 t2 s3 -> sync_rel s1 (t1 ++ t2) s3.
Proof. unfold sync_rel. intros H1 H2. by rewrite last_report_app, H1. Qed.

Lemma scan_key_sync fuel b k s :
  sat false sync_rel (scan_key cfg fuel b k) s.
Proof.
  apply scan_key_ok; [apply sync_rel_refl|apply sync_rel_trans|..];
    try (intros; unfold sat, mark, record_start, sync_rel, report_of;
         cmd_red; done).
  intros k0 s0 _ _. unfold sat, add_to_replay_buf, ifte, upd.
  by destruct (_ <? _).
Qed.

End Sync.

(** X3. Every change of the queue or of the modifier byte is
    transmitted: after any sequence of scan interrupts, the last report
    sent (the state at the start, if none was sent) carries the six slots
    and the modifier byte of the final state. *)
Theorem host_holds_current_report (cfg : config) (fuel : nat)
    (samples : list (nat -> bool)) (s s' : state) (t : list event) :
  run_cycles cfg fuel samples s = Ret s' t
  \/ run_cycles cfg fuel samples s = Halt s' t ->
  last_report (take 6 (queue s), mod_keys s) t = (take 6 (queue s'), mod_keys s').
Proof.
  intros Hrun.
  pose proof (run_cycles_sat false sync_rel sync_rel_refl sync_rel_trans
                cfg fuel (scan_key_sync cfg fuel) samples s) as Hsat.
  unfold sat in Hsat. by destruct Hrun as [E|E]; rewrite E in Hsat.
Qed.

Lemma host_holds_current_report_witness :
  exists s' t,
    run_cycles demo 1 shifted_chord (init_state demo) = Ret s' t
    /\ last_report (take 6 (queue (init_state demo)), mod_keys (init_state demo)) t
       = (take 6 (queue s'), mod_keys s')
    /\ (take 6 (queue s'), mod_keys s') = ([5; 0; 0; 0; 0; 0]%Z, 2%Z).
Proof.
  eexists _, _. split; [vm_compute; reflexivity|].
  split; [|vm_compute; reflexivity].
  apply (host_holds_current_report demo 1 shifted_chord (init_state demo)).
  left. vm_compute. reflexivity.
Defined.

(** ** The jump to the bootloader *)

Section Bootloader.

Variable cfg : config.
Hypothesis Hcfg : cfg_ok cfg.

Lemma replay_keypresses_Ret fuel s :
  length (key s) = NKEY cfg -> buf_ok cfg s -> recording_mode s = false ->
  exists s' t,
    (upd (set_magic_mode false) >>
     replay_keypresses cfg (key_press cfg (S fuel)) (key_release cfg)) s
    = Ret s' t
    /\ replaying cfg s'.
Proof.
  intros Hk Hb Hr.
  destruct (replay_loop_returns cfg Hcfg fuel 255 0
              (set_mod_keys (fun _ => 0%Z)
                 (set_queue clear_queue
                    (set_key (clear_keys cfg) (set_magic_mode false s)))))
    as (s' & t & E & Hs').
  { split; st_red; try done. by rewrite clear_keys_length. }
  unfold replay_keypresses.
  cbv beta iota delta [seq_cmd upd emit clear_pressed send] in *.
  st_red. rewrite E. eauto.
Qed.

(** [magic_key_press] runs its four tests in turn; only the last one
    can leave for the bootloader. *)
Lemma magic_key_press_end fuel k s :
  length (key s) = NKEY cfg -> buf_ok cfg s -> recording_mode s = false ->
  exists s3 t3,
    magic_key_press cfg
      (replay_keypresses cfg (key_press cfg (S fuel)) (key_release cfg)) k s
    = (if (value (layout_at cfg k) =? KEY_B cfg)%Z
       then Halt s3 (t3 ++ [EvBootloader]) else Ret s3 t3)
    /\ recording_mode s3 = false
    /\ magic_mode s3 =
       magic_mode s
       && negb (is_magic_key cfg k || (value (layout_at cfg k) =? KEY_R cfg)%Z).
Proof.
  intros Hk Hb Hr. unfold magic_key_press.
  assert (E1 : exists s1,
           when (fun _ => is_magic_key cfg k) (upd (set_magic_mode false)) s
           = Ret s1 []
           /\ length (key s1) = NKEY cfg /\ buf_ok cfg s1
           /\ recording_mode s1 = false
           /\ magic_mode s1 = magic_mode s && negb (is_magic_key cfg k)).
  { unfold when, ifte, upd, skip. destruct (is_magic_key cfg k);
      eexists; (split; [reflexivity|]); st_red; cbn [negb];
      by rewrite ?andb_true_r, ?andb_false_r. }
  destruct E1 as (s1 & E1 & Hk1 & Hb1 & Hr1 & Hm1).
  rewrite (seq_cmd_Ret _ _ _ _ _ E1).
  assert (E2 : exists s2 t2,
           when (value_is cfg k (KEY_X cfg))
             (ll_key_press (KEY_X cfg) >> ll_key_release (KEY_X cfg) >>
              ll_key_press (KEY_X cfg) >> ll_key_release (KEY_X cfg)) s1
           = Ret s2 t2
           /\ length (key s2) = NKEY cfg /\ buf_ok cfg s2
           /\ recording_mode s2 = false /\ magic_mode s2 = magic_mode s1).
  { cmd_red. destruct (_ =? _)%Z; eexists _, _; (split; [reflexivity|]);
      st_red; done. }
  destruct E2 as (s2 & t2 & E2 & Hk2 & Hb2 & Hr2 & Hm2).
  rewrite (seq_cmd_Ret _ _ _ _ _ E2).
  assert (E3 : exists s3 t3,
           when (value_is cfg k (KEY_R cfg))
             (upd (set_magic_mode false) >>
              replay_keypresses cfg (key_press cfg (S fuel)) (key_release cfg)) s2
           = Ret s3 t3
           /\ recording_mode s3 = false
           /\ magic_mode s3 =
              magic_mode s2 && negb (value (layout_at cfg k) =? KEY_R cfg)%Z).
  { unfold when, ifte, value_is, skip.
    destruct (_ =? _)%Z.
    - destruct (replay_keypresses_Ret fuel s2 Hk2 Hb2 Hr2)
        as (s3 & t3 & E3 & [_ _ Hm3 Hr3]).
      exists s3, t3. cbn [negb]. rewrite andb_false_r.
      split; [exact E3|]. split; [exact Hr3|exact Hm3].
    - exists s2, []. cbn [negb]. rewrite andb_true_r.
      split; [reflexivity|]. split; [exact Hr2|reflexivity]. }
  destruct E3 as (s3 & t3 & E3 & Hr3 & Hm3).
  rewrite (seq_cmd_Ret _ _ _ _ _ E3).
  exists s3, (t2 ++ t3).
  split; [|split; [done|]].
  - unfold when, ifte, value_is, jump_bootloader, skip.
    destruct (value (layout_at cfg k) =? KEY_B cfg)%Z; simpl;
      by rewrite ?app_nil_r, ?app_assoc.
  - rewrite Hm3, Hm2, Hm1.
    by destruct (magic_mode s), (is_magic_key cfg k),
      (value (layout_at cfg k) =? KEY_R cfg)%Z.
Qed.

Lemma key_press_halts fuel k s s' t :
  inv cfg s -> k < NKEY cfg -> key_pressed k s = false ->
  key_press cfg (S (S fuel)) k s = Halt s' t <->
  magic_mode s = true /\ value (layout_at cfg k) = KEY_B cfg
  /\ exists t0, key_press cfg (S (S fuel)) k s = Halt s' (EvKeyPress k :: t0 ++ [EvBootloader])
                /\ t = EvKeyPress k :: t0 ++ [EvBootloader].
Proof.
  intros [Hsafe Hbuf Hmu] Hk Hp.
  pose proof (in_range_lt cfg k s Hcfg (safe_key _ _ Hsafe) Hk) as Hr.
  split; [|by intros (_ & _ & t0 & E & ->)].
  destruct (magic_mode s) eqn:Hm.
  - pose proof (safe_modes _ _ Hsafe Hm) as Hrec.
    set (s1 := set_key (alter (set_pressed true) k) s).
    destruct (magic_key_press_end fuel k s1) as (s3 & t3 & E & _).
    { unfold s1. st_red. by rewrite length_alter, (safe_key _ _ Hsafe). }
    { by eapply buf_ok_ext. }
    { done. }
    rewrite (key_press_magic_eq cfg (S fuel) k s Hr Hm). fold s1. rewrite E.
    destruct (_ =? _)%Z eqn:HB; [|done].
    apply Z.eqb_eq in HB. intros [= <- <-]. eauto.
  - intros E. exfalso. revert E.
    destruct (is_magic_key cfg k) eqn:Hmk.
    + cbn [key_press]. unfold guard. rewrite Hr. cmd_red. st_red.
      rewrite Hm, Hmk. by destruct (recording_mode s).
    + destruct (key_press_normal cfg (S fuel) k s Hr Hm Hmk) as (s2 & r & -> & _).
      done.
Qed.

End Bootloader.

Lemma seq_cmd_Halt_l (c1 c2 : cmd) s s' t :
  c1 s = Halt s' t -> (c1 >> c2) s = Halt s' t.
Proof. unfold seq_cmd. by intros ->. Qed.

(** X4. From a reachable state, the scan of a key jumps to the
    bootloader exactly when magic mode is on and the debounced press of a
    key whose code is [KEY_B] is detected; the jump is then the last event.
    Replay, release edges and edges outside magic mode never jump. *)
Theorem bootloader_only_on_command (cfg : config) (fuel : nat) (b : bool)
    (k : nat) (s : state) :
  cfg_ok cfg -> reachable cfg s -> k < NKEY cfg ->
  (forall s' t,
     scan_key cfg fuel b k s = Halt s' t ->
     magic_mode s = true
     /\ value (layout_at cfg k) = KEY_B cfg
     /\ or_sample b (key_bounce k s) = 127%Z
     /\ key_pressed k s = false
     /\ exists t0, t = EvKeyPress k :: t0 ++ [EvBootloader])
  /\ (magic_mode s = true -> value (layout_at cfg k) = KEY_B cfg ->
      or_sample b (key_bounce k s) = 127%Z -> key_pressed k s = false ->
      exists s' t, scan_key cfg (S (S fuel)) b k s = Halt s' t).
Proof.
  intros Hcfg Hs Hk.
  pose proof (reachable_inv cfg Hcfg s Hs) as Hinv.
  set (s1 := set_key (alter (set_bounce (or_sample b)) k) s).
  assert (Hinv1 : inv cfg s1) by (by apply inv_set_bounce).
  assert (Hlen : k < length (key s))
    by (by rewrite (safe_key _ _ (inv_safe _ _ Hinv))).
  assert (Hb1 : key_bounce k s1 = or_sample b (key_bounce k s)).
  { unfold s1. rewrite key_bounce_set_bounce. by destruct (decide _) as [_|[]]. }
  assert (Hp1 : key_pressed k s1 = key_pressed k s)
    by apply key_pressed_set_bounce.
  split.
  - intros s' t E.
    destruct (scan_key_fuel_le cfg fuel (S (S fuel)) b k s) as [H|H]; [lia|..].
    { rewrite E in H. discriminate. }
    rewrite E in H. symmetry in H. clear E. revert H.
    rewrite scan_key_eq. fold s1.
    destruct (press_cond k s1) eqn:Hpc; [|destruct (release_cond k s1) eqn:Hrc].
    + apply andb_true_iff in Hpc as [Hreg Hp].
      apply negb_true_iff in Hp. apply Z.eqb_eq in Hreg.
      destruct (key_press_returns cfg Hcfg fuel k s1 Hinv1 Hk Hp)
        as (s2 & t2 & [[E2 _]|E2]).
      * rewrite (seq_cmd_Ret _ _ _ _ _ E2). done.
      * rewrite (seq_cmd_Halt_l _ _ _ _ _ E2). intros [= <- <-].
        apply (key_press_halts cfg Hcfg fuel k s1 s2 t2 Hinv1 Hk Hp) in E2
          as (Hm & HB & t0 & _ & ->).
        repeat split; try done; [congruence..|by exists t0].
    + apply andb_true_iff in Hrc as [_ Hp].
      destruct (key_release_returns cfg Hcfg k s1 Hinv1 Hk Hp) as (s2 & t2 & E2 & _).
      rewrite (seq_cmd_Ret _ _ _ _ _ E2). done.
    + done.
  - intros Hm HB Hreg Hp. rewrite scan_key_eq. fold s1.
    assert (Hpc : press_cond k s1 = true).
    { unfold press_cond. rewrite Hb1, Hp1, Hreg, Hp. done. }
    rewrite Hpc.
    assert (Hp1' : key_pressed k s1 = false) by congruence.
    destruct (key_press_returns cfg Hcfg fuel k s1 Hinv1 Hk Hp1')
      as (s2 & t2 & [[E2 _]|E2]).
    + exfalso.
      pose proof (in_range_lt cfg k s1 Hcfg (safe_key _ _ (inv_safe _ _ Hinv1)) Hk) as Hr.
      rewrite (key_press_magic_eq cfg (S fuel) k s1 Hr Hm) in E2.
      set (s1' := set_key (alter (set_pressed true) k) s1) in E2.
      destruct (magic_key_press_end cfg Hcfg fuel k s1') as (s3 & t3 & E & _).
      { unfold s1'. st_red. by rewrite length_alter, (safe_key _ _ (inv_safe _ _ Hinv1)). }
      { eapply buf_ok_ext; [| |apply (inv_buf _ _ Hinv1)]; done. }
      { apply (safe_modes _ _ (inv_safe _ _ Hinv1)). done. }
      rewrite E, HB, Z.eqb_refl in E2. done.
    + exists s2, t2. by apply seq_cmd_Halt_l.
Qed.

Lemma bootloader_only_on_command_witness :
  exists s' t,
    scan_key demo 2 true 2 (state_after demo 1 magic_then_bootloader_key)
    = Halt s' t.
Proof.
  apply (proj2 (bootloader_only_on_command demo 0 true 2
                  (state_after demo 1 magic_then_bootloader_key)
                  cfg_ok_demo (reachable_state_after _ _ _)
                  ltac:(simpl; lia))); vm_compute; reflexivity.
Defined.

(** ** The mode automaton *)

(** X5. The mode automaton. In a reachable state, a press in
    magic mode leaves magic mode exactly for the magic key and for the
    replay key, and recording stays off; outside magic mode the magic key
    ends a recording or else enters magic mode, and any other key leaves
    the modes as they are, except that a recording ends when the buffer
    is full. A release in magic mode starts a recording exactly for the
    record key and changes no mode otherwise; outside magic mode it acts
    on the modes as the press of a normal key does. *)
Theorem mode_transitions (cfg : config) (fuel : nat) (k : nat) (s : state) :
  cfg_ok cfg -> reachable cfg s -> k < NKEY cfg ->
  (forall s' t,
     key_press cfg (S (S fuel)) k s = Ret s' t
     \/ key_press cfg (S (S fuel)) k s = Halt s' t ->
     magic_mode s' =
       (if magic_mode s
        then negb (is_magic_key cfg k || (value (layout_at cfg k) =? KEY_R cfg)%Z)
        else is_magic_key cfg k && negb (recording_mode s))
     /\ recording_mode s' =
        (if magic_mode s then false
         else if is_magic_key cfg k then false
         else recording_mode s && (replay_buf_len s + 1 <? 255)))
  /\ (forall s' t,
        key_release cfg k s = Ret s' t ->
        magic_mode s' =
          magic_mode s && negb (value (layout_at cfg k) =? KEY_Q cfg)%Z
        /\ recording_mode s' =
           (if magic_mode s then (value (layout_at cfg k) =? KEY_Q cfg)%Z
            else recording_mode s && (replay_buf_len s + 1 <? 255))).
Proof.
  intros Hcfg Hs Hk.
  destruct (reachable_inv cfg Hcfg s Hs) as [Hsafe Hbuf Hmu].
  pose proof (in_range_lt cfg k s Hcfg (safe_key _ _ Hsafe) Hk) as Hr.
  split.
  - intros s' t.
    destruct (magic_mode s) eqn:Hm.
    + pose proof (safe_modes _ _ Hsafe Hm) as Hrec.
      set (s1 := set_key (alter (set_pressed true) k) s).
      destruct (magic_key_press_end cfg Hcfg fuel k s1) as (s3 & t3 & E & Hr3 & Hm3).
      { unfold s1. st_red. by rewrite length_alter, (safe_key _ _ Hsafe). }
      { by eapply buf_ok_ext. }
      { done. }
      rewrite (key_press_magic_eq cfg (S fuel) k s Hr Hm). fold s1. rewrite E.
      change (magic_mode s1) with (magic_mode s) in Hm3. rewrite Hm in Hm3.
      cbn [andb] in Hm3.
      destruct (value (layout_at cfg k) =? KEY_B cfg)%Z;
        intros [[= <- _]|[= <- _]]; try done.
    + cbn [key_press]. unfold guard. rewrite Hr. cmd_red. st_red. rewrite Hm.
      destruct (is_magic_key cfg k); destruct (recording_mode s) eqn:Hrec;
        destruct (replay_buf_len s + 1 <? 255);
        destruct (IS_MODIFIER cfg (layout_at cfg k));
        intros [[= <- _]|[=]]; st_red; rewrite ?Hrec, ?Hm; try done.
  - intros s' t. unfold key_release, guard. rewrite Hr. cmd_red. st_red.
    destruct (magic_mode s) eqn:Hm.
    + pose proof (safe_modes _ _ Hsafe Hm) as Hrec.
      destruct (value (layout_at cfg k) =? KEY_Q cfg)%Z; intros [= <- _];
        st_red; rewrite ?Hrec, ?Hm; try done.
    + destruct (recording_mode s) eqn:Hrec;
        destruct (replay_buf_len s + 1 <? 255);
        destruct (IS_MODIFIER cfg (layout_at cfg k));
        intros [= <- _]; st_red; rewrite ?Hrec, ?Hm; try done.
Qed.

Lemma mode_transitions_witness :
  exists s' t,
    key_press demo 2 0 (init_state demo) = Ret s' t
    /\ magic_mode s' = true /\ recording_mode s' = false.
Proof.
  eexists _, _. split; [vm_compute; reflexivity|].
  apply (proj1 (mode_transitions demo 0 0 (init_state demo) cfg_ok_demo
                  (reach_init demo) ltac:(simpl; lia)) _ [EvKeyPress 0]).
  left. vm_compute. reflexivity.
Defined.

(** ** Replay decodes the buffer by the pressed flags *)

Lemma toggle_parity ks : forall held j,
  foldl toggle held ks j = xorb (held j) (Nat.odd (count_occ Nat.eq_dec ks j)).
Proof.
  induction ks as [|k ks IH]; intros held j.
  - simpl. by rewrite xorb_false_r.
  - simpl. rewrite IH. unfold toggle at 1.
    destruct (Nat.eq_dec k j) as [->|Hne].
    + rewrite Nat.eqb_refl, Nat.odd_succ, <- Nat.negb_odd.
      by destruct (held j), (Nat.odd _).
    + by rewrite (proj2 (Nat.eqb_neq j k)) by lia.
Qed.

Lemma decode_alternates es : forall held,
  alternates held es = true -> decode held (map snd es) = es.
Proof.
  induction es as [|[p k] es IH]; intros held H; [done|].
  simpl in *. apply andb_true_iff in H as [Hp Hes].
  apply Bool.eqb_prop in Hp. rewrite <- Hp. f_equal. by apply IH.
Qed.

Lemma decode_length ks : forall held, length (decode held ks) = length ks.
Proof. induction ks as [|k ks IH]; intros held; simpl; by rewrite ?IH. Qed.

Lemma play_cons cfg fuel e es s :
  play cfg fuel (e :: es) s = (deliver cfg fuel e >> play cfg fuel es) s.
Proof. reflexivity. Qed.

Section Replay.

Variable cfg : config.
Hypothesis Hcfg : cfg_ok cfg.
Variable fuel : nat.

Local Abbreviation kp := (key_press cfg (S fuel)).
Local Abbreviation kr := (key_release cfg).

Lemma replay_loop_decode : forall n i s held,
  replaying cfg s -> replay_buf_len s <= i + n ->
  (forall j, key_pressed j s = held j) ->
  let ks := drop i (take (replay_buf_len s) (replay_buf s)) in
  exists s' t,
    replay_loop kp kr n i s = Ret s' t
    /\ play cfg (S fuel) (decode held ks) s = Ret s' t
    /\ List.filter is_edge t = map edge_event (decode held ks)
    /\ length t = 2 * length ks
    /\ replaying cfg s'
    /\ replay_buf s' = replay_buf s /\ replay_buf_len s' = replay_buf_len s
    /\ length (queue s') = length (queue s)
    /\ forall j, key_pressed j s' = foldl toggle held ks j.
Proof.
  induction n as [|n IH]; intros i s held Hs Hn Hheld ks.
  - assert (Hks : ks = []).
    { unfold ks. apply drop_ge. rewrite length_take. lia. }
    rewrite Hks. exists s, []. simpl. by repeat (split; [done|]).
  - destruct (decide (i < replay_buf_len s)) as [Hi|Hi].
    2:{ assert (Hks : ks = []).
        { unfold ks. apply drop_ge. rewrite length_take. lia. }
        rewrite Hks. exists s, []. rewrite replay_loop_done by lia.
        simpl. by repeat (split; [done|]). }
    destruct (buf_ok_lookup cfg s i (rp_buf _ _ Hs) Hi) as [Hlt Hmk].
    set (k := replay_buf s !!! i) in *.
    assert (Hks : ks = k :: drop (S i) (take (replay_buf_len s) (replay_buf s))).
    { unfold ks. apply drop_S. rewrite lookup_take_lt by done.
      apply list_lookup_lookup_total_lt.
      destruct (rp_buf _ _ Hs) as [Hle _]. lia. }
    pose proof (in_range_lt cfg k s Hcfg (rp_key _ _ Hs) Hlt) as Hr.
    assert (Hklen : k < length (key s)) by (by rewrite (rp_key _ _ Hs)).
    rewrite replay_loop_step by done. fold k.
    rewrite Hks. cbn [decode]. rewrite play_cons. unfold deliver. cbn [fst snd].
    rewrite <- (Hheld k).
    destruct (key_pressed k s) eqn:Hp; cbn [negb].
    + destruct (key_release_normal cfg k s Hr (rp_magic _ _ Hs))
        as (s1 & r & E1 & Hrep & Hk1 & Hm1 & Hq1 & Hrec1 & _).
      destruct (Hrec1 (rp_rec _ _ Hs)) as (Hr1 & Hb1 & Hl1).
      assert (Hs1 : replaying cfg s1).
      { split; try done; [by rewrite Hk1, length_alter, (rp_key _ _ Hs)|].
        eapply buf_ok_ext; [..|apply (rp_buf _ _ Hs)]; done. }
      destruct (IH (S i) s1 (toggle held k) Hs1) as
        (s2 & t2 & E2 & Ep2 & Hf2 & Hlen2 & Hs2 & Hb2 & Hl2 & Hq2 & Hfl2).
      { lia. }
      { intros j. rewrite (key_pressed_alter j k false _ _ Hk1).
        unfold toggle. rewrite <- (Hheld k), Hp, <- Hheld.
        destruct (decide _) as [[-> _]|Hn'].
        - by rewrite Nat.eqb_refl.
        - destruct (Nat.eqb_spec j k) as [->|_]; [|done].
          exfalso. by apply Hn'. }
      rewrite Hb1, Hl1 in *.
      exists s2, ([EvKeyRelease k; r] ++ t2).
      rewrite !(seq_cmd_Ret _ _ _ _ _ E1), E2, Ep2.
      split; [done|]. split; [done|]. split.
      { cbn [app List.filter is_edge map edge_event fst snd].
        destruct r; try done. simpl. by rewrite Hf2. }
      split; [simpl; lia|]. split; [done|]. split; [congruence|].
      split; [congruence|]. split; [congruence|].
      intros j. by rewrite Hfl2.
    + destruct (key_press_normal cfg fuel k s Hr (rp_magic _ _ Hs) Hmk)
        as (s1 & r & E1 & Hrep & Hk1 & Hm1 & Hq1 & Hrec1 & _).
      destruct (Hrec1 (rp_rec _ _ Hs)) as (Hr1 & Hb1 & Hl1).
      assert (Hs1 : replaying cfg s1).
      { split; try done; [by rewrite Hk1, length_alter, (rp_key _ _ Hs)|].
        eapply buf_ok_ext; [..|apply (rp_buf _ _ Hs)]; done. }
      destruct (IH (S i) s1 (toggle held k) Hs1) as
        (s2 & t2 & E2 & Ep2 & Hf2 & Hlen2 & Hs2 & Hb2 & Hl2 & Hq2 & Hfl2).
      { lia. }
      { intros j. rewrite (key_pressed_alter j k true _ _ Hk1).
        unfold toggle. rewrite <- (Hheld k), Hp, <- Hheld.
        destruct (decide _) as [[-> _]|Hn'].
        - by rewrite Nat.eqb_refl.
        - destruct (Nat.eqb_spec j k) as [->|_]; [|done].
          exfalso. by apply Hn'. }
      rewrite Hb1, Hl1 in *.
      exists s2, ([EvKeyPress k; r] ++ t2).
      rewrite !(seq_cmd_Ret _ _ _ _ _ E1), E2, Ep2.
      split; [done|]. split; [done|]. split.
      { cbn [app List.filter is_edge map edge_event fst snd].
        destruct r; try done. simpl. by rewrite Hf2. }
      split; [simpl; lia|]. split; [done|]. split; [congruence|].
      split; [congruence|]. split; [congruence|].
      intros j. by rewrite Hfl2.
Qed.

End Replay.

(** X6. [replay_keypresses] clears the state, then delivers for
    the stored indices the edges that [decode] reads from them: the first,
    third, ... occurrence of an index is a press, the second, fourth, ...
    a release. Every edge comes with one report, the buffer and its length
    are left as they were, and a key is left pressed exactly when its
    index is stored an odd number of times. *)
Theorem replay_decodes_by_parity (cfg : config) (fuel : nat) (s : state) :
  cfg_ok cfg -> length (key s) = NKEY cfg -> length (queue s) = 7 ->
  buf_ok cfg s -> replay_buf_len s <= 255 ->
  magic_mode s = false -> recording_mode s = false ->
  let ks := take (replay_buf_len s) (replay_buf s) in
  exists s' t,
    replay_keypresses cfg (key_press cfg (S fuel)) (key_release cfg) s
      = Ret s' (EvClearPressed :: EvReport (replicate 6 0%Z) 0 :: t)
    /\ play cfg (S fuel) (decode (fun _ => false) ks) (cleared s) = Ret s' t
    /\ List.filter is_edge t = map edge_event (decode (fun _ => false) ks)
    /\ length t = 2 * length ks
    /\ replay_buf s' = replay_buf s /\ replay_buf_len s' = replay_buf_len s
    /\ forall j, key_pressed j s' = Nat.odd (count_occ Nat.eq_dec ks j).
Proof.
  intros Hcfg Hk Hq Hb Hlen Hm Hr ks.
  destruct (replay_loop_decode cfg Hcfg fuel 255 0 (cleared s) (fun _ => false))
    as (s' & t & E & Ep & Hf & Hl & _ & Hb' & Hl' & _ & Hfl).
  { split; try done. unfold cleared. st_red. by rewrite length_map. }
  { simpl. lia. }
  { intros j. apply key_pressed_cleared. }
  rewrite drop_0 in *. change (replay_buf_len (cleared s)) with (replay_buf_len s) in *.
  change (replay_buf (cleared s)) with (replay_buf s) in *. fold ks in Ep, Hf, Hl, Hfl.
  exists s', t. split.
  { unfold replay_keypresses.
    rewrite (seq_cmd_Ret _ _ _ _ _ (clear_pressed_eq cfg s Hk Hq)). by rewrite E. }
  repeat split; try done.
  intros j. by rewrite Hfl, toggle_parity.
Qed.

Lemma replay_decodes_by_parity_witness :
  exists s' t,
    replay_keypresses demo (key_press demo 1) (key_release demo)
      (set_replay_buf (fun _ => [1; 1] ++ replicate 253 0)
         (set_replay_buf_len 2 (init_state demo)))
    = Ret s' (EvClearPressed :: EvReport (replicate 6 0%Z) 0 :: t)
    /\ List.filter is_edge t = [EvKeyPress 1; EvKeyRelease 1].
Proof.
  destruct (replay_decodes_by_parity demo 0
              (set_replay_buf (fun _ => [1; 1] ++ replicate 253 0)
                 (set_replay_buf_len 2 (init_state demo))))
    as (s' & t & E & _ & Hf & _).
  - apply cfg_ok_demo.
  - reflexivity.
  - reflexivity.
  - split; [simpl; lia|]. simpl. repeat constructor.
  - simpl. lia.
  - reflexivity.
  - reflexivity.
  - exists s', t. split; [exact E|exact Hf].
Defined.

(** ** Recording a session and replaying it *)

Lemma map_pressed_alter b k (ks : list key_t) :
  map pressed (alter (set_pressed b) k ks) = alter (fun _ => b) k (map pressed ks).
Proof.
  apply list_eq. intros i. rewrite list_lookup_fmap.
  destruct (decide (i = k)) as [->|Hne].
  - rewrite !list_lookup_alter_eq, list_lookup_fmap. by destruct (ks !! k).
  - by rewrite !list_lookup_alter_ne, list_lookup_fmap.
Qed.

Lemma map_pressed_unpressed (s : state) :
  (forall j, key_pressed j s = false) ->
  map pressed (key s) = replicate (length (key s)) false.
Proof.
  intros H. apply list_eq. intros i. rewrite list_lookup_fmap.
  specialize (H i). unfold key_pressed in H.
  destruct (key s !! i) as [e|] eqn:E; simpl.
  - rewrite lookup_replicate_2; [by rewrite H|]. by eapply lookup_lt_Some.
  - symmetry. apply lookup_replicate_None. apply lookup_ge_None in E. lia.
Qed.

Lemma deliver_same cfg fuel e s a :
  same_keys s a -> in_range cfg e.2 s = true -> is_magic_key cfg e.2 = false ->
  exists s' a' t,
    deliver cfg (S fuel) e s = Ret s' t
    /\ deliver cfg (S fuel) e a = Ret a' t
    /\ same_keys s' a'
    /\ length (key s') = length (key s).
Proof.
  intros (Hkeys & Hq & Hmods & Hm & Hma) Hr Hmk.
  assert (Hlen : length (key a) = length (key s)).
  { by rewrite <- (length_map pressed (key a)), <- Hkeys, length_map. }
  assert (Hra : in_range cfg e.2 a = true)
    by (by rewrite (in_range_ext cfg _ a s)).
  destruct e as [p k]. unfold deliver, same_keys. cbn [fst snd] in *.
  destruct p.
  - cbn [key_press]. unfold guard. rewrite Hr, Hra. cmd_red. st_red.
    rewrite Hm, Hma, Hmk.
    destruct (recording_mode s), (recording_mode a),
      (replay_buf_len s + 1 <? 255), (replay_buf_len a + 1 <? 255),
      (IS_MODIFIER cfg (layout_at cfg k));
      st_norm; rewrite ?Hq, ?Hmods;
      eexists _, _, _; (split; [reflexivity|]); (split; [reflexivity|]);
      st_red; rewrite !map_pressed_alter, Hkeys, length_alter; done.
  - unfold key_release, guard. rewrite Hr, Hra. cmd_red. st_red.
    rewrite Hm, Hma.
    destruct (recording_mode s), (recording_mode a),
      (replay_buf_len s + 1 <? 255), (replay_buf_len a + 1 <? 255),
      (IS_MODIFIER cfg (layout_at cfg k));
      st_norm; rewrite ?Hq, ?Hmods;
      eexists _, _, _; (split; [reflexivity|]); (split; [reflexivity|]);
      st_red; rewrite !map_pressed_alter, Hkeys, length_alter; done.
Qed.

Lemma same_keys_fresh cfg (s s2 : state) :
  length (key s) = NKEY cfg -> length (key s2) = NKEY cfg ->
  queue s = replicate 7 0%Z -> mod_keys s = 0%Z ->
  (forall j, key_pressed j s = false) -> magic_mode s = false ->
  magic_mode s2 = false ->
  same_keys s (cleared s2).
Proof.
  intros Hk Hk2 Hq Hmods Hup Hm Hm2.
  split; [|by rewrite Hq, Hmods].
  rewrite (map_pressed_unpressed s Hup).
  rewrite (map_pressed_unpressed (cleared s2))
    by (intros; apply key_pressed_cleared).
  unfold cleared. st_red. rewrite length_map. congruence.
Qed.

Section Session.

Variable cfg : config.
Hypothesis Hcfg : cfg_ok cfg.
Variable fuel : nat.

Lemma play_same es : forall s a,
  same_keys s a -> length (key s) = NKEY cfg ->
  Forall (fun e => e.2 < NKEY cfg /\ is_magic_key cfg e.2 = false) es ->
  exists s' a' t,
    play cfg (S fuel) es s = Ret s' t
    /\ play cfg (S fuel) es a = Ret a' t.
Proof.
  induction es as [|e es IH]; intros s a Hsa Hk Hes.
  - by exists s, a, [].
  - inversion Hes as [|? ? [Hlt Hmk] Hes']; subst.
    destruct (deliver_same cfg fuel e s a Hsa) as (s1 & a1 & t1 & E1 & Ea1 & Hsa1 & Hk1);
      [by apply in_range_lt|done|].
    destruct (IH s1 a1 Hsa1) as (s2 & a2 & t2 & E2 & Ea2); [congruence|done|].
    exists s2, a2, (t1 ++ t2).
    by rewrite !play_cons, (seq_cmd_Ret _ _ _ _ _ E1), (seq_cmd_Ret _ _ _ _ _ Ea1),
      E2, Ea2.
Qed.

Lemma play_records es : forall s,
  length (key s) = NKEY cfg -> length (replay_buf s) = 255 ->
  magic_mode s = false -> recording_mode s = true ->
  replay_buf_len s + length es <= 254 ->
  Forall (fun e => e.2 < NKEY cfg /\ is_magic_key cfg e.2 = false) es ->
  exists s' t,
    play cfg (S fuel) es s = Ret s' t
    /\ List.filter is_edge t = map edge_event es
    /\ replay_buf_len s' = replay_buf_len s + length es
    /\ take (replay_buf_len s') (replay_buf s')
       = take (replay_buf_len s) (replay_buf s) ++ map snd es
    /\ length (replay_buf s') = 255
    /\ recording_mode s' = true /\ magic_mode s' = false
    /\ length (key s') = NKEY cfg /\ length (queue s') = length (queue s).
Proof.
  induction es as [|e es IH]; intros s Hk Hb Hm Hrec Hlen Hes.
  - exists s, []. simpl. rewrite Nat.add_0_r, app_nil_r. done.
  - inversion Hes as [|? ? [Hlt Hmk] Hes']; subst. simpl in Hlen.
    pose proof (in_range_lt cfg e.2 s Hcfg Hk Hlt) as Hr.
    assert (E1 : exists s1 r,
              deliver cfg (S fuel) e s = Ret s1 [edge_event e; r]
              /\ is_report r = true
              /\ length (queue s1) = length (queue s)
              /\ length (key s1) = NKEY cfg /\ magic_mode s1 = false
              /\ recording_mode s1 = true
              /\ replay_buf s1 = <[replay_buf_len s := e.2]> (replay_buf s)
              /\ replay_buf_len s1 = S (replay_buf_len s)).
    { destruct e as [[] k]; unfold deliver, edge_event; cbn [fst snd] in *.
      - destruct (key_press_normal cfg fuel k s Hr Hm Hmk)
          as (s1 & r & E1 & Hrep & Hk1 & Hm1 & Hq1 & _ & Hrec1).
        destruct (Hrec1 Hrec) as (? & ? & ?); [lia|].
        exists s1, r. repeat split; try done. by rewrite Hk1, length_alter.
      - destruct (key_release_normal cfg k s Hr Hm)
          as (s1 & r & E1 & Hrep & Hk1 & Hm1 & Hq1 & _ & Hrec1).
        destruct (Hrec1 Hrec) as (? & ? & ?); [lia|].
        exists s1, r. repeat split; try done. by rewrite Hk1, length_alter. }
    destruct E1 as (s1 & r & E1 & Hrep & Hq1 & Hk1 & Hm1 & Hrec1 & Hb1 & Hl1).
    destruct (IH s1)
      as (s2 & t2 & E2 & Hf2 & Hl2 & Ht2 & Hb2 & Hrec2 & Hm2 & Hk2 & Hq2);
      try done; [by rewrite Hb1, length_insert|lia|].
    exists s2, ([edge_event e; r] ++ t2).
    rewrite play_cons, (seq_cmd_Ret _ _ _ _ _ E1), E2.
    split; [done|]. split.
    { cbn [app List.filter map]. destruct r; try done.
      destruct e as [[] k]; cbn; by rewrite Hf2. }
    split; [simpl; lia|]. split; [|repeat (split; [done|]); congruence].
    rewrite Ht2, Hl1, Hb1.
    rewrite (take_S_r _ _ e.2) by (apply list_lookup_insert_eq; lia).
    rewrite take_insert_ge by lia. by rewrite <- app_assoc.
Qed.

End Session.

Lemma replay_of_recorded (cfg : config) (fuel : nat) (es : list (bool * nat))
    (s2 : state) :
  cfg_ok cfg ->
  Forall (fun e => e.2 < NKEY cfg /\ is_magic_key cfg e.2 = false) es ->
  length es <= 254 -> alternates (fun _ => false) es = true ->
  replay_buf_len s2 = length es ->
  take (length es) (replay_buf s2) = map snd es ->
  length (replay_buf s2) = 255 ->
  length (key s2) = NKEY cfg -> length (queue s2) = 7 ->
  magic_mode s2 = false -> recording_mode s2 = false ->
  exists s3 t3,
    replay_keypresses cfg (key_press cfg (S fuel)) (key_release cfg) s2
    = Ret s3 (EvClearPressed :: EvReport (replicate 6 0%Z) 0 :: t3)
    /\ play cfg (S fuel) es (cleared s2) = Ret s3 t3.
Proof.
  intros Hcfg Hes Hlen Halt Hl2 Ht2 Hb2 Hk2 Hq2 Hm2 Hrec2.
  destruct (replay_loop_decode cfg Hcfg fuel 255 0 (cleared s2) (fun _ => false))
    as (s3 & t3 & E & Ep & _).
  { split; try done; [unfold cleared; st_red; by rewrite length_map|].
    unfold buf_ok. change (replay_buf_len (cleared s2)) with (replay_buf_len s2).
    change (replay_buf (cleared s2)) with (replay_buf s2).
    rewrite Hl2, Ht2, Hb2. split; [lia|].
    apply Forall_fmap. eapply Forall_impl; [exact Hes|]. by intros e. }
  { change (replay_buf_len (cleared s2)) with (replay_buf_len s2). lia. }
  { intros j. apply key_pressed_cleared. }
  rewrite drop_0 in Ep.
  change (replay_buf_len (cleared s2)) with (replay_buf_len s2) in Ep.
  change (replay_buf (cleared s2)) with (replay_buf s2) in Ep.
  rewrite Hl2, Ht2, (decode_alternates _ _ Halt) in Ep.
  exists s3, t3. split; [|done].
  unfold replay_keypresses.
  rewrite (seq_cmd_Ret _ _ _ _ _ (clear_pressed_eq cfg s2 Hk2 Hq2)). by rewrite E.
Qed.

(** X7. Recording and replay round-trip. Edges of keys other
    than the magic key, at most 254 of them, alternating for each key from
    a press, are delivered in a state where a recording has just started:
    their key indices are stored in order, and a later replay of that
    buffer yields, after the clearing report, exactly the events of the
    recorded session, reports included. *)
Theorem record_replay_round_trip (cfg : config) (fuel : nat)
    (es : list (bool * nat)) (s : state) :
  cfg_ok cfg ->
  length (key s) = NKEY cfg -> length (replay_buf s) = 255 ->
  queue s = replicate 7 0%Z -> mod_keys s = 0%Z ->
  (forall j, key_pressed j s = false) ->
  magic_mode s = false -> recording_mode s = true -> replay_buf_len s = 0 ->
  Forall (fun e => e.2 < NKEY cfg /\ is_magic_key cfg e.2 = false) es ->
  length es <= 254 -> alternates (fun _ => false) es = true ->
  exists s1 t,
    play cfg (S fuel) es s = Ret s1 t
    /\ List.filter is_edge t = map edge_event es
    /\ replay_buf_len s1 = length es
    /\ take (length es) (replay_buf s1) = map snd es
    /\ recording_mode s1 = true
    /\ forall s2,
         replay_buf s2 = replay_buf s1 -> replay_buf_len s2 = replay_buf_len s1 ->
         length (key s2) = NKEY cfg -> length (queue s2) = 7 ->
         magic_mode s2 = false -> recording_mode s2 = false ->
         exists s3,
           replay_keypresses cfg (key_press cfg (S fuel)) (key_release cfg) s2
           = Ret s3 (EvClearPressed :: EvReport (replicate 6 0%Z) 0 :: t).
Proof.
  intros Hcfg Hk Hb Hq Hmods Hup Hm Hrec Hl0 Hes Hlen Halt.
  destruct (play_records cfg Hcfg fuel es s)
    as (s1 & t & E & Hf & Hl1 & Ht1 & Hb1 & Hrec1 & Hm1 & Hk1 & Hq1);
    try done; [lia|].
  rewrite Hl0 in Hl1, Ht1. simpl in Hl1, Ht1. rewrite Hl1 in Ht1.
  exists s1, t. repeat (split; [done|]).
  intros s2 Hb2 Hl2 Hk2 Hq2 Hm2 Hrec2.
  destruct (replay_of_recorded cfg fuel es s2) as (s3 & t3 & Erep & Ep);
    try done; try congruence.
  destruct (play_same cfg Hcfg fuel es s (cleared s2)) as (s1' & a' & t' & E' & Ea');
    try done.
  { by apply (same_keys_fresh cfg). }
  rewrite E in E'. injection E' as <- <-.
  rewrite Ep in Ea'. injection Ea' as <- <-.
  by exists s3.
Qed.

Lemma record_replay_round_trip_witness :
  exists s1 t,
    play demo 1 demo_edges (set_recording_mode true (init_state demo)) = Ret s1 t
    /\ List.filter is_edge t = [EvKeyPress 1; EvKeyRelease 1; EvKeyPress 2]
    /\ exists s3,
         replay_keypresses demo (key_press demo 1) (key_release demo)
           (set_recording_mode false s1)
         = Ret s3 (EvClearPressed :: EvReport (replicate 6 0%Z) 0 :: t).
Proof.
  destruct (record_replay_round_trip demo 0 demo_edges
              (set_recording_mode true (init_state demo)))
    as (s1 & t & E & Hf & Hl & Ht & Hrec & Hreplay).
  - apply cfg_ok_demo.
  - reflexivity.
  - reflexivity.
  - reflexivity.
  - reflexivity.
  - apply demo_all_up.
  - reflexivity.
  - reflexivity.
  - reflexivity.
  - apply demo_edges_ok.
  - simpl. lia.
  - reflexivity.
  - exists s1, t. split; [exact E|]. split; [exact Hf|].
    apply Hreplay; try reflexivity.
    + revert E. vm_compute. by intros [= <- _].
    + revert E. vm_compute. by intros [= <- _].
    + revert E. vm_compute. by intros [= <- _].
Defined.

(** ** A whole macro session *)

Lemma magic_key_press_replay cfg (replay : cmd) r s s' t :
  is_magic_key cfg r = false -> value (layout_at cfg r) = KEY_R cfg ->
  KEY_R cfg <> KEY_X cfg -> KEY_R cfg <> KEY_B cfg ->
  replay (set_magic_mode false s) = Ret s' t ->
  magic_key_press cfg replay r s = Ret s' t.
Proof.
  intros Hmk Hv HX HB E. unfold magic_key_press, when, ifte, value_is, skip.
  rewrite Hmk, Hv, Z.eqb_refl, !(proj2 (Z.eqb_neq _ _)) by done.
  cbv beta iota delta [seq_cmd upd]. rewrite E. simpl. by rewrite app_nil_r.
Qed.

(** X8. A whole macro session through the dispatcher: release
    of the record key in magic mode, the recorded edges, a tap of the
    magic key (it ends the recording), a second tap (it enters magic mode)
    and the press of the replay key. The replay repeats the events of the
    recorded edges, every edge with its report. *)
Theorem macro_session_replays_reports (cfg : config) (fuel : nat) (q m r : nat)
    (es : list (bool * nat)) (s : state) :
  cfg_ok cfg ->
  length (key s) = NKEY cfg -> length (replay_buf s) = 255 ->
  length (queue s) = 7 -> magic_mode s = true ->
  q < NKEY cfg -> m < NKEY cfg -> r < NKEY cfg ->
  value (layout_at cfg q) = KEY_Q cfg ->
  is_magic_key cfg m = true -> value (layout_at cfg m) <> KEY_Q cfg ->
  is_magic_key cfg r = false -> value (layout_at cfg r) = KEY_R cfg ->
  KEY_R cfg <> KEY_X cfg -> KEY_R cfg <> KEY_B cfg ->
  Forall (fun e => e.2 < NKEY cfg /\ is_magic_key cfg e.2 = false) es ->
  length es <= 254 -> alternates (fun _ => false) es = true ->
  exists s' t rep,
    macro_session cfg fuel q m r es s =
      Ret s' ([EvKeyRelease q; EvClearPressed; EvReport (replicate 6 0%Z) 0] ++ t ++
              [EvKeyPress m; EvKeyRelease m; rep; EvKeyPress m; EvKeyRelease m;
               EvKeyPress r; EvClearPressed; EvReport (replicate 6 0%Z) 0] ++ t)
    /\ List.filter is_edge t = map edge_event es
    /\ is_report rep = true.
Proof.
  intros Hcfg Hk Hb Hq Hm Hq_lt Hm_lt Hr_lt Hvq Hmk Hvm Hmkr Hvr HX HB Hes Hlen Halt.
  (* the release of the record key *)
  set (s0 := State (map (set_pressed false) (key s)) (replay_buf s) 0
                   (replicate 7 0%Z) 0 false true).
  assert (E0 : key_release cfg q s =
               Ret s0 [EvKeyRelease q; EvClearPressed; EvReport (replicate 6 0%Z) 0]).
  { unfold key_release, guard. rewrite (in_range_lt cfg q s Hcfg Hk Hq_lt).
    cmd_red. st_red. rewrite Hm, Hvq, Z.eqb_refl. st_norm.
    rewrite clear_keys_map by (by rewrite length_alter).
    by rewrite map_unpress_alter, (clear_queue_replicate _ Hq). }
  (* the recorded edges *)
  assert (Hk0 : length (key s0) = NKEY cfg)
    by (unfold s0; st_red; by rewrite length_map).
  assert (Hup0 : forall j, key_pressed j s0 = false).
  { intros j. unfold key_pressed, s0. st_red. rewrite list_lookup_fmap.
    by destruct (key s !! j). }
  destruct (play_records cfg Hcfg fuel es s0 Hk0 Hb eq_refl eq_refl
              ltac:(simpl; lia) Hes)
    as (s1 & t & E1 & Hf & Hl1 & Ht1 & Hb1 & Hrec1 & Hm1 & Hk1 & Hq1).
  simpl in Hl1, Ht1. rewrite Hl1 in Ht1.
  (* the magic key ends the recording *)
  set (s2 := set_recording_mode false (set_key (alter (set_pressed true) m) s1)).
  assert (E2 : key_press cfg (S fuel) m s1 = Ret s2 [EvKeyPress m]).
  { cbn [key_press]. unfold guard. rewrite (in_range_lt cfg m s1 Hcfg Hk1 Hm_lt).
    cmd_red. st_red. by rewrite Hm1, Hmk, Hrec1. }
  assert (Hk2 : length (key s2) = NKEY cfg)
    by (unfold s2; st_red; by rewrite length_alter).
  destruct (key_release_normal cfg m s2)
    as (s3 & rep & E3 & Hrep & Hk3 & Hm3 & Hq3 & Hrec3 & _);
    [by apply in_range_lt|done|].
  destruct (Hrec3 eq_refl) as (Hr3 & Hb3 & Hl3).
  assert (Hk3' : length (key s3) = NKEY cfg) by (by rewrite Hk3, length_alter).
  (* the magic key enters magic mode *)
  set (s4 := set_magic_mode true (set_key (alter (set_pressed true) m) s3)).
  assert (E4 : key_press cfg (S fuel) m s3 = Ret s4 [EvKeyPress m]).
  { cbn [key_press]. unfold guard. rewrite (in_range_lt cfg m s3 Hcfg Hk3' Hm_lt).
    cmd_red. st_red. by rewrite Hm3, Hmk, Hr3. }
  assert (Hk4 : length (key s4) = NKEY cfg)
    by (unfold s4; st_red; by rewrite length_alter).
  set (s5 := set_key (alter (set_pressed false) m) s4).
  assert (E5 : key_release cfg m s4 = Ret s5 [EvKeyRelease m]).
  { unfold key_release, guard. rewrite (in_range_lt cfg m s4 Hcfg Hk4 Hm_lt).
    cmd_red. st_red. by rewrite (proj2 (Z.eqb_neq _ _) Hvm). }
  assert (Hk5 : length (key s5) = NKEY cfg)
    by (unfold s5; st_red; by rewrite length_alter).
  (* the replay key *)
  set (s6 := set_magic_mode false (set_key (alter (set_pressed true) r) s5)).
  assert (Hk6 : length (key s6) = NKEY cfg)
    by (unfold s6; st_red; by rewrite length_alter).
  assert (Hl6 : replay_buf_len s6 = length es)
    by (unfold s6, s5, s4; st_red; by rewrite Hl3).
  assert (Hb6 : replay_buf s6 = replay_buf s1)
    by (unfold s6, s5, s4; st_red; by rewrite Hb3).
  assert (Hq6 : length (queue s6) = 7).
  { unfold s6, s5, s4. st_red. rewrite Hq3. unfold s2. st_red. by rewrite Hq1. }
  assert (Hr6 : recording_mode s6 = false)
    by (unfold s6, s5, s4; st_red; exact Hr3).
  destruct (replay_of_recorded cfg fuel es s6 Hcfg Hes Hlen Halt Hl6)
    as (s7 & t7 & E7 & Ep7); try done; [by rewrite Hb6|by rewrite Hb6|].
  destruct (play_same cfg Hcfg fuel es s0 (cleared s6))
    as (s1' & a' & t' & E' & Ea'); try done.
  { by apply (same_keys_fresh cfg). }
  rewrite E1 in E'. injection E' as _ Ht'.
  rewrite Ep7 in Ea'. injection Ea' as _ Ht7.
  assert (Ht : t7 = t) by congruence.
  rewrite Ht in E7. clear Ht Ht7 Ht'.
  assert (E6 : key_press cfg (S (S fuel)) r s5 =
               Ret s7 (EvKeyPress r :: EvClearPressed
                       :: EvReport (replicate 6 0%Z) 0 :: t)).
  { rewrite (key_press_magic_eq cfg (S fuel) r s5
               (in_range_lt cfg r s5 Hcfg Hk5 Hr_lt) eq_refl).
    by rewrite (magic_key_press_replay cfg _ r _ s7 _ Hmkr Hvr HX HB E7). }
  exists s7, t, rep. split; [|done].
  unfold macro_session.
  rewrite (seq_cmd_Ret _ _ _ _ _ E0), (seq_cmd_Ret _ _ _ _ _ E1),
    (seq_cmd_Ret _ _ _ _ _ E2), (seq_cmd_Ret _ _ _ _ _ E3),
    (seq_cmd_Ret _ _ _ _ _ E4), (seq_cmd_Ret _ _ _ _ _ E5), E6.
  reflexivity.
Qed.

Lemma macro_session_replays_reports_witness :
  exists s' t rep,
    macro_session demo 0 3 0 4 demo_edges (set_magic_mode true (init_state demo))
    = Ret s' ([EvKeyRelease 3; EvClearPressed; EvReport (replicate 6 0%Z) 0] ++ t ++
              [EvKeyPress 0; EvKeyRelease 0; rep; EvKeyPress 0; EvKeyRelease 0;
               EvKeyPress 4; EvClearPressed; EvReport (replicate 6 0%Z) 0] ++ t)
    /\ List.filter is_edge t = map edge_event demo_edges
    /\ is_report rep = true.
Proof.
  apply (macro_session_replays_reports demo 0 3 0 4 demo_edges
           (set_magic_mode true (init_state demo)) cfg_ok_demo);
    try reflexivity; try discriminate; try (simpl; lia).
  apply demo_edges_ok.
Defined.

(** ** What the macro buffer holds *)

(** X9. In every reachable state the macro buffer has its 255
    cells and holds at most 254 entries, every entry is the index of a key
    of the matrix other than the magic key, and while recording no magic
    key is pressed. *)
Theorem macro_buffer_holds_normal_keys (cfg : config) (s : state) :
  cfg_ok cfg -> reachable cfg s ->
  replay_buf_len s <= 254 /\ length (replay_buf s) = 255
  /\ (forall i, i < replay_buf_len s ->
        replay_buf s !!! i < NKEY cfg
        /\ is_magic_key cfg (replay_buf s !!! i) = false)
  /\ (recording_mode s = true ->
      forall k, is_magic_key cfg k = true -> key_pressed k s = false).
Proof.
  intros Hcfg Hs. destruct (reachable_inv cfg Hcfg s Hs) as [Hsafe Hbuf Hmu].
  split; [apply (safe_len _ _ Hsafe)|]. split; [apply (safe_buf _ _ Hsafe)|].
  split; [|exact Hmu]. intros i Hi. by apply buf_ok_lookup.
Qed.

Lemma macro_buffer_holds_normal_keys_witness :
  replay_buf_len (state_after demo 2 record_a_tap) = 2
  /\ forall i, i < replay_buf_len (state_after demo 2 record_a_tap) ->
       replay_buf (state_after demo 2 record_a_tap) !!! i < NKEY demo
       /\ is_magic_key demo (replay_buf (state_after demo 2 record_a_tap) !!! i)
          = false.
Proof.
  split; [vm_compute; reflexivity|].
  apply (proj1 (proj2 (proj2
           (macro_buffer_holds_normal_keys demo _ cfg_ok_demo
              (reachable_state_after demo 2 record_a_tap))))).
Defined.

(** ** The two variants *)

Lemma seq_cmd_congr (c1 c1' c2 c2' : cmd) s :
  c1 s = c1' s ->
  (forall s1 t1, c1 s = Ret s1 t1 -> c2 s1 = c2' s1) ->
  (c1 >> c2) s = (c1' >> c2') s.
Proof.
  unfold seq_cmd. intros <- H.
  destruct (c1 s) as [s1 t1| | |]; try done. by rewrite (H s1 t1).
Qed.

Lemma key_press_reduced cfg fuel k s :
  recording_mode s = false ->
  (magic_mode s = true ->
   value (layout_at cfg k) <> KEY_R cfg /\ value (layout_at cfg k) <> KEY_B cfg) ->
  key_press cfg (S fuel) k s = Reduced.key_press cfg k s.
Proof.
  intros Hrec Hv. cbn [key_press]. unfold Reduced.key_press, guard.
  destruct (in_range cfg k s); [|done].
  unfold Reduced.magic_key_press. cmd_red. st_red. rewrite Hrec.
  destruct (magic_mode s) eqn:Hm.
  - destruct (Hv eq_refl) as [HR HB].
    rewrite !(proj2 (Z.eqb_neq _ _ ) HR), !(proj2 (Z.eqb_neq _ _) HB).
    destruct (is_magic_key cfg k), (value (layout_at cfg k) =? KEY_X cfg)%Z;
      st_red; by rewrite ?app_nil_r.
  - destruct (is_magic_key cfg k), (IS_MODIFIER cfg (layout_at cfg k)); done.
Qed.

Lemma key_release_reduced cfg k s :
  recording_mode s = false ->
  (magic_mode s = true -> value (layout_at cfg k) <> KEY_Q cfg) ->
  key_release cfg k s = Reduced.key_release cfg k s.
Proof.
  intros Hrec Hv. unfold key_release, Reduced.key_release, guard.
  destruct (in_range cfg k s); [|done].
  cmd_red. st_red. rewrite Hrec.
  destruct (magic_mode s) eqn:Hm.
  - by rewrite (proj2 (Z.eqb_neq _ _ ) (Hv eq_refl)).
  - by destruct (IS_MODIFIER cfg (layout_at cfg k)).
Qed.

Lemma macro_rel_refl s : macro_rel s [] s.
Proof. done. Qed.

Lemma macro_rel_trans s1 t1 s2 t2 s3 :
  macro_rel s1 t1 s2 -> macro_rel s2 t2 s3 -> macro_rel s1 (t1 ++ t2) s3.
Proof. unfold macro_rel. congruence. Qed.

Section Variants.

Variable cfg : config.

Local Ltac quiet := intros; unfold sat, macro_rel; cmd_red; done.

Lemma reduced_key_press_macro k s :
  sat false macro_rel (Reduced.key_press cfg k) s.
Proof.
  pose proof macro_rel_refl as Hrefl. pose proof macro_rel_trans as Htrans.
  unfold Reduced.key_press. apply sat_guard; [intros _|done].
  apply sat_seq; [done|quiet|intros ? ? _ _].
  apply sat_seq; [done|quiet|intros ? ? _ _].
  apply sat_ifte; intros _.
  - unfold Reduced.magic_key_press.
    apply sat_seq; [done| |intros ? ? _ _]; (apply sat_when; [done|quiet]).
  - apply sat_ifte; intros _; [quiet|]. apply sat_ifte; quiet.
Qed.

Lemma reduced_key_release_macro k s :
  sat false macro_rel (Reduced.key_release cfg k) s.
Proof.
  pose proof macro_rel_refl as Hrefl. pose proof macro_rel_trans as Htrans.
  unfold Reduced.key_release. apply sat_guard; [intros _|done].
  apply sat_seq; [done|quiet|intros ? ? _ _].
  apply sat_seq; [done|quiet|intros ? ? _ _].
  apply sat_ifte; intros _; [by apply sat_skip|]. apply sat_ifte; quiet.
Qed.

Lemma reduced_scan_key_macro b k s :
  sat false macro_rel (Reduced.scan_key cfg b k) s.
Proof.
  pose proof macro_rel_refl as Hrefl. pose proof macro_rel_trans as Htrans.
  unfold Reduced.scan_key.
  apply sat_seq; [done|quiet|intros ? ? _ _].
  apply sat_seq; [done| |intros ? ? _ _].
  { apply sat_when; [done|]. intros _. apply reduced_key_press_macro. }
  apply sat_seq; [done| |intros ? ? _ _; quiet].
  apply sat_when; [done|]. intros _. apply reduced_key_release_macro.
Qed.

Lemma reduced_scan_keys_macro sample ks : forall s,
  sat false macro_rel
    (foldr (fun k c => Reduced.scan_key cfg (sample k) k >> c) skip ks) s.
Proof.
  induction ks as [|k ks IH]; intros s; [done|].
  simpl. apply sat_seq; [apply macro_rel_trans|apply reduced_scan_key_macro|].
  intros. apply IH.
Qed.

Lemma reduced_run_cycles_macro samples : forall s,
  sat false macro_rel (Reduced.run_cycles cfg samples) s.
Proof.
  induction samples as [|f rest IH]; intros s; [done|].
  simpl. apply sat_seq; [apply macro_rel_trans|apply reduced_scan_keys_macro|].
  intros. apply IH.
Qed.

Hypothesis Hkeys : no_macro_keys cfg.
Variable fuel : nat.

Lemma scan_key_reduced b k s :
  k < NKEY cfg -> recording_mode s = false ->
  scan_key cfg (S fuel) b k s = Reduced.scan_key cfg b k s.
Proof.
  intros Hk Hrec. destruct (Hkeys k Hk) as (HR & HB & HQ).
  unfold scan_key, Reduced.scan_key.
  apply seq_cmd_congr; [done|]. intros s1 t1 [= <- <-].
  apply seq_cmd_congr.
  { unfold when, ifte. destruct (press_cond k _); [|done].
    by apply key_press_reduced. }
  intros s2 t2 E2.
  apply seq_cmd_congr; [|done].
  unfold when, ifte. destruct (release_cond k s2); [|done].
  apply key_release_reduced; [|done].
  assert (Hsat : sat false macro_rel
            (when (press_cond k) (Reduced.key_press cfg k))
            (set_key (alter (set_bounce (or_sample b)) k) s)).
  { apply sat_when; [apply macro_rel_refl|]. intros _.
    apply reduced_key_press_macro. }
  assert (E2' : when (press_cond k) (Reduced.key_press cfg k)
                  (set_key (alter (set_bounce (or_sample b)) k) s) = Ret s2 t2).
  { rewrite <- E2. unfold when, ifte. destruct (press_cond k _); [|done].
    symmetry. by apply key_press_reduced. }
  pose proof (sat_Ret _ _ _ _ _ _ Hsat E2') as Hmac.
  unfold macro_rel, macro_state in Hmac. st_red_in Hmac. congruence.
Qed.

Lemma scan_keys_reduced sample ks : forall s,
  Forall (fun k => k < NKEY cfg) ks -> recording_mode s = false ->
  foldr (fun k c => scan_key cfg (S fuel) (sample k) k >> c) skip ks s
  = foldr (fun k c => Reduced.scan_key cfg (sample k) k >> c) skip ks s.
Proof.
  induction ks as [|k ks IH]; intros s Hks Hrec; [done|].
  inversion Hks as [|? ? Hk Hks']; subst. simpl.
  apply seq_cmd_congr; [by apply scan_key_reduced|].
  intros s1 t1 E1. apply IH; [done|].
  rewrite scan_key_reduced in E1 by done.
  pose proof (sat_Ret _ _ _ _ _ _ (reduced_scan_key_macro (sample k) k s) E1) as Hmac.
  unfold macro_rel, macro_state in Hmac. congruence.
Qed.

Lemma run_cycles_reduced samples : forall s,
  recording_mode s = false ->
  run_cycles cfg (S fuel) samples s = Reduced.run_cycles cfg samples s.
Proof.
  assert (Hall : Forall (fun k => k < NKEY cfg) (seq 0 (NKEY cfg))).
  { apply Forall_forall. intros k Hk. apply elem_of_seq in Hk. lia. }
  induction samples as [|f rest IH]; intros s Hrec; [done|].
  simpl. apply seq_cmd_congr; [by apply scan_keys_reduced|].
  intros s1 t1 E1. apply IH.
  unfold scan_cycle in E1. rewrite scan_keys_reduced in E1 by done.
  pose proof (sat_Ret _ _ _ _ _ _ (reduced_scan_keys_macro f _ s) E1) as Hmac.
  unfold macro_rel, macro_state in Hmac. congruence.
Qed.

End Variants.

(** X10. The variant with macros extends the reduced variant:
    outside recording mode, [key_press] and [key_release] of the two
    variants agree on every edge but the replay, bootloader and record
    commands of magic mode; on a keyboard without such keys, whole
    sequences of scan interrupts agree. The reduced variant never touches
    the macro buffer nor the recording flag. *)
Theorem variants_agree_without_macro_keys (cfg : config) :
  (forall fuel k s,
     recording_mode s = false ->
     (magic_mode s = true ->
      value (layout_at cfg k) <> KEY_R cfg /\ value (layout_at cfg k) <> KEY_B cfg) ->
     key_press cfg (S fuel) k s = Reduced.key_press cfg k s)
  /\ (forall k s,
        recording_mode s = false ->
        (magic_mode s = true -> value (layout_at cfg k) <> KEY_Q cfg) ->
        key_release cfg k s = Reduced.key_release cfg k s)
  /\ (forall fuel samples s,
        no_macro_keys cfg -> recording_mode s = false ->
        run_cycles cfg (S fuel) samples s = Reduced.run_cycles cfg samples s)
  /\ (forall samples s s' t,
        Reduced.run_cycles cfg samples s = Ret s' t ->
        replay_buf s' = replay_buf s /\ replay_buf_len s' = replay_buf_len s
        /\ recording_mode s' = recording_mode s).
Proof.
  repeat apply conj.
  - intros. by apply key_press_reduced.
  - intros. by apply key_release_reduced.
  - intros. by apply run_cycles_reduced.
  - intros samples s s' t E.
    pose proof (sat_Ret _ _ _ _ _ _ (reduced_run_cycles_macro cfg samples s) E) as H.
    unfold macro_rel, macro_state in H. by injection H as -> -> ->.
Qed.

Lemma variants_agree_without_macro_keys_witness :
  run_cycles plain 1 (replicate 8 (held_keys [0; 1])) (init_state plain)
  = Reduced.run_cycles plain (replicate 8 (held_keys [0; 1])) (init_state plain).
Proof.
  apply (proj1 (proj2 (proj2 (variants_agree_without_macro_keys plain)))).
  - apply no_macro_keys_plain.
  - reflexivity.
Defined.

(** ** Magic mode in the reduced variant *)

Lemma toggle_rel_refl cfg s : toggle_rel cfg s [] s.
Proof. unfold toggle_rel. simpl. by rewrite xorb_false_r. Qed.

Lemma toggle_rel_trans cfg s1 t1 s2 t2 s3 :
  toggle_rel cfg s1 t1 s2 -> toggle_rel cfg s2 t2 s3 ->
  toggle_rel cfg s1 (t1 ++ t2) s3.
Proof.
  unfold toggle_rel, magic_presses. intros H1 H2.
  rewrite List.filter_app, length_app, Nat.odd_add, H2, H1.
  by rewrite xorb_assoc.
Qed.

Section ReducedMagic.

Variable cfg : config.

Lemma reduced_key_press_toggle k s :
  sat false (toggle_rel cfg) (Reduced.key_press cfg k) s.
Proof.
  unfold sat, Reduced.key_press, Reduced.magic_key_press, guard.
  destruct (in_range cfg k s); [|done].
  cmd_red. st_red. unfold toggle_rel, magic_presses.
  destruct (magic_mode s) eqn:Hm; destruct (is_magic_key cfg k) eqn:Hmk;
    [destruct (value (layout_at cfg k) =? KEY_X cfg)%Z..
    | |destruct (IS_MODIFIER cfg (layout_at cfg k))];
    st_red; cbn [app List.filter is_magic_press]; rewrite ?Hmk, ?Hm; done.
Qed.

Lemma reduced_key_release_toggle k s :
  sat false (toggle_rel cfg) (Reduced.key_release cfg k) s.
Proof.
  unfold sat, Reduced.key_release, guard.
  destruct (in_range cfg k s); [|done].
  cmd_red. st_red. unfold toggle_rel, magic_presses.
  destruct (magic_mode s) eqn:Hm;
    [|destruct (IS_MODIFIER cfg (layout_at cfg k))];
    st_red; cbn [app List.filter is_magic_press]; rewrite ?Hm; done.
Qed.

Lemma reduced_scan_key_toggle b k s :
  sat false (toggle_rel cfg) (Reduced.scan_key cfg b k) s.
Proof.
  pose proof (toggle_rel_refl cfg) as Hrefl.
  pose proof (toggle_rel_trans cfg) as Htrans.
  assert (Hb : forall f j s0,
            sat false (toggle_rel cfg) (upd (set_key (alter (set_bounce f) j))) s0).
  { intros. unfold sat, upd, toggle_rel. simpl. by rewrite xorb_false_r. }
  unfold Reduced.scan_key.
  apply sat_seq; [done|apply Hb|intros ? ? _ _].
  apply sat_seq; [done| |intros ? ? _ _].
  { apply sat_when; [done|]. intros _. apply reduced_key_press_toggle. }
  apply sat_seq; [done| |intros ? ? _ _; apply Hb].
  apply sat_when; [done|]. intros _. apply reduced_key_release_toggle.
Qed.

Lemma reduced_run_cycles_toggle samples : forall s,
  sat false (toggle_rel cfg) (Reduced.run_cycles cfg samples) s.
Proof.
  pose proof (toggle_rel_refl cfg) as Hrefl.
  pose proof (toggle_rel_trans cfg) as Htrans.
  assert (Hc : forall sample s,
            sat false (toggle_rel cfg) (Reduced.scan_cycle cfg sample) s).
  { intros sample. unfold Reduced.scan_cycle. generalize (seq 0 (NKEY cfg)) as ks.
    induction ks as [|j ks IH]; intros s; [by apply sat_skip|].
    simpl. apply sat_seq; [done|apply reduced_scan_key_toggle|]. auto. }
  induction samples as [|f rest IH]; intros s; [by apply sat_skip|].
  simpl. apply sat_seq; [done|apply Hc|]. auto.
Qed.

End ReducedMagic.

(** X11. In the reduced variant magic mode changes with the
    presses of the magic key and with nothing else: [key_press] flips it
    exactly for the magic key, [key_release] never changes it, and after
    any sequence of scan interrupts it has flipped once per press of a
    magic key in the trace. *)
Theorem reduced_magic_mode_toggles (cfg : config) :
  (forall k s s' t,
     Reduced.key_press cfg k s = Ret s' t ->
     magic_mode s' = xorb (magic_mode s) (is_magic_key cfg k))
  /\ (forall k s s' t,
        Reduced.key_release cfg k s = Ret s' t -> magic_mode s' = magic_mode s)
  /\ (forall samples s s' t,
        Reduced.run_cycles cfg samples s = Ret s' t ->
        magic_mode s' = xorb (magic_mode s) (Nat.odd (magic_presses cfg t))).
Proof.
  repeat apply conj.
  - intros k s s' t. unfold Reduced.key_press, Reduced.magic_key_press, guard.
    destruct (in_range cfg k s); [|done].
    cmd_red. st_red.
    destruct (magic_mode s) eqn:Hm; destruct (is_magic_key cfg k);
      [destruct (value (layout_at cfg k) =? KEY_X cfg)%Z..
      | |destruct (IS_MODIFIER cfg (layout_at cfg k))];
      intros [= <- _]; st_red; rewrite ?Hm; done.
  - intros k s s' t. unfold Reduced.key_release, guard.
    destruct (in_range cfg k s); [|done].
    cmd_red. st_red.
    destruct (magic_mode s) eqn:Hm;
      [|destruct (IS_MODIFIER cfg (layout_at cfg k))];
      intros [= <- _]; st_red; rewrite ?Hm; done.
  - intros samples s s' t E.
    apply (sat_Ret _ _ _ _ _ _ (reduced_run_cycles_toggle cfg samples s) E).
Qed.

Lemma reduced_magic_mode_toggles_witness :
  exists s' t,
    Reduced.run_cycles demo
      (replicate 8 (held_keys [0]) ++ replicate 8 (held_keys []) ++
       replicate 8 (held_keys [0])) (init_state demo) = Ret s' t
    /\ magic_presses demo t = 2
    /\ magic_mode s' = xorb (magic_mode (init_state demo)) (Nat.odd (magic_presses demo t)).
Proof.
  eexists _, _. split; [vm_compute; reflexivity|].
  split; [vm_compute; reflexivity|].
  apply (proj2 (proj2 (reduced_magic_mode_toggles demo))
           (replicate 8 (held_keys [0]) ++ replicate 8 (held_keys []) ++
            replicate 8 (held_keys [0])) (init_state demo)).
  vm_compute. reflexivity.
Defined.

(** ** The history registers follow the samples *)

Lemma bounces_alter_bounce f k s :
  bounces (set_key (alter (set_bounce f) k) s) = alter f k (bounces s).
Proof.
  unfold bounces. st_red. apply (list_fmap_alter bounce).
  by apply Forall_forall.
Qed.

Lemma scan_key_bounces cfg fuel b k s s' t :
  scan_key cfg fuel b k s = Ret s' t ->
  bounces s' = alter (bounce_step b) k (bounces s).
Proof.
  rewrite scan_key_eq.
  set (s1 := set_key (alter (set_bounce (or_sample b)) k) s).
  assert (Hfin : forall s2, bounces s2 = bounces s1 ->
            bounces (set_key (alter (set_bounce shl1) k) s2)
            = alter (bounce_step b) k (bounces s)).
  { intros s2 Hb2. rewrite bounces_alter_bounce, Hb2. unfold s1.
    rewrite bounces_alter_bounce. apply list_alter_alter_eq. }
  unfold seq_cmd, upd.
  destruct (press_cond k s1) eqn:Hpc; [|destruct (release_cond k s1) eqn:Hrc].
  - apply andb_true_iff in Hpc as [_ Hp]. apply negb_true_iff in Hp.
    pose proof (key_press_bounce cfg fuel k s1 Hp) as Hb.
    destruct (key_press cfg fuel k s1) as [s2 t2| | |] eqn:E; try done.
    intros [= <- _]. apply Hfin, (sat_Ret _ _ _ _ _ _ Hb E).
  - apply andb_true_iff in Hrc as [_ Hp].
    pose proof (key_release_bounce cfg k s1 Hp) as Hb.
    destruct (key_release cfg k s1) as [s2 t2| | |] eqn:E; try done.
    intros [= <- _]. apply Hfin, (sat_Ret _ _ _ _ _ _ Hb E).
  - intros [= <- _]. by apply Hfin.
Qed.

Lemma key_bounce_alter f j k s s' :
  bounces s' = alter f k (bounces s) ->
  key_bounce j s' =
  if decide (j = k /\ k < length (key s)) then f (key_bounce k s)
  else key_bounce j s.
Proof.
  intros H. rewrite !key_bounce_bounces, H.
  destruct (decide (j = k)) as [->|Hne].
  - rewrite list_lookup_alter_eq.
    destruct (decide (k = k /\ k < length (key s))) as [[_ Hlt]|Hn].
    + rewrite <- bounces_length in Hlt.
      destruct (lookup_lt_is_Some_2 _ _ Hlt) as [r ->]. done.
    + rewrite lookup_ge_None_2; [done|]. rewrite bounces_length. lia.
  - rewrite list_lookup_alter_ne by done.
    destruct (decide (j = k /\ k < length (key s))) as [[? _]|_]; done.
Qed.

Lemma scan_keys_bounces cfg fuel sample ks : forall s s' t,
  NoDup ks -> Forall (fun k => k < length (key s)) ks ->
  foldr (fun k c => scan_key cfg fuel (sample k) k >> c) skip ks s = Ret s' t ->
  length (key s') = length (key s)
  /\ forall k, key_bounce k s' =
       if decide (k ∈ ks) then bounce_step (sample k) (key_bounce k s)
       else key_bounce k s.
Proof.
  induction ks as [|k ks IH]; intros s s' t Hnd Hks E.
  - injection E as <- _. split; [done|]. intros k.
    destruct (decide (k ∈ [])) as [H|_]; [|done]. by apply elem_of_nil in H.
  - simpl in E. unfold seq_cmd in E.
    destruct (scan_key cfg fuel (sample k) k s) as [s1 t1| | |] eqn:E1; try done.
    destruct (foldr _ skip ks s1) as [s2 t2| | |] eqn:E2; try done.
    injection E as <- _.
    apply NoDup_cons in Hnd as [Hk Hnd].
    inversion Hks as [|? ? Hlt Hks']; subst.
    pose proof (scan_key_bounces _ _ _ _ _ _ _ E1) as Hb1.
    assert (Hlen1 : length (key s1) = length (key s)).
    { by rewrite <- !bounces_length, Hb1, length_alter. }
    destruct (IH s1 s2 t2 Hnd) as [Hlen2 Hreg]; [by rewrite Hlen1|done|].
    split; [congruence|]. intros j. rewrite Hreg.
    rewrite !(key_bounce_alter _ _ _ _ _ Hb1).
    destruct (decide (j = k)) as [->|Hne].
    + destruct (decide (k ∈ ks)) as [?|_]; [done|].
      destruct (decide (k ∈ k :: ks)) as [_|Hn]; [|by exfalso; apply Hn; left].
      by destruct (decide _) as [_|[]].
    + destruct (decide (j = k /\ _)) as [[? _]|_]; [done|].
      destruct (decide (j ∈ ks)) as [Hin|Hout].
      * destruct (decide (j ∈ k :: ks)) as [_|Hn]; [done|].
        exfalso. apply Hn. by right.
      * destruct (decide (j ∈ k :: ks)) as [Hin|_]; [|done].
        apply elem_of_cons in Hin as [?|?]; done.
Qed.

Lemma scan_cycle_bounces cfg fuel sample s s' t :
  length (key s) = NKEY cfg ->
  scan_cycle cfg fuel sample s = Ret s' t ->
  length (key s') = NKEY cfg
  /\ forall k, k < NKEY cfg ->
       key_bounce k s' = bounce_step (sample k) (key_bounce k s).
Proof.
  intros Hlen E.
  destruct (scan_keys_bounces cfg fuel sample (seq 0 (NKEY cfg)) s s' t)
    as [Hlen' Hreg]; [apply NoDup_seq| |done|].
  { apply Forall_forall. intros k Hk. apply elem_of_seq in Hk. lia. }
  split; [congruence|]. intros k Hk. rewrite Hreg.
  destruct (decide _) as [_|Hn]; [done|].
  exfalso. apply Hn. apply elem_of_seq. lia.
Qed.

(** X12. Whatever the dispatcher does with the edges, every scan
    interrupt shifts exactly one new sample into the history register of
    every key: after a sequence of interrupts the register of key [k] is
    the [history] of its own samples. *)
Theorem history_follows_samples (cfg : config) (fuel : nat)
    (samples : list (nat -> bool)) (s s' : state) (t : list event) :
  length (key s) = NKEY cfg ->
  run_cycles cfg fuel samples s = Ret s' t ->
  length (key s') = NKEY cfg
  /\ forall k, k < NKEY cfg ->
       key_bounce k s' = history (key_bounce k s) (map (fun sample => sample k) samples).
Proof.
  revert s s' t. induction samples as [|f rest IH]; intros s s' t Hlen E.
  - injection E as <- _. done.
  - simpl in E. unfold seq_cmd in E.
    destruct (scan_cycle cfg fuel f s) as [s1 t1| | |] eqn:E1; try done.
    destruct (run_cycles cfg fuel rest s1) as [s2 t2| | |] eqn:E2; try done.
    injection E as <- _.
    destruct (scan_cycle_bounces _ _ _ _ _ _ Hlen E1) as [Hlen1 Hreg1].
    destruct (IH _ _ _ Hlen1 E2) as [Hlen2 Hreg2].
    split; [done|]. intros k Hk. rewrite (Hreg2 k Hk), (Hreg1 k Hk). done.
Qed.

Lemma history_follows_samples_witness :
  exists s' t,
    run_cycles demo 1 (replicate 3 (held_keys [1])) (init_state demo) = Ret s' t
    /\ key_bounce 1 s' = history 0 [true; true; true]
    /\ key_bounce 1 s' = 14%Z.
Proof.
  eexists _, _. split; [vm_compute; reflexivity|].
  split; [|vm_compute; reflexivity].
  apply (proj2 (history_follows_samples demo 1 (replicate 3 (held_keys [1]))
                  (init_state demo) _ _ eq_refl
                  ltac:(vm_compute; reflexivity)) 1).
  simpl. lia.
Defined.

(** ** Seven samples decide *)

Lemma bounce_step_even_byte b r :
  byte (bounce_step b r) /\ Z.even (bounce_step b r) = true.
Proof.
  unfold bounce_step, shl1, byte. rewrite Z.shiftl_mul_pow2 by lia.
  split; [apply Z.mod_pos_bound; lia|].
  change (2 ^ 1)%Z with 2%Z. change 256%Z with (128 * 2)%Z.
  rewrite Z.mul_mod_distr_r by lia. rewrite Z.mul_comm. apply Z.even_mul.
Qed.

Lemma forallb_bool (f : bool -> bool) :
  forallb f [true; false] = true -> forall b, f b = true.
Proof. simpl. rewrite !andb_true_iff. intros (? & ? & _) []; done. Qed.

Lemma history_flush r b1 b2 b3 b4 b5 b6 b7 :
  byte r -> Z.even r = true ->
  history r [b1; b2; b3; b4; b5; b6; b7] = history 0 [b1; b2; b3; b4; b5; b6; b7].
Proof.
  intros Hr He.
  assert (Hall : forallb (fun n =>
            forallb (fun b1 => forallb (fun b2 => forallb (fun b3 =>
            forallb (fun b4 => forallb (fun b5 => forallb (fun b6 =>
            forallb (fun b7 =>
              (history (2 * Z.of_nat n) [b1; b2; b3; b4; b5; b6; b7]
               =? history 0 [b1; b2; b3; b4; b5; b6; b7])%Z)
            [true; false]) [true; false]) [true; false]) [true; false])
            [true; false]) [true; false]) [true; false]) (seq 0 128) = true).
  { vm_compute. reflexivity. }
  rewrite List.forallb_forall in Hall.
  specialize (Hall (Z.to_nat (r / 2))).
  assert (Hr2 : (2 * Z.of_nat (Z.to_nat (r / 2)))%Z = r).
  { unfold byte in Hr. rewrite Z2Nat.id by (apply Z.div_pos; lia).
    apply Zeven_bool_iff in He. symmetry. rewrite (Zeven_div2 r He) at 1.
    by rewrite Z.div2_div. }
  rewrite Hr2 in Hall.
  assert (Hin : In (Z.to_nat (r / 2)) (seq 0 128)).
  { apply in_seq. unfold byte in Hr.
    assert (0 <= r / 2 < 128)%Z by (split; [apply Z.div_pos|apply Z.div_lt_upper_bound]; lia).
    lia. }
  specialize (Hall Hin).
  pose proof (forallb_bool _ Hall b1) as H1. cbv beta in H1.
  pose proof (forallb_bool _ H1 b2) as H2. cbv beta in H2.
  pose proof (forallb_bool _ H2 b3) as H3. cbv beta in H3.
  pose proof (forallb_bool _ H3 b4) as H4. cbv beta in H4.
  pose proof (forallb_bool _ H4 b5) as H5. cbv beta in H5.
  pose proof (forallb_bool _ H5 b6) as H6. cbv beta in H6.
  pose proof (forallb_bool _ H6 b7) as H7. cbv beta in H7.
  by apply Z.eqb_eq in H7.
Qed.

(** X13. The history register depends on the last seven samples
    only. With the new sample in, it reads [0b01111111] exactly when the
    last seven samples are closed and the one before is open, and
    [0b10000000] exactly when the last seven are open and the one before
    is closed. *)
Theorem debounce_window (r : Z) (b0 b1 b2 b3 b4 b5 b6 b7 b : bool) :
  let reg := history r [b0; b1; b2; b3; b4; b5; b6; b7] in
  reg = history 0 [b1; b2; b3; b4; b5; b6; b7]
  /\ (or_sample b reg = 127%Z <->
      b1 = false /\ b2 = true /\ b3 = true /\ b4 = true /\ b5 = true
      /\ b6 = true /\ b7 = true /\ b = true)
  /\ (or_sample b reg = 128%Z <->
      b1 = true /\ b2 = false /\ b3 = false /\ b4 = false /\ b5 = false
      /\ b6 = false /\ b7 = false /\ b = false).
Proof.
  intros reg.
  assert (Hreg : reg = history 0 [b1; b2; b3; b4; b5; b6; b7]).
  { unfold reg. change (history r [b0; b1; b2; b3; b4; b5; b6; b7])
      with (history (bounce_step b0 r) [b1; b2; b3; b4; b5; b6; b7]).
    destruct (bounce_step_even_byte b0 r) as [Hb He].
    by apply history_flush. }
  split; [done|]. rewrite Hreg. clear.
  destruct b1, b2, b3, b4, b5, b6, b7, b; vm_compute;
    (split; split; intros H; repeat split; try done;
     try discriminate H; destruct H as (? & ? & ? & ? & ? & ? & ? & ?); done).
Qed.

(** ** Nothing happens before the seventh scan *)

Lemma or_sample_bound b r : (0 <= r -> 0 <= or_sample b r <= r + 1)%Z.
Proof.
  intros Hr. unfold or_sample.
  pose proof (Z.add_lor_land r (if b then 1 else 0)) as H.
  assert (0 <= Z.land r (if b then 1 else 0))%Z
    by (apply Z.land_nonneg; lia).
  assert (0 <= Z.lor r (if b then 1 else 0))%Z
    by (apply Z.lor_nonneg; destruct b; lia).
  destruct b; lia.
Qed.

Lemma bounce_step_bound b r m :
  (0 <= r <= m -> m <= 62 -> 0 <= bounce_step b r <= 2 * m + 2)%Z.
Proof.
  intros Hr Hm. pose proof (or_sample_bound b r) as Ho.
  unfold bounce_step, shl1. rewrite Z.shiftl_mul_pow2 by lia.
  change (2 ^ 1)%Z with 2%Z. rewrite Z.mod_small; lia.
Qed.

Lemma scan_key_silent cfg fuel b k s :
  key_pressed k s = false -> k < length (key s) ->
  or_sample b (key_bounce k s) <> 127%Z ->
  scan_key cfg fuel b k s =
  Ret (set_key (alter (set_bounce (bounce_step b)) k) s) [].
Proof.
  intros Hp Hk Hreg. rewrite scan_key_eq.
  set (s1 := set_key (alter (set_bounce (or_sample b)) k) s).
  assert (Hb1 : key_bounce k s1 = or_sample b (key_bounce k s)).
  { unfold s1. rewrite key_bounce_set_bounce. by destruct (decide _) as [_|[]]. }
  assert (Hp1 : key_pressed k s1 = false).
  { unfold s1. by rewrite key_pressed_set_bounce. }
  unfold press_cond, release_cond. rewrite Hb1, Hp1.
  rewrite (proj2 (Z.eqb_neq _ _) Hreg), andb_false_r. cbn [andb].
  unfold upd, s1, set_key. st_red. do 2 f_equal.
  rewrite list_alter_alter_eq. apply list_alter_ext; [|done].
  by intros [p r] _.
Qed.

Lemma same_but_keys_alter f k s s' :
  same_but_keys s s' -> same_but_keys s (set_key (alter f k) s').
Proof.
  unfold same_but_keys. intros H. rewrite H at 1. by destruct s.
Qed.

Lemma scan_keys_silent cfg fuel sample m : forall n i s,
  (0 <= m <= 62)%Z -> i + n <= length (key s) -> quiet_upto i m s ->
  exists s',
    foldr (fun k c => scan_key cfg fuel (sample k) k >> c) skip (seq i n) s
      = Ret s' []
    /\ quiet_upto (i + n) m s' /\ same_but_keys s s'
    /\ length (key s') = length (key s).
Proof.
  induction n as [|n IH]; intros i s Hm Hlen [Hup Hreg].
  - exists s. rewrite Nat.add_0_r. split; [done|]. split; [by split|].
    split; [by destruct s|done].
  - cbn [seq foldr].
    pose proof (Hreg i) as Hi. rewrite Nat.ltb_irrefl in Hi.
    pose proof (or_sample_bound (sample i) (key_bounce i s)) as Ho.
    rewrite (seq_cmd_Ret _ _ _ _ _ (scan_key_silent cfg fuel (sample i) i s
               (Hup i) ltac:(lia) ltac:(lia))).
    set (s1 := set_key (alter (set_bounce (bounce_step (sample i))) i) s).
    destruct (IH (S i) s1 Hm) as (s' & E & Hq & Hsame & Hlen').
    { unfold s1. st_red. rewrite length_alter. lia. }
    { split.
      - intros k. unfold s1. by rewrite key_pressed_set_bounce.
      - intros k. unfold s1. rewrite key_bounce_set_bounce.
        specialize (Hreg k).
        destruct (decide (k = i /\ _)) as [[-> _]|Hn].
        + rewrite (proj2 (Nat.ltb_lt i (S i))) by lia.
          apply bounce_step_bound; lia.
        + destruct (Nat.ltb_spec k i), (Nat.ltb_spec k (S i)); lia. }
    exists s'. rewrite E. split; [done|]. replace (i + S n) with (S i + n) by lia.
    split; [done|]. split.
    + unfold same_but_keys in *. rewrite Hsame at 1. unfold s1. by destruct s.
    + rewrite Hlen'. unfold s1. st_red. by rewrite length_alter.
Qed.

Lemma run_cycles_silent cfg fuel samples : forall m s,
  (0 <= m)%Z -> ((m + 2) * 2 ^ Z.of_nat (length samples) <= 128)%Z ->
  length (key s) = NKEY cfg -> quiet_upto 0 m s ->
  exists s',
    run_cycles cfg fuel samples s = Ret s' []
    /\ same_but_keys s s' /\ forall k, key_pressed k s' = false.
Proof.
  induction samples as [|f rest IH]; intros m s Hm0 Hm Hlen Hq.
  - exists s. repeat split; [by destruct s|apply Hq].
  - cbn [length] in Hm. rewrite Nat2Z.inj_succ, Z.pow_succ_r in Hm by lia.
    assert (0 < 2 ^ Z.of_nat (length rest))%Z by (apply Z.pow_pos_nonneg; lia).
    assert (Hm62 : (m <= 62)%Z) by nia.
    destruct (scan_keys_silent cfg fuel f m (NKEY cfg) 0 s) as (s1 & E1 & Hq1 & Hs1 & Hl1);
      [lia|lia|done|].
    destruct (IH (2 * m + 2)%Z s1) as (s2 & E2 & Hs2 & Hup2); [lia|nia|congruence| |].
    { destruct Hq1 as [Hup1 Hreg1]. split; [done|]. intros k.
      specialize (Hreg1 k). simpl in Hreg1. destruct (k <? NKEY cfg); simpl; lia. }
    exists s2. cbn [run_cycles]. unfold scan_cycle.
    rewrite (seq_cmd_Ret _ _ _ _ _ E1), E2. repeat split; [|done].
    unfold same_but_keys in *. rewrite Hs2 at 1. rewrite Hs1. by destruct s.
Qed.

(** X14. After [init], the first six scan interrupts emit
    nothing, whatever the contacts read: no edge, no report, and only the
    history registers change. *)
Theorem silent_before_seventh_scan (cfg : config) (fuel : nat)
    (samples : list (nat -> bool)) :
  length samples <= 6 ->
  exists s',
    run_cycles cfg fuel samples (init_state cfg) = Ret s' []
    /\ s' = set_key (fun _ => key s') (init_state cfg)
    /\ forall k, key_pressed k s' = false.
Proof.
  intros Hlen.
  apply (run_cycles_silent cfg fuel samples 0%Z (init_state cfg)); [lia| | |].
  - assert (2 ^ Z.of_nat (length samples) <= 2 ^ 6)%Z
      by (apply Z.pow_le_mono_r; lia).
    change (2 ^ 6)%Z with 64%Z in *. lia.
  - simpl. apply length_replicate.
  - split; intros k; unfold key_pressed, key_bounce; simpl;
      destruct (replicate (NKEY cfg) (Key false 0) !! k) as [e|] eqn:E;
      try done; apply lookup_replicate in E as [-> _]; simpl; try done; lia.
Qed.

Lemma silent_before_seventh_scan_witness :
  exists s',
    run_cycles demo 0 (replicate 6 (held_keys [1; 2])) (init_state demo)
    = Ret s' []
    /\ s' = set_key (fun _ => key s') (init_state demo)
    /\ forall k, key_pressed k s' = false.
Proof.
  apply (silent_before_seventh_scan demo 0 (replicate 6 (held_keys [1; 2]))).
  simpl. lia.
Defined.

(** ** Start-up *)

(** X15. [init] zeroes the modifier byte and the pressed flag and
    the history of every key, and nothing else; with the other statics at
    their initialisers the result is [init_state]. *)
Theorem init_resets_key_table (cfg : config) (s : state) :
  length (key s) = NKEY cfg ->
  init cfg s =
    Ret (State (replicate (NKEY cfg) (Key false 0)) (replay_buf s)
               (replay_buf_len s) (queue s) 0 (magic_mode s) (recording_mode s)) []
  /\ (replay_buf s = replicate 255 0 -> replay_buf_len s = 0 ->
      queue s = replicate 7 0%Z -> magic_mode s = false ->
      recording_mode s = false ->
      init cfg s = Ret (init_state cfg) []).
Proof.
  intros Hlen.
  assert (E : init cfg s =
    Ret (State (replicate (NKEY cfg) (Key false 0)) (replay_buf s)
               (replay_buf_len s) (queue s) 0 (magic_mode s) (recording_mode s)) []).
  { unfold init. cmd_red. st_norm. do 2 f_equal.
    rewrite <- Hlen, foldl_alter_seq.
    apply list_eq. intros i. rewrite list_lookup_fmap.
    destruct (key s !! i) as [e|] eqn:Ei; simpl.
    - symmetry. apply lookup_replicate_2. by eapply lookup_lt_Some.
    - symmetry. apply lookup_replicate_None. apply lookup_ge_None in Ei. lia. }
  split; [done|]. intros Hb Hl Hq Hm Hr. rewrite E. unfold init_state.
  by rewrite Hb, Hl, Hq, Hm, Hr.
Qed.

Lemma init_resets_key_table_witness :
  init demo (set_mod_keys (fun _ => 2%Z)
               (set_key (map (fun _ => Key true 255)) (init_state demo)))
  = Ret (init_state demo) [].
Proof.
  apply (proj2 (init_resets_key_table demo
                  (set_mod_keys (fun _ => 2%Z)
                     (set_key (map (fun _ => Key true 255)) (init_state demo)))
                  eq_refl)); reflexivity.
Defined.

(** ** The loop nest of the scan interrupt *)

Lemma seq_cmd_assoc (c1 c2 c3 : cmd) s :
  ((c1 >> c2) >> c3) s = (c1 >> (c2 >> c3)) s.
Proof.
  unfold seq_cmd. destruct (c1 s) as [s1 t1| | |]; try done.
  destruct (c2 s1) as [s2 t2| | |]; try done.
  destruct (c3 s2) as [s3 t3| | |]; try done; by rewrite app_assoc.
Qed.

Lemma seq_cmd_skip_l (c : cmd) s : (skip >> c) s = c s.
Proof. unfold seq_cmd, skip. by destruct (c s). Qed.

Lemma scan_keys_app cfg fuel (sample : nat -> bool) ks1 : forall ks2 s,
  foldr (fun k c => scan_key cfg fuel (sample k) k >> c) skip (ks1 ++ ks2) s
  = (foldr (fun k c => scan_key cfg fuel (sample k) k >> c) skip ks1 >>
     foldr (fun k c => scan_key cfg fuel (sample k) k >> c) skip ks2) s.
Proof.
  induction ks1 as [|k ks1 IH]; intros ks2 s.
  - simpl. by rewrite seq_cmd_skip_l.
  - simpl. rewrite seq_cmd_assoc. apply seq_cmd_congr; [done|].
    intros s1 t1 _. apply IH.
Qed.

Lemma scan_columns_seq cfg fuel (probe sample : nat -> bool) : forall n c k s,
  (forall j, j < n -> sample (k + j) = probe (c + j)) ->
  scan_columns cfg fuel probe n c k s
  = foldr (fun k c => scan_key cfg fuel (sample k) k >> c) skip (seq k n) s.
Proof.
  induction n as [|n IH]; intros c k s H; [done|].
  cbn [scan_columns seq foldr].
  assert (H0 : sample k = probe c).
  { specialize (H 0). rewrite !Nat.add_0_r in H. apply H. lia. }
  rewrite H0.
  apply seq_cmd_congr; [done|]. intros s1 t1 _. apply IH.
  intros j Hj. replace (S k + j) with (k + S j) by lia.
  replace (S c + j) with (c + S j) by lia. apply H. lia.
Qed.

Lemma scan_rows_seq cfg fuel (probe : nat -> nat -> bool) NCOL : forall n r s,
  scan_rows cfg fuel probe NCOL n r (r * NCOL) s
  = foldr (fun k c =>
             scan_key cfg fuel (probe (k / NCOL) (k mod NCOL)) k >> c)
          skip (seq (r * NCOL) (n * NCOL)) s.
Proof.
  induction n as [|n IH]; intros r s; [done|].
  cbn [scan_rows]. rewrite Nat.mul_succ_l, (Nat.add_comm (n * NCOL)), seq_app.
  rewrite scan_keys_app.
  apply seq_cmd_congr.
  - apply scan_columns_seq. intros j Hj.
    rewrite (Nat.add_comm (r * NCOL)), Nat.div_add, Nat.Div0.mod_add by lia.
    rewrite Nat.div_small, Nat.mod_small by lia. done.
  - intros s1 t1 _. specialize (IH (S r) s1).
    rewrite Nat.mul_succ_l in IH. apply IH.
Qed.

(** X16. The two nested loops of the scan interrupt, with [k]
    incremented along [c], scan the keys [0 .. NROW * NCOL - 1] in order,
    key [k] with the sample of row [k / NCOL] and column [k mod NCOL].
    After an interrupt from a reachable state the LEDs show 6 in magic
    mode, 4 in recording mode, and the LED byte of the host otherwise. *)
Theorem scan_interrupt_body (cfg : config) (fuel NROW NCOL : nat)
    (probe : nat -> nat -> bool) (keyboard_leds : Z) (s : state) :
  NROW * NCOL = NKEY cfg ->
  scan_matrix cfg fuel NROW NCOL probe s
  = scan_cycle cfg fuel (fun k => probe (k / NCOL) (k mod NCOL)) s
  /\ (reachable cfg s ->
      forall s' t,
        scan_matrix cfg fuel NROW NCOL probe s = Ret s' t ->
        (magic_mode s' = true -> led_pattern keyboard_leds s' = 6%Z)
        /\ (recording_mode s' = true -> led_pattern keyboard_leds s' = 4%Z)
        /\ (magic_mode s' = false -> recording_mode s' = false ->
            led_pattern keyboard_leds s' = keyboard_leds)).
Proof.
  intros HN.
  assert (E : scan_matrix cfg fuel NROW NCOL probe s
              = scan_cycle cfg fuel (fun k => probe (k / NCOL) (k mod NCOL)) s).
  { unfold scan_matrix, scan_cycle. rewrite <- HN.
    apply (scan_rows_seq cfg fuel probe NCOL NROW 0 s). }
  split; [done|]. intros Hs s' t Hrun. rewrite E in Hrun.
  pose proof (reachable_scan_cycle _ _ _ _ _ _ Hs Hrun) as Hs'.
  destruct (reachable_safe cfg s' Hs') as [_ _ _ _ Hex _].
  unfold led_pattern. repeat split.
  - by intros ->.
  - intros Hrec. destruct (magic_mode s') eqn:Hm; [|by rewrite Hrec].
    rewrite (Hex eq_refl) in Hrec. discriminate.
  - by intros -> ->.
Qed.

Lemma scan_interrupt_body_witness :
  scan_matrix plain 1 2 2 (fun r c => Nat.eqb r c) (init_state plain)
  = scan_cycle plain 1 (fun k => Nat.eqb (k / 2) (k mod 2)) (init_state plain).
Proof.
  apply (proj1 (scan_interrupt_body plain 1 2 2 (fun r c => Nat.eqb r c) 0%Z
                  (init_state plain) eq_refl)).
Defined.

(** ** Debug output *)

Lemma debug_print_step cfg c s :
  (0 <= c <= 100)%Z ->
  debug_print cfg c s =
  (((c + 1) mod 101)%Z, if (c =? 100)%Z then debug_dump cfg s else []).
Proof.
  intros Hc. unfold debug_print. rewrite Z.mod_small by lia.
  destruct (Z.eqb_spec c 100) as [->|Hne]; [done|].
  rewrite (proj2 (Z.ltb_ge _ _)) by lia. by rewrite Z.mod_small by lia.
Qed.

(** X17. [debug_print] dumps once every 101 calls: from a
    counter of at most 100, call number [i] (counted from 0) dumps exactly
    when [c + i + 1] is a multiple of 101, and the counter is then back to
    0. A dump is the seven cells of the queue, a newline, the [NKEY]
    history registers, a newline. *)
Theorem debug_print_every_101st_call (cfg : config) (ss : list state) (c : Z) :
  (0 <= c <= 100)%Z ->
  (debug_prints cfg c ss).1 = ((c + Z.of_nat (length ss)) mod 101)%Z
  /\ length (debug_prints cfg c ss).2 = length ss
  /\ (forall i s, ss !! i = Some s ->
        (debug_prints cfg c ss).2 !! i =
        Some (if ((c + Z.of_nat i + 1) mod 101 =? 0)%Z
              then debug_dump cfg s else []))
  /\ (forall s, length (debug_dump cfg s) = NKEY cfg + 9).
Proof.
  intros Hc. split; [|split; [|split]].
  - revert c Hc. induction ss as [|s ss IH]; intros c Hc.
    + simpl. rewrite Z.add_0_r, Z.mod_small; lia.
    + cbn [debug_prints fst length]. rewrite debug_print_step by done.
      cbn [fst].
      rewrite IH by (pose proof (Z.mod_pos_bound (c + 1) 101); lia).
      rewrite Zplus_mod_idemp_l. f_equal. lia.
  - revert c Hc. induction ss as [|s ss IH]; intros c Hc; [done|].
    cbn [debug_prints snd length]. f_equal.
    rewrite debug_print_step by done. apply IH.
    cbn [fst]. pose proof (Z.mod_pos_bound (c + 1) 101). lia.
  - revert c Hc. induction ss as [|s ss IH]; intros c Hc i s0 Hi; [done|].
    cbn [debug_prints snd]. rewrite debug_print_step by done. cbn [fst snd].
    destruct i as [|i].
    + injection Hi as ->. rewrite lookup_cons. f_equal.
      change (Z.of_nat 0) with 0%Z. rewrite Z.add_0_r.
      destruct (Z.eqb_spec c 100) as [->|Hne]; [done|].
      rewrite (Z.mod_small (c + 1)) by lia.
      by rewrite (proj2 (Z.eqb_neq _ _)) by lia.
    + rewrite lookup_cons. cbn [lookup list_lookup] in Hi.
      assert (Hc' : (0 <= (c + 1) mod 101 <= 100)%Z)
        by (pose proof (Z.mod_pos_bound (c + 1) 101); lia).
      rewrite (IH _ Hc' i s0 Hi).
      assert (Hmod : (((c + 1) mod 101 + Z.of_nat i + 1) mod 101
                      = (c + Z.of_nat (S i) + 1) mod 101)%Z).
      { rewrite <- Z.add_assoc, Zplus_mod_idemp_l. f_equal. lia. }
      by rewrite Hmod.
  - intros s. unfold debug_dump.
    rewrite !length_app, !length_map, !length_seq. simpl. lia.
Qed.

Lemma debug_print_every_101st_call_witness :
  (debug_prints demo 0 (replicate 101 (init_state demo))).1 = 0%Z
  /\ (debug_prints demo 0 (replicate 101 (init_state demo))).2 !! 100
     = Some (debug_dump demo (init_state demo)).
Proof.
  destruct (debug_print_every_101st_call demo (replicate 101 (init_state demo)) 0
              ltac:(lia)) as (H1 & _ & H3 & _).
  split; [exact H1|]. apply (H3 100 (init_state demo)). reflexivity.
Defined.

(** ** A proof rule that knows the codes

    As the rule for the whole dispatcher, for relations that hold only
    for the codes the firmware really handles: those of the layout (key
    codes [P], modifier masks [PM]) and the self-test code. *)

Section CodeDispatcher.

Variable cfg : config.
Variable R : state -> list event -> state -> Prop.
Hypothesis R_refl : forall s, R s [] s.
Hypothesis R_trans : forall s1 t1 s2 t2 s3,
  R s1 t1 s2 -> R s2 t2 s3 -> R s1 (t1 ++ t2) s3.
Variables P PM : Z -> Prop.
Hypothesis H_layout : forall k, k < length (layout cfg) ->
  if IS_MODIFIER cfg (layout_at cfg k) then PM (value (layout_at cfg k))
  else P (value (layout_at cfg k)).
Hypothesis H_self_test : P (KEY_X cfg).

Local Abbreviation ok := (sat false R).

Hypothesis H_flag : forall e b k s,
  ok (mark e (set_key (alter (set_pressed b) k))) s.
Hypothesis H_bounce : forall f k s,
  ok (upd (set_key (alter (set_bounce f) k))) s.
Hypothesis H_magic : forall b s, ok (upd (set_magic_mode b)) s.
Hypothesis H_recording_off : forall s, ok (upd (set_recording_mode false)) s.
Hypothesis H_record_start : forall s, ok (record_start cfg) s.
Hypothesis H_add : forall k s, ok (add_to_replay_buf k) s.
Hypothesis H_ll_key_press : forall c s, P c -> ok (ll_key_press c) s.
Hypothesis H_ll_key_release : forall c s, P c -> ok (ll_key_release c) s.
Hypothesis H_ll_modifier_press : forall m s, PM m -> ok (ll_modifier_press m) s.
Hypothesis H_ll_modifier_release : forall m s, PM m -> ok (ll_modifier_release m) s.
Hypothesis H_clear_pressed : forall s, ok (clear_pressed cfg) s.
Hypothesis H_bootloader : forall s, ok jump_bootloader s.

Lemma dispatch_press_codes k s :
  k < length (layout cfg) -> ok (dispatch_press cfg k) s.
Proof.
  intros Hk. specialize (H_layout k Hk).
  apply sat_ifte; intros E; cbv beta in E; rewrite E in H_layout; auto.
Qed.

Lemma dispatch_release_codes k s :
  k < length (layout cfg) -> ok (dispatch_release cfg k) s.
Proof.
  intros Hk. specialize (H_layout k Hk).
  apply sat_ifte; intros E; cbv beta in E; rewrite E in H_layout; auto.
Qed.

Lemma in_range_layout k s : in_range cfg k s = true -> k < length (layout cfg).
Proof.
  unfold in_range. intros H. apply andb_true_iff in H as [_ H].
  by apply Nat.ltb_lt in H.
Qed.

Lemma key_release_codes k s : ok (key_release cfg k) s.
Proof.
  unfold key_release. apply sat_guard; [intros Hr|done].
  unfold sat. rewrite mark_assoc. apply sat_mark_seq; [done|auto|].
  apply sat_ifte; intros Hm.
  - apply sat_when; [done|]. intros _. apply H_record_start.
  - apply sat_seq; [done..| |].
    + apply sat_when; [done|]. auto.
    + intros. by eapply dispatch_release_codes, in_range_layout.
Qed.

Lemma magic_key_press_codes (replay : cmd) k s :
  (forall s, ok replay s) -> ok (magic_key_press cfg replay k) s.
Proof.
  intros Hreplay. unfold magic_key_press.
  apply sat_seq; [done..| |intros ? ? _ _].
  { apply sat_when; [done|]. auto. }
  apply sat_seq; [done..| |intros ? ? _ _].
  { apply sat_when; [done|]. intros _.
    apply sat_seq; [done|by apply H_ll_key_press|intros ? ? _ _].
    apply sat_seq; [done|by apply H_ll_key_release|intros ? ? _ _].
    apply sat_seq; [done|by apply H_ll_key_press|intros ? ? _ _].
    by apply H_ll_key_release. }
  apply sat_seq; [done..| |intros ? ? _ _].
  { apply sat_when; [done|]. intros _.
    apply sat_seq; [done| |]; auto. }
  apply sat_when; [done|]. auto.
Qed.

Lemma key_press_codes fuel : forall k s, ok (key_press cfg fuel k) s.
Proof.
  induction fuel as [|fuel IH]; intros k s; [done|].
  cbn [key_press].
  apply sat_guard; [intros Hr|done].
  unfold sat. rewrite mark_assoc. apply sat_mark_seq; [done|auto|].
  apply sat_ifte; intros Hm.
  - apply magic_key_press_codes. intros s1.
    unfold replay_keypresses. apply sat_seq; [done..|auto|].
    intros. apply replay_loop_ok; auto. intros. apply key_release_codes.
  - apply sat_ifte; intros Hmk.
    + apply sat_ifte; intros Hrec; auto.
    + apply sat_seq; [done..| |].
      * apply sat_when; [done|]. auto.
      * intros. by eapply dispatch_press_codes, in_range_layout.
Qed.

Lemma scan_key_codes fuel b k s : ok (scan_key cfg fuel b k) s.
Proof.
  unfold scan_key.
  apply sat_seq; [done|auto|intros ? ? _ _].
  apply sat_seq; [done| |intros ? ? _ _].
  { apply sat_when; [done|]. intros _. apply key_press_codes. }
  apply sat_seq; [done| |intros ? ? _ _; auto].
  apply sat_when; [done|]. intros _. apply key_release_codes.
Qed.

End CodeDispatcher.

(** ** The state fits the bytes of the C program *)

Lemma byte_lookup_total (q : list Z) j : Forall byte q -> byte (q !!! j).
Proof.
  intros H. rewrite list_lookup_total_alt.
  destruct (q !! j) as [x|] eqn:E; simpl.
  - by eapply Forall_lookup_1.
  - change (byte 1%Z). unfold byte. lia.
Qed.

Lemma Forall_foldl_insert {A} (P : A -> Prop) (g : list A -> nat -> A) l :
  (forall q j, Forall P q -> P (g q j)) ->
  forall q, Forall P q -> Forall P (foldl (fun q j => <[j := g q j]> q) q l).
Proof.
  intros Hg. induction l as [|j l IH]; intros q Hq; [done|].
  simpl. apply IH. apply Forall_insert; auto.
Qed.

Lemma push_front_bytes c q : byte c -> Forall byte q -> Forall byte (push_front c q).
Proof.
  intros Hc Hq. unfold push_front. apply Forall_insert; [|done].
  apply (Forall_foldl_insert byte (fun q i => q !!! (i - 1))); [|done].
  intros. by apply byte_lookup_total.
Qed.

Lemma remove_code_bytes c q : Forall byte q -> Forall byte (remove_code c q).
Proof.
  intros Hq. unfold remove_code, close_gap.
  apply (Forall_foldl_insert byte (fun q j => q !!! (j + 1))); [|done].
  intros. by apply byte_lookup_total.
Qed.

Lemma clear_queue_bytes q : Forall byte q -> Forall byte (clear_queue q).
Proof.
  intros Hq. unfold clear_queue.
  apply (Forall_foldl_insert byte (fun _ _ => 0%Z)); [|done].
  intros. unfold byte. lia.
Qed.

Lemma layout_at_lookup cfg k :
  k < length (layout cfg) -> layout cfg !! k = Some (layout_at cfg k).
Proof.
  intros H. unfold layout_at.
  by destruct (lookup_lt_is_Some_2 _ _ H) as [e ->].
Qed.

Lemma bytes_rel_refl s : bytes_rel s [] s.
Proof. unfold bytes_rel. auto. Qed.

Lemma bytes_rel_trans s1 t1 s2 t2 s3 :
  bytes_rel s1 t1 s2 -> bytes_rel s2 t2 s3 -> bytes_rel s1 (t1 ++ t2) s3.
Proof. unfold bytes_rel. auto. Qed.

Lemma scan_key_bytes cfg fuel b k s :
  cfg_bytes cfg -> sat false bytes_rel (scan_key cfg fuel b k) s.
Proof.
  intros [Hlay HX].
  apply (scan_key_codes cfg bytes_rel bytes_rel_refl bytes_rel_trans byte byte);
    try done;
    try (intros; unfold sat, mark, bytes_rel, bytes_ok; cmd_red; done).
  - intros j Hj. pose proof (layout_at_lookup cfg j Hj) as E.
    pose proof (Forall_lookup_1 _ _ _ _ Hlay E). by destruct (IS_MODIFIER _ _).
  - intros s0. unfold sat, record_start, bytes_rel, bytes_ok. cmd_red. st_red.
    intros (Hl & Hq & Hm). rewrite clear_queue_length.
    split; [done|]. split; [by apply clear_queue_bytes|]. unfold byte. lia.
  - intros k0 s0. unfold sat, add_to_replay_buf, ifte, upd, bytes_rel, bytes_ok.
    by destruct (_ <? _).
  - intros c s0 Hc. unfold sat, bytes_rel, bytes_ok. cmd_red. st_red.
    intros (Hl & Hq & Hm). rewrite push_front_length.
    split; [done|]. split; [by apply push_front_bytes|done].
  - intros c s0 Hc. unfold sat, bytes_rel, bytes_ok. cmd_red. st_red.
    intros (Hl & Hq & Hm). rewrite remove_code_length.
    split; [done|]. split; [by apply remove_code_bytes|done].
  - intros m s0 Hm0. unfold sat, bytes_rel, bytes_ok. cmd_red. st_red.
    intros (Hl & Hq & Hm). split; [done|]. split; [done|]. by apply byte_lor.
  - intros m s0 Hm0. unfold sat, bytes_rel, bytes_ok. cmd_red. st_red.
    intros (Hl & Hq & Hm). split; [done|]. split; [done|].
    apply Z.mod_pos_bound. lia.
  - intros s0. unfold sat, bytes_rel, bytes_ok. cmd_red. st_red.
    intros (Hl & Hq & Hm). rewrite clear_queue_length.
    split; [done|]. split; [by apply clear_queue_bytes|]. unfold byte. lia.
Qed.

(** X18. When the codes of the layout fit a byte, so do the
    queue cells and the modifier byte of every reachable state, and every
    history register is an even byte. *)
Theorem state_fits_bytes (cfg : config) (s : state) :
  cfg_bytes cfg -> reachable cfg s ->
  Forall byte (queue s) /\ byte (mod_keys s)
  /\ Forall (fun r => byte r /\ Z.even r = true) (bounces s).
Proof.
  intros Hcfg Hs.
  assert (H : bytes_ok s /\ Forall (fun r => byte r /\ Z.even r = true) (bounces s)).
  { induction Hs as [|s fuel b k s' t _ [IH1 IH2] Hk E].
    - split.
      + split; [done|]. split; [|unfold byte; simpl; lia].
        simpl. repeat constructor; unfold byte; lia.
      + unfold bounces. simpl. apply Forall_fmap, Forall_replicate. simpl.
        split; [unfold byte; lia|done].
    - split.
      + by apply (sat_Ret _ _ _ _ _ _ (scan_key_bytes cfg fuel b k s Hcfg) E).
      + rewrite (scan_key_bounces _ _ _ _ _ _ _ E).
        apply Forall_alter; [done|]. intros r _ _.
        apply bounce_step_even_byte. }
  destruct H as [(_ & Hq & Hm) Hb]. done.
Qed.

Lemma state_fits_bytes_witness :
  Forall byte (queue (state_after demo 1 shifted_chord))
  /\ byte (mod_keys (state_after demo 1 shifted_chord))
  /\ Forall (fun r => byte r /\ Z.even r = true)
            (bounces (state_after demo 1 shifted_chord)).
Proof.
  apply (state_fits_bytes demo (state_after demo 1 shifted_chord)
           cfg_bytes_demo (reachable_state_after _ _ _)).
Defined.

(** ** The report has no hole *)

Lemma packed_7 a b c d e f g :
  packed [a; b; c; d; e; f; g] <->
  (a = 0 -> b = 0)%Z /\ (b = 0 -> c = 0)%Z /\ (c = 0 -> d = 0)%Z
  /\ (d = 0 -> e = 0)%Z /\ (e = 0 -> f = 0)%Z.
Proof.
  unfold packed. split.
  - intros H. repeat split; intros ->.
    + specialize (H 0). simpl in H. by injection (H ltac:(lia) eq_refl).
    + specialize (H 1). simpl in H. by injection (H ltac:(lia) eq_refl).
    + specialize (H 2). simpl in H. by injection (H ltac:(lia) eq_refl).
    + specialize (H 3). simpl in H. by injection (H ltac:(lia) eq_refl).
    + specialize (H 4). simpl in H. by injection (H ltac:(lia) eq_refl).
  - intros (H0 & H1 & H2 & H3 & H4) i Hi.
    do 5 (destruct i as [|i]; [simpl; intros [= ->]; f_equal; auto|]). lia.
Qed.

Lemma push_front_packed c q :
  c <> 0%Z -> length q = 7 -> packed q -> packed (push_front c q).
Proof.
  intros Hc H Hp. destruct (list_len7 q H) as (a & b & c' & d & e & f & g & ->).
  rewrite push_front_7. apply packed_7 in Hp. apply packed_7. intuition.
Qed.

Lemma remove_code_packed c q :
  c <> 0%Z -> length q = 7 -> q !! 6 = Some 0%Z -> packed q ->
  packed (remove_code c q).
Proof.
  intros Hc H H6 Hp. destruct (list_len7 q H) as (a & b & c' & d & e & f & g & ->).
  injection H6 as ->. apply packed_7 in Hp.
  unfold remove_code. cbn [find_slot lookup_total list_lookup_total].
  destruct (Z.eqb_spec a c) as [->|?]; [apply packed_7; intuition|].
  destruct (Z.eqb_spec b c) as [->|?]; [apply packed_7; intuition|].
  destruct (Z.eqb_spec c' c) as [->|?]; [apply packed_7; intuition|].
  destruct (Z.eqb_spec d c) as [->|?]; [apply packed_7; intuition|].
  destruct (Z.eqb_spec e c) as [->|?]; [apply packed_7; intuition|].
  destruct (Z.eqb_spec f c) as [->|?]; apply packed_7; intuition.
Qed.

Lemma packed_rel_refl s : packed_rel s [] s.
Proof. unfold packed_rel. auto. Qed.

Lemma packed_rel_trans s1 t1 s2 t2 s3 :
  packed_rel s1 t1 s2 -> packed_rel s2 t2 s3 -> packed_rel s1 (t1 ++ t2) s3.
Proof. unfold packed_rel. auto. Qed.

Lemma cleared_packed (q : list Z) :
  length q = 7 ->
  length (clear_queue q) = 7 /\ clear_queue q !! 6 = Some 0%Z
  /\ packed (clear_queue q).
Proof.
  intros H. rewrite (clear_queue_replicate _ H).
  split; [done|]. split; [done|]. by apply packed_7.
Qed.

Lemma scan_key_packed cfg fuel b k s :
  cfg_codes cfg -> sat false packed_rel (scan_key cfg fuel b k) s.
Proof.
  intros [Hlay HX].
  apply (scan_key_codes cfg packed_rel packed_rel_refl packed_rel_trans
           (fun c => c <> 0%Z) (fun _ => True));
    try done;
    try (intros; unfold sat, mark, packed_rel, packed_ok; cmd_red; done).
  - intros j Hj. pose proof (layout_at_lookup cfg j Hj) as E.
    pose proof (Forall_lookup_1 _ _ _ _ Hlay E) as Hv. cbv beta in Hv.
    destruct (IS_MODIFIER _ _); [done|]. by apply Hv.
  - intros s0. unfold sat, record_start, packed_rel, packed_ok. cmd_red. st_red.
    intros (Hl & _). by apply cleared_packed.
  - intros k0 s0. unfold sat, add_to_replay_buf, ifte, upd, packed_rel, packed_ok.
    by destruct (_ <? _).
  - intros c s0 Hc. unfold sat, packed_rel, packed_ok. cmd_red. st_red.
    intros (Hl & H6 & Hp). rewrite push_front_length, push_front_lookup_6.
    split; [done|]. split; [done|]. by apply push_front_packed.
  - intros c s0 Hc. unfold sat, packed_rel, packed_ok. cmd_red. st_red.
    intros (Hl & H6 & Hp). rewrite remove_code_length, remove_code_lookup_6.
    split; [done|]. split; [done|]. by apply remove_code_packed.
  - intros s0. unfold sat, packed_rel, packed_ok. cmd_red. st_red.
    intros (Hl & _). by apply cleared_packed.
Qed.

(** X19. When no normal key has code 0, the report of a
    reachable state has no hole: a free slot is followed by free slots
    only. *)
Theorem report_has_no_hole (cfg : config) (s : state) :
  cfg_codes cfg -> reachable cfg s ->
  packed (queue s)
  /\ forall i j, i <= j -> j < 7 ->
       queue s !! i = Some 0%Z -> queue s !! j = Some 0%Z.
Proof.
  intros Hcfg Hs.
  assert (H : packed_ok s).
  { induction Hs as [|s fuel b k s' t _ IH Hk E].
    - split; [done|]. split; [done|]. simpl. by apply packed_7.
    - by apply (sat_Ret _ _ _ _ _ _ (scan_key_packed cfg fuel b k s Hcfg) E). }
  destruct H as (Hl & H6 & Hp). split; [done|].
  destruct (list_len7 _ Hl) as (a & b & c & d & e & f & g & Hq).
  rewrite Hq in *. injection H6 as Hg. apply packed_7 in Hp.
  intros i j Hij Hj.
  do 7 (destruct i as [|i];
        [do 7 (destruct j as [|j];
               [simpl; intros [= Hz]; f_equal; intuition lia|]); lia|]).
  lia.
Qed.

Lemma report_has_no_hole_witness :
  packed (queue (state_after demo 1 shifted_chord))
  /\ queue (state_after demo 1 shifted_chord) = [5; 0; 0; 0; 0; 0; 0]%Z.
Proof.
  split; [|vm_compute; reflexivity].
  apply (proj1 (report_has_no_hole demo (state_after demo 1 shifted_chord)
                  cfg_codes_demo (reachable_state_after _ _ _))).
Defined.
